(** * BrainPy simulation core: delay buffers, network scheduler, neuron groups

    A shallow embedding of
    - [brainpy/math/delayvars.py]      ([TimeDelay], [LengthDelay]),
    - [brainpy/core_system/network.py] ([Network]),
    - [brainpy/integrators/runner.py]  ([IntegratorRunner], time bookkeeping),
    - [npbrain/core/neuron_group.py]   ([NeuGroup.__call__]),
    and the properties of these functions that the specification states.

    Conventions.  Python numbers (times, samples) are rationals [Q]: the
    embedding is exact-arithmetic and does not model floating-point rounding.
    Array indices and step counts are [Z]: the buffers' 32-bit index
    arithmetic is computed without wrap-around, which is the code's result
    while capacities and arguments are 32-bit integers
    ([LengthDelay.int32_read]).  A raised exception is a value of
    [exn]; the string it carries is the constant head of the source message.
    Mutable objects are threaded explicitly; where a failing call leaves a
    mutated object behind, the function returns the object next to the
    outcome.  The attributes that [setattr] binds on a network are a map
    next to the network's typed fields ([Network.own_names]). *)

From Stdlib Require Import ZArith QArith Qround Lia Lqa Ascii.
From stdpp Require Import base list strings gmap.

(** ** Exceptions and fallible computations *)

Inductive exn : Type :=
| ValueError (why : string)
| KeyError (why : string)
| TypeError (why : string)
| IndexError (why : string)
| AttributeError (why : string)
| AssertionError (why : string)
| ZeroDivisionError
| ModelUseError (why : string)
| UnsupportedError (why : string).

Inductive result (A : Type) : Type :=
| Ok (a : A)
| Raise (e : exn).
Arguments Ok {A} a.
Arguments Raise {A} e.

#[global] Instance result_ret : MRet result := fun A a => Ok a.
#[global] Instance result_bind : MBind result :=
  fun A B f m => match m with Ok a => f a | Raise e => Raise e end.

Definition succeeds {A} (r : result A) : Prop := exists a, r = Ok a.

(** [for x in xs: body] over a fallible body that threads a state. *)
Fixpoint for_each {S X : Type} (body : S -> X -> result S) (xs : list X) (s : S)
  : result S :=
  match xs with
  | [] => Ok s
  | x :: xs' => s' ← body s x; for_each body xs' s'
  end.

(** ** Rational helpers *)

Definition Qltb (x y : Q) : bool := negb (Qle_bool y x).

(** [jnp.asarray(x, dtype=int32)] on a float: truncation toward zero (the
    model assumes the quotient fits in 32 bits). *)
Definition Qtrunc (q : Q) : Z := Z.quot (Qnum q) (Zpos (Qden q)).

(** [jnp.round]: round half to even. *)
Definition Qround_half_even (q : Q) : Z :=
  let f := Qfloor q in
  let r := (q - inject_Z f)%Q in
  if Qltb r (1 # 2) then f
  else if Qltb (1 # 2) r then (f + 1)%Z
  else if Z.even f then f else (f + 1)%Z.

(** ** Tensors and the array primitives the buffers use *)

Record Tensor : Type := mkTensor { tshape : list nat; tvals : list Q }.

Definition prod_shape (s : list nat) : nat := foldr Nat.mul 1%nat s.

Fixpoint chunks {A} (n sz : nat) (l : list A) : list (list A) :=
  match n with
  | O => []
  | S n' => take sz l :: chunks n' sz (drop sz l)
  end.

Module jnp.

Definition zeros (s : list nat) : Tensor :=
  mkTensor s (replicate (prod_shape s) 0%Q).

(** NumPy broadcasting of row-major values from shape [src] to shape
    [dst]; [None] when the shapes are incompatible. *)
Fixpoint broadcast_vals (src dst : list nat) (v : list Q) : option (list Q) :=
  match dst with
  | [] => match src with [] => Some v | _ :: _ => None end
  | d :: dst' =>
      if decide (length src <= length dst')%nat then
        r ← broadcast_vals src dst' v; Some (concat (replicate d r))
      else
        match src with
        | [] => None
        | s :: src' =>
            if decide (s = d) then
              rs ← mapM (broadcast_vals src' dst') (chunks s (prod_shape src') v);
              Some (concat rs)
            else if decide (s = 1%nat) then
              r ← broadcast_vals src' dst' v; Some (concat (replicate d r))
            else None
        end
  end.

Definition broadcast_to (v : Tensor) (s : list nat) : result Tensor :=
  if decide (tshape v = s) then Ok v
  else match broadcast_vals (tshape v) s (tvals v) with
       | Some vs => Ok (mkTensor s vs)
       | None => Raise (ValueError "Incompatible shapes for broadcasting")
       end.

(** Python-style normalisation of a negative index on an axis of size [n]. *)
Definition norm_index (n i : Z) : Z := if (i <? 0)%Z then (i + n)%Z else i.

(** [data[i]] with a traced integer [i]: negative indices wrap once,
    out-of-bounds indices are clamped into the axis (JAX gather). *)
Definition getitem (data : list Tensor) (i : Z) : result Tensor :=
  let n := Z.of_nat (length data) in
  let j := Z.max 0 (Z.min (n - 1) (norm_index n i)) in
  match data !! Z.to_nat j with
  | Some x => Ok x
  | None => Raise (IndexError "index is out of bounds for axis 0 with size 0")
  end.

(** [data[i] = v] on a ring of slots of shape [s]: the value is broadcast
    to the slot shape; an out-of-bounds scatter is dropped (JAX scatter). *)
Definition setitem (s : list nat) (data : list Tensor) (i : Z) (v : Tensor)
  : result (list Tensor) :=
  v' ← broadcast_to v s;
  let n := Z.of_nat (length data) in
  let j := norm_index n i in
  if ((0 <=? j) && (j <? n))%Z then Ok (<[Z.to_nat j := v']> data) else Ok data.

(** [data[:-1] = v]: [v] is broadcast to [(n-1,) + s] and fills all slots
    but the last. *)
Definition set_all_but_last (s : list nat) (data : list Tensor) (v : Tensor)
  : result (list Tensor) :=
  let m := (length data - 1)%nat in
  filled ← broadcast_to v (m :: s);
  Ok (map (mkTensor s) (chunks m (prod_shape s) (tvals filled)) ++ drop m data).

(** [jnp.interp(x, [x0, x1], [f0, f1])] on scalars. *)
Definition interp1 (x x0 x1 f0 f1 : Q) : Q :=
  let df := (f1 - f0)%Q in
  let dx := (x1 - x0)%Q in
  let delta := (x - x0)%Q in
  let f := if Qeq_bool dx 0 then f1 else (f0 + (delta / dx) * df)%Q in
  let f := if Qltb x x0 then f0 else f in
  if Qltb x1 x then f1 else f.

End jnp.

(** ** [brainpy.math.delayvars]: module constants and helpers *)

Definition _FUNC_BEFORE : string := "function".
Definition _DATA_BEFORE : string := "data".
Definition _INTERP_LINEAR : string := "linear_interp".
Definition _INTERP_ROUND : string := "round".

(** [check_error_in_jit(pred, err_f, args)]: raise when [pred] holds. *)
Definition check_error_in_jit (pred : bool) (e : exn) : result unit :=
  if pred then Raise e else Ok tt.

(** The [before_t0] argument of [TimeDelay]: a function of time or data. *)
Inductive BeforeT0 : Type :=
| BeforeFun (f : Q -> Tensor)
| BeforeData (d : Tensor).

(** ** [TimeDelay] *)

Module TimeDelay.

Record TimeDelay : Type := mk {
  shape : list nat;
  t0 : Q;
  dt : Q;
  delay_len : Q;
  num_delay_step : Z;
  interp_method : string;
  idx : Z;
  current_time : Q;
  data : list Tensor;
  _before_type : string;
  (* only read when [_before_type] is [_FUNC_BEFORE] *)
  _before_t0 : Q -> result Tensor
}.

(** [TimeDelay.__init__]; [get_dt] is the global default time step. *)
Definition __init__ (get_dt : Q) (delay_target : Tensor) (delay_len : Q)
    (before_t0 : option BeforeT0) (t0 : Q) (dt : option Q)
    (interp_method : string) : result TimeDelay :=
  let shape := tshape delay_target in
  let dt := default get_dt dt in
  _ ← (if Qltb delay_len 0 then Raise (ValueError "delay_len must be bigger than 0")
       else Ok tt);
  _ ← (if Qeq_bool dt 0 then Raise ZeroDivisionError else Ok tt);
  let num_delay_step := (Qceiling (delay_len / dt) + 1)%Z in
  _ ← (if bool_decide (interp_method = _INTERP_LINEAR)
          || bool_decide (interp_method = _INTERP_ROUND) then Ok tt
       else Raise (UnsupportedError "Un-supported interpolation method"));
  _ ← (if (num_delay_step <? 0)%Z then Raise (ValueError "negative dimensions are not allowed")
       else Ok tt);
  let data0 := replicate (Z.to_nat num_delay_step) (jnp.zeros shape) in
  '(before_type, before_fun, data1) ←
      match before_t0 with
      | None => Ok (_DATA_BEFORE, fun _ : Q => Ok (jnp.zeros shape), data0)
      | Some (BeforeFun f) =>
          Ok (_FUNC_BEFORE, fun t : Q => jnp.broadcast_to (f t) shape, data0)
      | Some (BeforeData d) =>
          d1 ← jnp.set_all_but_last shape data0 d;
          Ok (_DATA_BEFORE, fun _ : Q => Ok (jnp.zeros shape), d1)
      end;
  data2 ← jnp.setitem shape data1 (-1) delay_target;
  Ok (mk shape t0 dt delay_len num_delay_step interp_method 0%Z t0 data2
         before_type before_fun).

Definition _check_time1 : exn :=
  ValueError "The request time should be less than the current time".
Definition _check_time2 : exn :=
  ValueError "The request time of the variable should be in [current_time - delay_len, current_time]".

Definition _true_fn (self : TimeDelay) (div_mod : Z * Q) : result Tensor :=
  let '(req_num_step, extra) := div_mod in
  jnp.getitem (data self) (idx self + req_num_step).

Definition _false_fn (self : TimeDelay) (div_mod : Z * Q) : result Tensor :=
  let '(req_num_step, extra) := div_mod in
  let i0 := ((idx self + req_num_step) mod num_delay_step self)%Z in
  let i1 := ((idx self + req_num_step + 1) mod num_delay_step self)%Z in
  a ← jnp.getitem (data self) i0;
  b ← jnp.getitem (data self) i1;
  Ok (mkTensor (shape self)
        (zip_with (jnp.interp1 extra 0 (dt self)) (tvals a) (tvals b))).

Definition _after_t0 (self : TimeDelay) (prev_time : Q) : result Tensor :=
  let diff := (delay_len self - (current_time self - prev_time))%Q in
  if bool_decide (interp_method self = _INTERP_LINEAR) then
    let req_num_step := Qtrunc (diff / dt self) in
    let extra := (diff - inject_Z req_num_step * dt self)%Q in
    if Qeq_bool extra 0 then _true_fn self (req_num_step, extra)
    else _false_fn self (req_num_step, extra)
  else if bool_decide (interp_method self = _INTERP_ROUND) then
    let req_num_step := Qround_half_even (diff / dt self) in
    _true_fn self (req_num_step, 0%Q)
  else Raise (UnsupportedError "Un-supported interpolation method").

(** [TimeDelay.__call__(time)] with [indices=None]; [checking] is the
    global flag read by [check.is_checking()]. *)
Definition __call__ (checking : bool) (self : TimeDelay) (time : Q)
  : result Tensor :=
  _ ← (if checking then
         _ ← check_error_in_jit
               (Qltb (current_time self + (1 # 1000000)) time) _check_time1;
         check_error_in_jit
               (Qltb time (current_time self - delay_len self - dt self))
               _check_time2
       else Ok tt);
  if bool_decide (_before_type self = _FUNC_BEFORE) then
    if Qltb time (t0 self) then _before_t0 self time else _after_t0 self time
  else _after_t0 self time.

Definition update (self : TimeDelay) (time : Q) (value : Tensor)
  : result TimeDelay :=
  d ← jnp.setitem (shape self) (data self) (idx self) value;
  Ok (mk (shape self) (t0 self) (dt self) (delay_len self)
         (num_delay_step self) (interp_method self)
         ((idx self + 1) mod num_delay_step self)%Z time d
         (_before_type self) (_before_t0 self)).

(** A sequence of [update] calls. *)
Definition updates (self : TimeDelay) (tvs : list (Q * Tensor))
  : result TimeDelay :=
  for_each (fun b tv => update b tv.1 tv.2) tvs self.

(** State invariant established by [__init__] and kept by [update]. *)
Record wf (self : TimeDelay) : Prop := {
  wf_cap : (0 < num_delay_step self)%Z;
  wf_len : Z.of_nat (length (data self)) = num_delay_step self;
  wf_idx : (0 <= idx self < num_delay_step self)%Z
}.

End TimeDelay.

(** ** [LengthDelay] *)

(** The [initial_delay_data] argument of [LengthDelay]: data, or a callable
    receiving the shape [(delay_len,) + shape]. *)
Inductive InitialDelayData : Type :=
| InitData (d : Tensor)
| InitFun (f : list nat -> Tensor).

Module LengthDelay.

Record LengthDelay : Type := mk {
  num_delay_step : Z;
  shape : list nat;
  idx : Z;
  data : list Tensor
}.

(** [LengthDelay.reset]; [self] is [None] when called from [__init__],
    where every attribute is still [None]. *)
Definition reset (self : option LengthDelay) (delay_target : Tensor)
    (delay_len : option Z) (initial_delay_data : option InitialDelayData)
  : result LengthDelay :=
  let shape := tshape delay_target in
  _ ← (match delay_len with
       | Some n => if (n <? 0)%Z
                   then Raise (ValueError "delay_len must be bigger than 0")
                   else Ok tt
       | None => Ok tt
       end);
  delay_len ← (match delay_len with
               | Some n => Ok n
               | None => match self with
                         | None => Raise (ValueError "delay_len cannot be None.")
                         | Some b => Ok (num_delay_step b - 1)%Z
                         end
               end);
  let num_delay_step := (delay_len + 1)%Z in
  let data0 := replicate (Z.to_nat num_delay_step) (jnp.zeros shape) in
  data1 ← jnp.setitem shape data0 (-1) delay_target;
  data2 ← (match initial_delay_data with
           | None => Ok data1
           | Some (InitData d) => jnp.set_all_but_last shape data1 d
           | Some (InitFun f) =>
               jnp.set_all_but_last shape data1 (f (Z.to_nat delay_len :: shape))
           end);
  Ok (mk num_delay_step shape 0%Z data2).

Definition __init__ (delay_target : Tensor) (delay_len : Z)
    (initial_delay_data : option InitialDelayData) : result LengthDelay :=
  reset None delay_target (Some delay_len) initial_delay_data.

Definition _check_delay : exn :=
  ValueError "The request delay length should be less than the maximum delay".

(** The 32-bit integers: the code keeps [idx] in an [int32] array and
    computes the slot of a read in that type. *)
Definition int32 (z : Z) : Prop := (- 2 ^ 31 <= z < 2 ^ 31)%Z.

(** The capacity, the argument and the two differences that
    [__call__(delay_len)] computes are 32-bit integers.  [__call__] below
    computes the slot in [Z]; it is the code's slot for the reads
    [int32_read] admits.  Outside of them the code's subtraction wraps
    around, or the conversion of the argument raises [OverflowError]. *)
Definition int32_read (self : LengthDelay) (delay_len : Z) : Prop :=
  int32 (num_delay_step self) /\ int32 delay_len /\
  int32 (idx self - delay_len) /\ int32 (idx self - delay_len - 1).

(** [LengthDelay.__call__(delay_len)] for a scalar integer [delay_len] and
    no further [indices]. *)
Definition __call__ (checking : bool) (self : LengthDelay) (delay_len : Z)
  : result Tensor :=
  _ ← (if checking then
         check_error_in_jit (num_delay_step self <=? delay_len)%Z _check_delay
       else Ok tt);
  let delay_idx := ((idx self - delay_len - 1) mod num_delay_step self)%Z in
  jnp.getitem (data self) delay_idx.

Definition update (self : LengthDelay) (value : Tensor) : result LengthDelay :=
  if decide (tshape value <> shape self) then
    Raise (ValueError "value shape should be the buffer shape")
  else
    d ← jnp.setitem (shape self) (data self) (idx self) value;
    Ok (mk (num_delay_step self) (shape self)
           ((idx self + 1) mod num_delay_step self)%Z d).

Definition updates (self : LengthDelay) (vs : list Tensor) : result LengthDelay :=
  for_each update vs self.

Record wf (self : LengthDelay) : Prop := {
  wf_cap : (0 < num_delay_step self)%Z;
  wf_len : Z.of_nat (length (data self)) = num_delay_step self;
  wf_idx : (0 <= idx self < num_delay_step self)%Z
}.

End LengthDelay.

(** ** Ghost instrumentation of the rings

    [log !! s] is the ordinal of the [update] call that last wrote slot [s]
    ([0]: the slot still holds what it held before the first call).  The log
    is written at the buffer's own write index, so it records where the code
    really stored each sample. *)

Fixpoint td_updates_logged (b : TimeDelay.TimeDelay) (log : list nat) (k : nat)
    (tvs : list (Q * Tensor)) : result (TimeDelay.TimeDelay * list nat) :=
  match tvs with
  | [] => Ok (b, log)
  | tv :: tvs' =>
      b' ← TimeDelay.update b tv.1 tv.2;
      td_updates_logged b' (<[Z.to_nat (TimeDelay.idx b) := S k]> log) (S k) tvs'
  end.

Fixpoint ld_updates_logged (b : LengthDelay.LengthDelay) (log : list nat) (k : nat)
    (vs : list Tensor) : result (LengthDelay.LengthDelay * list nat) :=
  match vs with
  | [] => Ok (b, log)
  | v :: vs' =>
      b' ← LengthDelay.update b v;
      ld_updates_logged b' (<[Z.to_nat (LengthDelay.idx b) := S k]> log) (S k) vs'
  end.

(** Age of a slot after [n] updates: how many updates ago it was written. *)
Definition slot_age (n stamp : nat) : nat := (n - stamp)%nat.


(** ** Python values and objects seen by the network *)

(** An object reference ([id] of a Python object). *)
Definition ref : Type := nat.

#[warning="-register-all"] Inductive PyVal : Type :=
| PNone
| PStr (s : string)
| PInt (z : Z)
| PFloat (q : Q)
| PArr (a : Tensor)
| PObj (r : ref)
| PTuple (l : list PyVal)
| PList (l : list PyVal).

(** One entry of the formatted inputs: [(key, val, ops, data_type)]. *)
Definition FormatInp : Type := (string * PyVal * string * string)%type.

(** [formatted_inputs]: a dict in insertion order, target name to entries. *)
Definition FormattedInputs : Type := list (string * list FormatInp).

(** What the network reads and writes of an object: its class membership
    ([isinstance] against the three classes the network tests), its [name],
    its monitor dict [mon], and of its [runner] the dict [_inputs]
    (key to [(value, operation)]) and the attributes [<key>_inp]. *)
Record Obj : Type := mkObj {
  is_NeuGroup : bool;
  is_SynConn : bool;
  is_BrainEnsemble : bool;
  name : string;
  mon : gmap string Tensor;
  runner_inputs : list (string * (PyVal * string));
  runner_attrs : gmap string PyVal
}.

(** The object store: every reference denotes an object. *)
Definition Heap : Type := ref -> Obj.

Definition heap_set (h : Heap) (r : ref) (o : Obj) : Heap :=
  fun r' => if decide (r' = r) then o else h r'.

(** The synthesized step procedure [step_func(_t_, _i_, _dt_)]: it mutates
    objects and may raise. *)
Definition StepFunc : Type := Q -> nat -> Q -> Heap -> Heap * result unit.

(** Collaborators of the network that live outside this module: the global
    time step ([profile.get_dt()]), the table of input operations
    ([constants.INPUT_OPERATIONS], its keys), each participant's [_build]
    (it may mutate the participant and returns its code lines), and the
    compilation of the assembled code in the scope [name -> object]. *)
Record Backend : Type := mkBackend {
  get_dt : Q;
  INPUT_OPERATIONS : list string;
  obj_build : Obj -> option (list FormatInp) -> nat -> result (Obj * list string);
  exec_step_func : list string -> list (string * ref) -> result StepFunc
}.

(** ** State-and-exception computations

    A raised exception leaves the state as mutated so far. *)

Definition StateErr (S A : Type) : Type := S -> S * result A.

#[global] Instance StateErr_ret {S} : MRet (StateErr S) := fun A a s => (s, Ok a).
#[global] Instance StateErr_bind {S} : MBind (StateErr S) :=
  fun A B f m s =>
    match m s with
    | (s', Ok a) => f a s'
    | (s', Raise e) => (s', Raise e)
    end.

Definition st_get {S} : StateErr S S := fun s => (s, Ok s).
Definition st_modify {S} (f : S -> S) : StateErr S unit := fun s => (f s, Ok tt).
Definition st_lift {S A} (r : result A) : StateErr S A := fun s => (s, r).
Definition st_raise {S A} (e : exn) : StateErr S A := fun s => (s, Raise e).

(** [for x in xs: acc = body acc x]. *)
Fixpoint st_fold {S X A} (body : A -> X -> StateErr S A) (xs : list X) (a : A)
  : StateErr S A :=
  match xs with
  | [] => mret a
  | x :: xs' => a' ← body a x; st_fold body xs' a'
  end.

(** [for x in xs: body x]. *)
Fixpoint st_for {S X} (xs : list X) (body : X -> StateErr S unit) : StateErr S unit :=
  match xs with
  | [] => mret tt
  | x :: xs' => _ ← body x; st_for xs' body
  end.

(** ** Python and NumPy primitives used by the network *)

Definition py_is_seq (v : PyVal) : bool :=
  match v with PTuple _ | PList _ => true | _ => false end.

Definition py_is_str (v : PyVal) : bool :=
  match v with PStr _ => true | _ => false end.

Definition py_number (v : PyVal) : option Q :=
  match v with
  | PInt z => Some (inject_Z z)
  | PFloat q => Some q
  | _ => None
  end.

(** [len(v)]. *)
Definition py_len (v : PyVal) : result nat :=
  match v with
  | PTuple l | PList l => Ok (length l)
  | PStr s => Ok (String.length s)
  | PArr a => match tshape a with
              | n :: _ => Ok n
              | [] => Raise (TypeError "len() of unsized object")
              end
  | _ => Raise (TypeError "object has no len()")
  end.

(** [v[i]] for a non-negative literal index [i]. *)
Definition py_getitem (v : PyVal) (i : nat) : result PyVal :=
  match v with
  | PTuple l | PList l =>
      match l !! i with
      | Some x => Ok x
      | None => Raise (IndexError "index out of range")
      end
  | PStr s =>
      match String.get i s with
      | Some c => Ok (PStr (String c EmptyString))
      | None => Raise (IndexError "string index out of range")
      end
  | PArr a =>
      match tshape a with
      | [] => Raise (IndexError "too many indices for array")
      | n :: rest =>
          if decide (i < n)%nat then
            match rest with
            | [] => Ok (PFloat (default 0%Q (tvals a !! i)))
            | _ :: _ =>
                Ok (PArr (mkTensor rest
                            (take (prod_shape rest) (drop (i * prod_shape rest) (tvals a)))))
            end
          else Raise (IndexError "index is out of bounds for axis 0")
      end
  | _ => Raise (TypeError "object is not subscriptable")
  end.

(** Whether a value can be hashed (needed by [x in dict]). *)
Fixpoint py_hashable (v : PyVal) : bool :=
  match v with
  | PList _ | PArr _ => false
  | PTuple l => forallb py_hashable l
  | _ => true
  end.

(** [v in d] for a dict [d] whose keys are the strings [keys]. *)
Definition py_in_keys (v : PyVal) (keys : list string) : result bool :=
  if py_hashable v then
    match v with
    | PStr s => Ok (bool_decide (s ∈ keys))
    | _ => Ok false
    end
  else Raise (TypeError "unhashable type").

(** [np.shape(v)]; the values it is applied to are numbers or arrays. *)
Definition np_shape (v : PyVal) : list nat :=
  match v with
  | PArr a => tshape a
  | PTuple l | PList l => [length l]
  | _ => []
  end.

Definition np_isscalar (v : PyVal) : bool :=
  match v with PInt _ | PFloat _ | PStr _ => true | _ => false end.

(** [np.arange(start, stop, step)] on numbers: [ceil((stop - start) / step)]
    values [start + i * step]. *)
Definition np_arange (start stop : PyVal) (step : Q) : result (list Q) :=
  match py_number start, py_number stop with
  | Some a, Some b =>
      if Qeq_bool step 0 then Raise (ValueError "Maximum allowed size exceeded")
      else
        let n := Z.to_nat (Qceiling ((b - a) / step)) in
        Ok (map (fun i : nat => (a + inject_Z (Z.of_nat i) * step)%Q) (seq 0 n))
  | _, _ => Raise (TypeError "unsupported operand type(s) for arange")
  end.

(** A one-dimensional array of the given values. *)
Definition np_array1 (vs : list Q) : Tensor := mkTensor [length vs] vs.

(** [key.replace(".", "_")]. *)
Fixpoint replace_dot (s : string) : string :=
  match s with
  | EmptyString => EmptyString
  | String c s' =>
      String (if Ascii.eqb c "."%char then "_"%char else c) (replace_dot s')
  end.

Definition inp_attr (key : string) : string := replace_dot key +:+ "_inp".

(** [l.remove(x)]: drop the first occurrence, [ValueError] if absent. *)
Fixpoint list_remove (x : string) (l : list string) : result (list string) :=
  match l with
  | [] => Raise (ValueError "list.remove(x): x not in list")
  | y :: l' => if decide (x = y) then Ok l'
               else l'' ← list_remove x l'; Ok (y :: l'')
  end.

(** Lookup in a dict kept in insertion order. *)
Fixpoint assoc_get {V} (k : string) (d : list (string * V)) : option V :=
  match d with
  | [] => None
  | (k', v) :: d' => if decide (k = k') then Some v else assoc_get k d'
  end.

(** [d[k].append(x)], creating [d[k] = []] first when [k] is new. *)
Fixpoint assoc_append {V} (k : string) (x : V) (d : list (string * list V))
  : list (string * list V) :=
  match d with
  | [] => [(k, [x])]
  | (k', xs) :: d' =>
      if decide (k = k') then (k', xs ++ [x]) :: d'
      else (k', xs) :: assoc_append k x d'
  end.

(** ** [Network] *)

Module Network.

Record Network : Type := mk {
  _all_neu_groups : list ref;
  _all_syn_conns : list ref;
  _all_objects : list ref;
  _objsets : gmap string ref;
  (* the bindings made by [setattr(self, name, obj)] *)
  attrs : gmap string ref;
  t_start : PyVal;
  t_end : PyVal;
  t_duration : Q;
  mode : string;
  _step_func : option StepFunc
}.

Definition set_all_objects (l : list ref) (n : Network) : Network :=
  mk (_all_neu_groups n) (_all_syn_conns n) l (_objsets n) (attrs n)
     (t_start n) (t_end n) (t_duration n) (mode n) (_step_func n).
Definition set_all_neu_groups (l : list ref) (n : Network) : Network :=
  mk l (_all_syn_conns n) (_all_objects n) (_objsets n) (attrs n)
     (t_start n) (t_end n) (t_duration n) (mode n) (_step_func n).
Definition set_all_syn_conns (l : list ref) (n : Network) : Network :=
  mk (_all_neu_groups n) l (_all_objects n) (_objsets n) (attrs n)
     (t_start n) (t_end n) (t_duration n) (mode n) (_step_func n).
Definition set_objsets (m : gmap string ref) (n : Network) : Network :=
  mk (_all_neu_groups n) (_all_syn_conns n) (_all_objects n) m (attrs n)
     (t_start n) (t_end n) (t_duration n) (mode n) (_step_func n).
Definition set_attr (k : string) (r : ref) (n : Network) : Network :=
  mk (_all_neu_groups n) (_all_syn_conns n) (_all_objects n) (_objsets n)
     (<[k := r]> (attrs n))
     (t_start n) (t_end n) (t_duration n) (mode n) (_step_func n).
Definition set_times (a b : PyVal) (n : Network) : Network :=
  mk (_all_neu_groups n) (_all_syn_conns n) (_all_objects n) (_objsets n) (attrs n)
     a b (t_duration n) (mode n) (_step_func n).
Definition set_t_duration (d : Q) (n : Network) : Network :=
  mk (_all_neu_groups n) (_all_syn_conns n) (_all_objects n) (_objsets n) (attrs n)
     (t_start n) (t_end n) d (mode n) (_step_func n).
Definition set_mode (m : string) (n : Network) : Network :=
  mk (_all_neu_groups n) (_all_syn_conns n) (_all_objects n) (_objsets n) (attrs n)
     (t_start n) (t_end n) (t_duration n) m (_step_func n).
Definition set_step_func (f : option StepFunc) (n : Network) : Network :=
  mk (_all_neu_groups n) (_all_syn_conns n) (_all_objects n) (_objsets n) (attrs n)
     (t_start n) (t_end n) (t_duration n) (mode n) f.

(** The two properties of the class, [ts] and [dt]: they have no setter. *)
Definition property_names : list string := ["ts"; "dt"].

(** The other names the class and its instances bind themselves: the
    fields assigned in [__init__] and [run], and the methods.  [setattr] to
    one of them rebinds it to the participant, and what the network's own
    code then does with the participant depends on the participant's class,
    which is outside this module.  [attrs] records such a binding like any
    other; the typed fields keep what the network itself stored.  The
    statements about registration say where they exclude these names. *)
Definition own_names : list string :=
  ["_all_neu_groups"; "_all_syn_conns"; "_all_objects"; "_objsets";
   "t_start"; "t_end"; "t_duration"; "mode"; "_step_func";
   "__init__"; "_add_obj"; "add"; "_format_inputs"; "build"; "run"].

(** [setattr(self, k, obj)]: on a property without a setter it raises,
    otherwise it binds [k] on the instance. *)
Definition setattr (k : string) (r : ref) : StateErr Network unit :=
  if bool_decide (k ∈ property_names)
  then st_raise (AttributeError "can't set attribute")
  else st_modify (set_attr k r).

(** [getattr(self, s)] for a participant attribute; the network's own
    attributes are not participants and have no [name], so reading [.name]
    or [.runner] through them raises the same [AttributeError]. *)
Definition getattr (self : Network) (s : string) : result ref :=
  match attrs self !! s with
  | Some r => Ok r
  | None => Raise (AttributeError "object has no such attribute")
  end.

(** [Network._add_obj(obj, name=None)]. *)
Definition _add_obj (h : Heap) (obj : ref) (name_arg : option string)
  : StateErr Network unit :=
  self ← st_get;
  _ ← st_modify (set_all_objects (_all_objects self ++ [obj]));
  _ ← (if is_NeuGroup (h obj) then
         st_modify (set_all_neu_groups (_all_neu_groups self ++ [obj]))
       else if is_SynConn (h obj) then
         st_modify (set_all_syn_conns (_all_syn_conns self ++ [obj]))
       else st_raise (ValueError "Unknown object type"));
  let nm := default (name (h obj)) name_arg in
  _ ← (if decide (is_Some (_objsets self !! nm)) then
         st_raise (KeyError "Name has been used in the network, please change another name.")
       else mret tt);
  _ ← st_modify (fun n => set_objsets (<[nm := obj]> (_objsets n)) n);
  _ ← setattr nm obj;
  if decide (name (h obj) <> nm) then setattr (name (h obj)) obj
  else mret tt.

(** [Network.add] on positional [args] and keyword [kwargs]. *)
Definition add (h : Heap) (args : list ref) (kwargs : list (string * ref))
  : StateErr Network unit :=
  _ ← st_for args (fun obj => _add_obj h obj None);
  st_for kwargs (fun kv => _add_obj h kv.2 (Some kv.1)).

(** [Network.__init__] on [args], [mode] and [kwargs]: the outcome and, on
    success, the new network. *)
Definition __init__ (h : Heap) (args : list ref) (mode_arg : string)
    (kwargs : list (string * ref)) : result Network :=
  let self := mk [] [] [] ∅ ∅ (PFloat 0) (PFloat 0) 0 mode_arg None in
  match add h args kwargs self with
  | (self, Ok _) =>
      if bool_decide (mode_arg = "once") || bool_decide (mode_arg = "repeat")
      then Ok (set_step_func None (set_mode mode_arg self))
      else Raise (AssertionError "mode in ['once', 'repeat']")
  | (_, Raise e) => Raise e
  end.

(** Validation loop of [_format_inputs]: one [inp]. *)
Definition check_inp (env : Backend) (inp : PyVal) : result unit :=
  n ← py_len inp;
  _ ← (if decide (3 <= n <= 4)%nat then Ok tt
       else Raise (ModelUseError
              "For each target, you must specify (target, key, value, [operation])."));
  if decide (n = 4%nat) then
    op ← py_getitem inp 3;
    known ← py_in_keys op (INPUT_OPERATIONS env);
    if known : bool then Ok tt
    else Raise (ModelUseError "Input operation only support the known operations")
  else Ok tt.

(** Formatting loop of [_format_inputs]: one [inp]. *)
Definition format_inp (self : Network) (h : Heap) (run_length : nat)
    (formatted_inputs : FormattedInputs) (inp : PyVal) : result FormattedInputs :=
  inp0 ← py_getitem inp 0;
  target ← (match inp0 with
            | PStr s => r ← getattr self s; Ok (name (h r))
            | PObj r =>
                if is_BrainEnsemble (h r) then Ok (name (h r))
                else Raise (KeyError "Unknown input target")
            | _ => Raise (KeyError "Unknown input target")
            end);
  inp1 ← py_getitem inp 1;
  key ← (match inp1 with
         | PStr s => Ok s
         | _ => Raise (ModelUseError
                  "For each input, input[1] must be a string to specify variable of the target.")
         end);
  inp2 ← py_getitem inp 2;
  '(val, data_type) ←
      (match inp2 with
       | PInt _ | PFloat _ => Ok (inp2, "fix")
       | PArr a =>
           match tshape a with
           | [] => Raise (IndexError "tuple index out of range")
           | n :: _ => if decide (n = run_length) then Ok (inp2, "iter")
                       else Ok (inp2, "fix")
           end
       | _ => Raise (ModelUseError
                "For each input, input[2] must be a numerical value to specify input values.")
       end);
  n ← py_len inp;
  ops ← (if decide (n = 4%nat) then
           inp3 ← py_getitem inp 3;
           match inp3 with
           | PStr s => Ok s
           | _ => Raise (TypeError "operation is not a string")
           end
         else Ok "+");
  Ok (assoc_append target (key, val, ops, data_type) formatted_inputs).

(** [Network._format_inputs(inputs, run_length)]. *)
Definition _format_inputs (env : Backend) (self : Network) (h : Heap)
    (inputs : PyVal) (run_length : nat) : result FormattedInputs :=
  _ ← (if py_is_seq inputs then Ok tt
       else Raise (ModelUseError "inputs must be a tuple/list."));
  n ← py_len inputs;
  inputs ← (if decide (0 < n)%nat then
              first ← py_getitem inputs 0;
              if negb (py_is_seq first) then
                match first with
                | PObj r =>
                    if is_BrainEnsemble (h r) then Ok (PList [inputs])
                    else Raise (ModelUseError "Unknown input structure.")
                | _ => Raise (ModelUseError "Unknown input structure.")
                end
              else Ok inputs
            else Ok inputs);
  let inps := match inputs with PTuple l | PList l => l | _ => [] end in
  _ ← for_each (fun _ inp => check_inp env inp) inps tt;
  for_each (format_inp self h run_length) inps [].

(** The state a run works on: the network and the objects, with two ghost
    fields: the timestamps passed to the step procedure so far, and the
    number of calls of [build] so far. *)
Record World : Type := mkWorld {
  net : Network;
  heap : Heap;
  trace : list Q;
  builds : nat
}.

Definition modify_net (f : Network -> Network) : StateErr World unit :=
  st_modify (fun w => mkWorld (f (net w)) (heap w) (trace w) (builds w)).
Definition modify_obj (r : ref) (f : Obj -> Obj) : StateErr World unit :=
  st_modify (fun w => mkWorld (net w) (heap_set (heap w) r (f (heap w r)))
                              (trace w) (builds w)).
Definition count_build : StateErr World unit :=
  st_modify (fun w => mkWorld (net w) (heap w) (trace w) (S (builds w))).

Definition set_mon (m : gmap string Tensor) (o : Obj) : Obj :=
  mkObj (is_NeuGroup o) (is_SynConn o) (is_BrainEnsemble o) (name o) m
        (runner_inputs o) (runner_attrs o).
Definition set_runner_attr (k : string) (v : PyVal) (o : Obj) : Obj :=
  mkObj (is_NeuGroup o) (is_SynConn o) (is_BrainEnsemble o) (name o) (mon o)
        (runner_inputs o) (<[k := v]> (runner_attrs o)).

(** The property [Network.dt]. *)
Definition dt (env : Backend) (self : Network) : Q := get_dt env.

(** The property [Network.ts]. *)
Definition ts (env : Backend) (self : Network) : result Tensor :=
  l ← np_arange (t_start self) (t_end self) (dt env self);
  Ok (np_array1 l).

(** [Network.build(run_length, inputs)]. *)
Definition build (env : Backend) (run_length : nat) (inputs : PyVal)
  : StateErr World StepFunc :=
  w ← st_get;
  format_inputs ← st_lift (_format_inputs env (net w) (heap w) inputs run_length);
  acc ←
      st_fold (fun (acc : list (string * ref) * list string) (obj : ref) =>
                 w ← st_get;
                 let o := heap w obj in
                 built ←
                     st_lift (obj_build env o (assoc_get (name o) format_inputs) run_length);
                 _ ← modify_obj obj (fun _ => built.1);
                 mret (acc.1 ++ [(name o, obj)], acc.2 ++ built.2))
              (_all_objects (net w))
              ([], ["# network step function"; "def step_func(_t_, _i_, _dt_):"]);
  st_lift (exec_step_func env acc.2 acc.1).

(** [build], counted in the ghost field [builds]. *)
Definition build_counted (env : Backend) (run_length : nat) (inputs : PyVal)
  : StateErr World StepFunc :=
  _ ← count_build;
  build env run_length inputs.

(** Repeat mode, one entry [(key, val, ops, data_type)] of the new inputs
    of the object [obj]. *)
Definition reset_input (obj : ref) (all_keys : list string) (inp : FormatInp)
  : StateErr World (list string) :=
  let '(key, val, ops, data_type) := inp in
  w ← st_get;
  let o := heap w obj in
  last ← st_lift (match assoc_get key (runner_inputs o) with
                  | Some x => Ok x
                  | None => Raise (KeyError "obj_inputs[key]")
                  end);
  _ ← (if decide (np_shape last.1 <> np_shape val) then
         st_raise (ModelUseError "The input shape should keep the same.")
       else mret tt);
  _ ← (if decide (last.2 <> ops) then
         st_raise (ModelUseError "The input operation should keep the same.")
       else mret tt);
  _ ← (if np_isscalar val then modify_obj obj (set_runner_attr (inp_attr key) val)
       else
         match runner_attrs o !! inp_attr key, val with
         | Some (PArr dst), PArr src =>
             v ← st_lift (jnp.broadcast_to src (tshape dst));
             modify_obj obj (set_runner_attr (inp_attr key) (PArr v))
         | Some _, _ => st_raise (TypeError "object does not support item assignment")
         | None, _ => st_raise (AttributeError "runner has no such input attribute")
         end);
  st_lift (list_remove key all_keys).

(** One call of the step procedure. *)
Definition call_step (f : option StepFunc) (t : Q) (i : nat) (dt : Q)
  : StateErr World unit :=
  match f with
  | None => st_raise (TypeError "'NoneType' object is not callable")
  | Some f =>
      fun w => let hr := f t i dt (heap w) in
               (mkWorld (net w) hr.1 (trace w ++ [t]) (builds w), hr.2)
  end.

(** [ts[i]]. *)
Definition ts_at (ts : list Q) (i : nat) : result Q :=
  match ts !! i with
  | Some t => Ok t
  | None => Raise (IndexError "index is out of bounds for axis 0")
  end.

(** The [duration] argument of [run]: an end time, or [(start, end)]. *)
Definition parse_duration (duration : PyVal) : result (PyVal * PyVal) :=
  match duration with
  | PInt _ | PFloat _ => Ok (PInt 0, duration)
  | PTuple [a; b] | PList [a; b] => Ok (a, b)
  | PTuple _ | PList _ =>
      Raise (AssertionError "Only support duration with the format of (start, end).")
  | _ => Raise (ValueError "Unknown duration type")
  end.

(** [end - start]. *)
Definition py_sub (end_ start : PyVal) : Q :=
  (default 0%Q (py_number end_) - default 0%Q (py_number start))%Q.

Definition duration_mismatch : exn :=
  ModelUseError "Each run in repeat mode must be done with the same duration".

(** [run], part "1. build", repeat mode: reset the inputs in place and
    zero the monitors; [w] is the state on entry of the reuse path. *)
Definition run_reset (env : Backend) (w : World) (run_length : nat)
    (inputs : PyVal) : StateErr World unit :=
  (* reset inputs *)
  formatted_inputs ←
    st_lift (_format_inputs env (net w) (heap w) inputs run_length);
  _ ← st_for formatted_inputs (fun target =>
         obj ← st_lift (getattr (net w) target.1);
         w' ← st_get;
         let all_keys := map fst (runner_inputs (heap w' obj)) in
         all_keys ← st_fold (reset_input obj) target.2 all_keys;
         if decide (0 < length all_keys)%nat then
           st_raise (ModelUseError "The inputs are not provided.")
         else mret tt);
  (* reset monitors *)
  st_for (_all_objects (net w)) (fun obj =>
    modify_obj obj (fun o => set_mon ((fun v => jnp.zeros (tshape v)) <$> mon o) o)).

(** [run], part "1. build", repeat mode with a stored step procedure:
    check the duration, then reset. *)
Definition run_reuse (env : Backend) (start end_ : PyVal) (run_length : nat)
    (inputs : PyVal) : StateErr World unit :=
  w ← st_get;
  (* check running duration *)
  _ ← (if negb (Qeq_bool (t_duration (net w)) (py_sub end_ start)) then
         st_raise duration_mismatch
       else mret tt);
  run_reset env w run_length inputs.

(** [run], part "1. build": build the step procedure, or reuse it. *)
Definition run_build (env : Backend) (start end_ : PyVal) (run_length : nat)
    (inputs : PyVal) : StateErr World unit :=
  w ← st_get;
  if negb (bool_decide (mode (net w) = "repeat"))
     || bool_decide (_step_func (net w) = None) then
    f ← build_counted env run_length inputs;
    _ ← modify_net (set_step_func (Some f));
    modify_net (set_t_duration (py_sub end_ start))
  else run_reuse env start end_ run_length inputs.

(** [run], part "2. run": one call of the step procedure per timestamp. *)
Definition run_loop (env : Backend) (ts : list Q) (report : bool)
    (report_percent : Q) : StateErr World unit :=
  w ← st_get;
  let run_length := length ts in
  let dt1 := dt env (net w) in
  let f := _step_func (net w) in
  if report then
    t0 ← st_lift (ts_at ts 0);
    _ ← call_step f t0 0 dt1;
    let report_gap := Qtrunc (inject_Z (Z.of_nat run_length) * report_percent) in
    st_for (seq 1 (run_length - 1)) (fun run_idx =>
      t ← st_lift (ts_at ts run_idx);
      _ ← call_step f t run_idx dt1;
      if (report_gap =? 0)%Z then st_raise ZeroDivisionError else mret tt)
  else
    st_for (seq 0 run_length) (fun run_idx =>
      t ← st_lift (ts_at ts run_idx);
      call_step f t run_idx dt1).

(** [run], part "monitor": every object's monitor gets [ts]. *)
Definition run_monitor (env : Backend) : StateErr World unit :=
  w ← st_get;
  st_for (_all_objects (net w)) (fun obj =>
    w' ← st_get;
    times ← st_lift (Network.ts env (net w'));
    modify_obj obj (fun o => set_mon (<["ts" := times]> (mon o)) o)).

(** [Network.run(duration, inputs, report, report_percent)]. *)
Definition run (env : Backend) (duration inputs : PyVal) (report : bool)
    (report_percent : Q) : StateErr World unit :=
  times ← st_lift (parse_duration duration);
  _ ← modify_net (set_times times.1 times.2);
  ts ← st_lift (np_arange times.1 times.2 (get_dt env));
  _ ← run_build env times.1 times.2 (length ts) inputs;
  _ ← run_loop env ts report report_percent;
  run_monitor env.

End Network.

(** A dict with string keys, in insertion order: [d[k] = v]. *)
Fixpoint dict_set {V} (k : string) (v : V) (d : list (string * V)) : list (string * V) :=
  match d with
  | [] => [(k, v)]
  | (k', v') :: d' =>
      if decide (k = k') then (k', v) :: d' else (k', v') :: dict_set k v d'
  end.

(** ** [IntegratorRunner] (time bookkeeping)

    A runner built with the default [args], [dyn_args], [fun_monitors] and
    [jit=False]; the progress bar has no effect on the state and is left
    out.  [target] is the integrator: from the variables, [t] and [dt] it
    returns the updated variables. *)

Module IntegratorRunner.

Record IntegratorRunner : Type := mk {
  dt : Q;
  target : list (string * Tensor) -> Q -> Q -> result (list (string * Tensor));
  monitors : list string;
  variables : list (string * Tensor);
  _start_t : option Q;
  mon_ts : option (list Q);
  mon_item_contents : list (string * list Tensor);
  (* ghost: the times passed to [_step] *)
  trace : list Q
}.

(** [IntegratorRunner._step(t)]. *)
Definition _step (t : Q) : StateErr IntegratorRunner unit :=
  fun self =>
    let self1 := mk (dt self) (target self) (monitors self) (variables self)
                    (_start_t self) (mon_ts self) (mon_item_contents self)
                    (trace self ++ [t]) in
    match target self (variables self) t (dt self) with
    | Ok vars' =>
        (mk (dt self) (target self) (monitors self) vars'
            (_start_t self) (mon_ts self) (mon_item_contents self)
            (trace self ++ [t]), Ok tt)
    | Raise e => (self1, Raise e)
    end.

(** The loop [_loop_func(times)] installed as [step_func] when [jit] is
    off: it returns the history of every monitored variable. *)
Definition step_func (times : list Q)
  : StateErr IntegratorRunner (list (string * list Tensor)) :=
  self0 ← st_get;
  st_fold (fun out_vars _t =>
             _ ← _step _t;
             self ← st_get;
             st_lift (for_each (fun acc k =>
                                  match assoc_get k (variables self) with
                                  | Some v => Ok (assoc_append k v acc)
                                  | None => Raise (KeyError "self.variables[k]")
                                  end)
                               (monitors self) out_vars))
          times
          (map (fun k => (k, [])) (monitors self0)).

(** [IntegratorRunner._post(times, returns)]. *)
Definition _post (times : list Q) (returns : list (string * list Tensor))
  : StateErr IntegratorRunner unit :=
  st_modify (fun self =>
    mk (dt self) (target self) (monitors self) (variables self) (_start_t self)
       (Some (map (fun t => (t + dt self)%Q) times))
       (foldl (fun contents kv => dict_set kv.1 kv.2 contents)
              (mon_item_contents self) returns)
       (trace self)).

(** [IntegratorRunner.__call__(duration, start_t)] (also [run]). *)
Definition __call__ (duration : Q) (start_t : option Q)
  : StateErr IntegratorRunner unit :=
  self ← st_get;
  let start_t := match start_t with
                 | Some t => t
                 | None => default 0%Q (_start_t self)
                 end in
  let end_t := (start_t + duration)%Q in
  times ← st_lift (np_arange (PFloat start_t) (PFloat end_t) (dt self));
  hists ← step_func times;
  _ ← _post times hists;
  st_modify (fun self =>
    mk (dt self) (target self) (monitors self) (variables self) (Some end_t)
       (mon_ts self) (mon_item_contents self) (trace self)).

End IntegratorRunner.

(** ** [NeuGroup.__call__] ([npbrain.core.neuron_group])

    The call is modelled up to the construction of [state] and
    [parameters]; the model-specific [create_func] and the monitors come
    after and are outside this module. *)

(** [k, v = x]: unpacking a value into two names. *)
Definition py_unpack2 (x : PyVal) : result (PyVal * PyVal) :=
  match x with
  | PStr s =>
      match s with
      | String a (String b EmptyString) =>
          Ok (PStr (String a EmptyString), PStr (String b EmptyString))
      | String _ (String _ (String _ _)) =>
          Raise (ValueError "too many values to unpack (expected 2)")
      | _ => Raise (ValueError "not enough values to unpack (expected 2)")
      end
  | PTuple l | PList l =>
      match l with
      | [a; b] => Ok (a, b)
      | _ :: _ :: _ :: _ => Raise (ValueError "too many values to unpack (expected 2)")
      | _ => Raise (ValueError "not enough values to unpack (expected 2)")
      end
  | PArr a =>
      match tshape a with
      | [2%nat] => Ok (PFloat (default 0%Q (tvals a !! 0%nat)),
                       PFloat (default 0%Q (tvals a !! 1%nat)))
      | [] => Raise (TypeError "iteration over a 0-d array")
      | _ => Raise (ValueError "wrong number of values to unpack (expected 2)")
      end
  | _ => Raise (TypeError "cannot unpack non-iterable object")
  end.

(** [a == b] on hashable values, as dict keys are compared. *)
Fixpoint py_eqb (a b : PyVal) : bool :=
  match a, b with
  | PNone, PNone => true
  | PStr s, PStr t => bool_decide (s = t)
  | PInt x, PInt y => (x =? y)%Z
  | PInt x, PFloat y => Qeq_bool (inject_Z x) y
  | PFloat x, PInt y => Qeq_bool x (inject_Z y)
  | PFloat x, PFloat y => Qeq_bool x y
  | PObj r, PObj r' => bool_decide (r = r')
  | PTuple l, PTuple l' =>
      (fix go (l l' : list PyVal) : bool :=
         match l, l' with
         | [], [] => true
         | x :: l, y :: l' => py_eqb x y && go l l'
         | _, _ => false
         end) l l'
  | _, _ => false
  end.

(** A dict with arbitrary hashable keys: [d[k] = v]. *)
Fixpoint pydict_set (k v : PyVal) (d : list (PyVal * PyVal)) : list (PyVal * PyVal) :=
  match d with
  | [] => [(k, v)]
  | (k', v') :: d' =>
      if py_eqb k k' then (k', v) :: d' else (k', v') :: pydict_set k v d'
  end.

(** [bnp.size(v)]. *)
Definition np_size (v : PyVal) : nat :=
  match v with
  | PArr a => prod_shape (tshape a)
  | PTuple l | PList l => length l
  | _ => 1%nat
  end.

(** [bnp.ones(num) * a] for an array [a]: the shapes [(num,)] and
    [a.shape] are broadcast against each other. *)
Definition ones_times (num : nat) (a : Tensor) : result Tensor :=
  match reverse (tshape a) with
  | [] => jnp.broadcast_to a [num]
  | d :: outer =>
      if decide (d = num \/ num = 1%nat) then Ok a
      else if decide (d = 1%nat) then jnp.broadcast_to a (reverse (num :: outer))
      else Raise (ValueError "operands could not be broadcast together")
  end.

Module NeuGroup.

(** The attributes of the group read by [__call__]; [is_numba_bk] is
    [profile.is_numba_bk()], [str_to_float] is the conversion of a string
    assigned into a float array (NumPy parses it, or fails). *)
Record NeuGroup : Type := mk {
  name : string;
  variables : list (string * PyVal);
  parameters : list (string * PyVal);
  is_numba_bk : bool;
  str_to_float : string -> option Q
}.

(** What [__call__] leaves on the group before it calls the model's
    [create_func]: [num], [geometry], [state] and [P]. *)
Record Called : Type := mkCalled {
  num : Z;
  geometry : PyVal * PyVal;
  state : list (string * Tensor);
  P : list (PyVal * PyVal)
}.

(** [geometry] handling and [num = int(prod(geometry))]. *)
Definition parse_geometry (g : PyVal) : result (PyVal * PyVal * Z) :=
  geometry ← (match g with
              | PInt z => Ok (PInt 1, PInt z)
              | PFloat q => Ok (PInt 1, PInt (Qtrunc q))
              | PTuple l | PList l =>
                  match l with
                  | [w] => Ok (PInt 1, w)
                  | [h; w] => Ok (h, w)
                  | _ => Raise (ValueError "Do not support 3+ dimensional networks.")
                  end
              | _ => Raise (ValueError "")
              end);
  match py_number geometry.1, py_number geometry.2 with
  | Some h, Some w => Ok (geometry, Qtrunc (h * w))
  | _, _ => Raise (TypeError "cannot multiply the entries of geometry")
  end.

(** The loop [for k, v in vars_init: ...]: iterating a dict yields its
    keys, and each key is unpacked into [k, v]. *)
Definition override_vars (self : NeuGroup) (vars_init : list (PyVal * PyVal))
  : result (list (string * PyVal)) :=
  for_each (fun variables (item : PyVal * PyVal) =>
              '(k, v) ← py_unpack2 item.1;
              match k with
              | PStr k =>
                  if decide (is_Some (assoc_get k (NeuGroup.variables self)))
                  then Ok (dict_set k v variables)
                  else Raise (KeyError "variable is not defined in the group")
              | _ => Raise (KeyError "variable is not defined in the group")
              end)
           vars_init (NeuGroup.variables self).

(** [bnp.ones(num) * v]. *)
Definition ones_mul (num : Z) (v : PyVal) : result Tensor :=
  if (num <? 0)%Z then Raise (ValueError "negative dimensions are not allowed")
  else
    let n := Z.to_nat num in
    match v with
    | PInt z => Ok (mkTensor [n] (replicate n (inject_Z z)))
    | PFloat q => Ok (mkTensor [n] (replicate n q))
    | PArr a => ones_times n a
    | _ => Raise (TypeError "ufunc 'multiply' did not contain a loop for these types")
    end.

(** The row assignment [_state_mat[i] = v] followed by the read of the
    row. *)
Definition row_assign (self : NeuGroup) (num : Z) (v : PyVal) : result Tensor :=
  if (num <? 0)%Z then Raise (ValueError "negative dimensions are not allowed")
  else
    let n := Z.to_nat num in
    match v with
    | PInt z => Ok (mkTensor [n] (replicate n (inject_Z z)))
    | PFloat q => Ok (mkTensor [n] (replicate n q))
    | PArr a => jnp.broadcast_to a [n]
    | PStr s =>
        match str_to_float self s with
        | Some q => Ok (mkTensor [n] (replicate n q))
        | None => Raise (ValueError "could not convert string to float")
        end
    | _ => Raise (TypeError "float() argument must be a string or a number")
    end.

(** The loop [for k, v in pars_update: ...]. *)
Definition override_pars (self : NeuGroup) (num : Z) (pars_update : list (PyVal * PyVal))
  : result (list (PyVal * PyVal)) :=
  for_each (fun parameters (item : PyVal * PyVal) =>
              '(k, v) ← py_unpack2 item.1;
              let val_size := np_size v in
              if decide (val_size <> 1%nat /\ Z.of_nat val_size <> num) then
                Raise (ValueError "The size of parameter is wrong")
              else Ok (pydict_set k v parameters))
           pars_update
           (map (fun kv : string * PyVal => (PStr kv.1, kv.2)) (NeuGroup.parameters self)).

(** The typed dict [P] of the numba backend: string keys, and values that
    are all arrays of [num] floats or all floats. *)
Definition numba_P (num : Z) (parameters : list (PyVal * PyVal))
  : result (list (PyVal * PyVal)) :=
  let max_size := foldr Nat.max 0%nat (map (fun kv => np_size kv.2) parameters) in
  for_each (fun P (kv : PyVal * PyVal) =>
              _ ← (if py_is_str kv.1 then Ok tt
                   else Raise (TypeError "typed dict key must be a string"));
              if decide (1 < max_size)%nat then
                x ← ones_mul num kv.2; Ok (P ++ [(kv.1, PArr x)])
              else
                match py_number kv.2 with
                | Some q => Ok (P ++ [(kv.1, PFloat q)])
                | None => Raise (TypeError "typed dict value must be a float")
                end)
           parameters [].

(** [NeuGroup.__call__(geometry, monitors, vars_init, pars_update)] up to
    the call of [create_func]; a [vars_init] or [pars_update] that is not a
    dict is [None] here. *)
Definition __call__ (self : NeuGroup) (geometry : PyVal)
    (vars_init pars_update : option (list (PyVal * PyVal))) : result Called :=
  '(geometry, num) ← parse_geometry geometry;
  vars_init ← (match vars_init with
               | Some d => Ok d
               | None => Raise (AssertionError "vars_init must be a dict.")
               end);
  variables ← override_vars self vars_init;
  state ← for_each (fun st (kv : string * PyVal) =>
                      x ← (if is_numba_bk self then row_assign self num kv.2
                           else ones_mul num kv.2);
                      Ok (st ++ [(kv.1, x)]))
                   variables [];
  pars_update ← (match pars_update with
                 | Some d => Ok d
                 | None => Raise (AssertionError "pars_update must be a dict.")
                 end);
  parameters ← override_pars self num pars_update;
  P ← (if is_numba_bk self then numba_P num parameters else Ok parameters);
  Ok (mkCalled num geometry state P).

End NeuGroup.

(** * Specification-level definitions *)

(** ** The ring discipline shared by both buffers

    [ring_run] is the write-then-advance recurrence on its own: write the
    value at the index, then advance the index modulo the capacity. *)

Fixpoint ring_run {A : Type} (C : Z) (data : list A) (i : Z) (vs : list A)
  : list A * Z :=
  match vs with
  | [] => (data, i)
  | v :: vs' => ring_run C (<[Z.to_nat i := v]> data) ((i + 1) mod C)%Z vs'
  end.

(** What the ring looks like after the values [vs] were written, starting
    at write index [i0] with contents [data0]: [data'], [idx'] are the final
    contents and write index, [log] the final ghost log. *)
Record ring_state_after {A : Type} (C i0 : Z) (data0 vs data' : list A)
    (idx' : Z) (log : list nat) : Prop := {
  rsa_idx : idx' = ((i0 + Z.of_nat (length vs)) mod C)%Z;
  rsa_last_slot : ((idx' - 1) mod C = (i0 + Z.of_nat (length vs) - 1) mod C)%Z;
  rsa_last : data' !! Z.to_nat ((idx' - 1) mod C) = last vs;
  rsa_last_log :
    log !! Z.to_nat ((idx' - 1) mod C) = Some (length vs);
  rsa_log_written :
    forall s w, log !! s = Some (S w) -> data' !! s = vs !! w;
  rsa_log_initial :
    forall s, log !! s = Some 0%nat -> data' !! s = data0 !! s;
  rsa_oldest_exists :
    exists s st, log !! s = Some st /\
      Z.of_nat (slot_age (length vs) st) = Z.min (Z.of_nat (length vs)) (C - 1);
  rsa_oldest_bound :
    forall s st, log !! s = Some st ->
      (Z.of_nat (slot_age (length vs) st) <= Z.min (Z.of_nat (length vs)) (C - 1))%Z;
  rsa_write_slot :
    data' !! Z.to_nat idx' =
      if (Z.of_nat (length vs) <? C)%Z then data0 !! Z.to_nat idx'
      else vs !! Z.to_nat (Z.of_nat (length vs) - C);
  rsa_write_slot_age :
    exists st, log !! Z.to_nat idx' = Some st /\
      Z.of_nat (slot_age (length vs) st) = Z.min (Z.of_nat (length vs)) (C - 1)
}.

(** A buffer of capacity 3 and two updates, to which the theorem applies. *)
Definition ring_example : LengthDelay.LengthDelay :=
  LengthDelay.mk 3 [] 0 (replicate 3 (mkTensor [] [0%Q])).

(** A bounds error of the time-based read. *)
Definition bounds_error {A} (r : result A) : Prop :=
  r = Raise TimeDelay._check_time1 \/ r = Raise TimeDelay._check_time2.

(** The before-start rule installed by [__init__] can only fail in the
    broadcast of the user function's value. *)
Definition before_raises_shape_only (b : TimeDelay.TimeDelay) : Prop :=
  forall t e, TimeDelay._before_t0 b t = Raise e ->
              e = ValueError "Incompatible shapes for broadcasting".

(** A time-based buffer of capacity 2. *)
Definition time_example : TimeDelay.TimeDelay :=
  TimeDelay.mk [] 0 1 1 2 _INTERP_LINEAR 0 0
    [mkTensor [] [3%Q]; mkTensor [] [4%Q]] _DATA_BEFORE
    (fun _ => Ok (jnp.zeros [])).

(** ** Example objects for the network *)

Definition ex_neu : Obj := mkObj true false true "neu" ∅ [] ∅.
Definition ex_syn : Obj := mkObj false true true "syn" ∅ [] ∅.
Definition ex_other : Obj := mkObj false false false "thing" ∅ [] ∅.

(** Object 0 is a neuron group, object 1 a synapse connection, every other
    reference an object of neither class. *)
Definition ex_heap : Heap :=
  fun r => match r with 0%nat => ex_neu | 1%nat => ex_syn | _ => ex_other end.

(** A step procedure that records the current time in the monitor entry
    [v] of object 0. *)
Definition ex_step : StepFunc :=
  fun t i dt h =>
    (heap_set h 0%nat
       (Network.set_mon (<["v" := mkTensor [] [t]]> (mon (h 0%nat))) (h 0%nat)),
     Ok tt).

(** A backend with time step 1 whose build always yields [ex_step]. *)
Definition ex_env : Backend :=
  mkBackend 1 ["-"; "+"; "x"; "*"; "/"; "="]
    (fun o _ _ => Ok (o, [])) (fun _ _ => Ok ex_step).

(** The network of objects 0 and 1, in the given mode, before any run. *)
Definition ex_net (mode : string) : Network.Network :=
  Network.mk [0%nat] [1%nat] [0%nat; 1%nat]
    (<["syn" := 1%nat]> (<["neu" := 0%nat]> ∅))
    (<["syn" := 1%nat]> (<["neu" := 0%nat]> ∅))
    (PFloat 0) (PFloat 0) 0 mode None.

Definition ex_world (mode : string) : Network.World :=
  Network.mkWorld (ex_net mode) ex_heap [] 0.

(** ** Safety of computations *)

(** [res_safe E r]: an exception raised by [r] satisfies [E]. *)
Definition res_safe {A} (E : exn -> Prop) (r : result A) : Prop :=
  forall e, r = Raise e -> E e.

(** [st_safe I E m]: started in a state satisfying [I], the computation [m]
    ends in a state satisfying [I], and an exception it raises satisfies
    [E]. *)
Definition st_safe {S A} (I : S -> Prop) (E : exn -> Prop) (m : StateErr S A)
  : Prop :=
  forall s, I s -> I (m s).1 /\ forall e, (m s).2 = Raise e -> E e.

(** ** Invariants and exception classes used for [Network.run] *)

(** The network and the build counter are the given ones. *)
Definition net_is (n0 : Network.Network) (b0 : nat) (w : Network.World) : Prop :=
  Network.net w = n0 /\ Network.builds w = b0.

(** The trace, the registered objects and the stored times are the given
    ones. *)
Definition run_frame (tr : list Q) (objs : list ref) (a b : PyVal)
    (w : Network.World) : Prop :=
  Network.trace w = tr /\
  Network._all_objects (Network.net w) = objs /\
  Network.t_start (Network.net w) = a /\
  Network.t_end (Network.net w) = b.

Definition not_duration_mismatch (e : exn) : Prop :=
  e <> Network.duration_mismatch.

Definition any_exn (e : exn) : Prop := True.

(** The example network in repeat mode after a first run of duration 5. *)
Definition ex_world_built : Network.World :=
  (Network.run ex_env (PInt 5) (PTuple []) false (1 # 10) (ex_world "repeat")).1.

(** A runner with time step 1 whose integrator leaves the variables as they
    are. *)
Definition ex_runner : IntegratorRunner.IntegratorRunner :=
  IntegratorRunner.mk 1 (fun vars _ _ => Ok vars) [] [] None None [] [].

(** A neuron group with the variable [V] and the parameter [tau], on the
    NumPy backend. *)
Definition ex_group : NeuGroup.NeuGroup :=
  NeuGroup.mk "lif" [("V", PFloat 0)] [("tau", PFloat 10)] false (fun _ => None).

(** The exceptions of a failed unpacking into two names. *)
Definition unpack_error (e : exn) : Prop :=
  e = ValueError "not enough values to unpack (expected 2)" \/
  e = ValueError "too many values to unpack (expected 2)".

(** ** Further specification-level definitions *)

(** Every slot of a ring has the shape [s]. *)
Definition ring_shaped (s : list nat) (data : list Tensor) : Prop :=
  Forall (fun x => tshape x = s) data.

(** Row [j] of an array whose leading axis indexes rows of shape [s]. *)
Definition tensor_row (s : list nat) (d : Tensor) (j : nat) : Tensor :=
  mkTensor s (take (prod_shape s) (drop (j * prod_shape s) (tvals d))).

(** The invariant of a time-based buffer: well-formed ring, slots of the
    buffer's shape, and a before-start rule that yields that shape. *)
Record TimeDelay_inv (b : TimeDelay.TimeDelay) : Prop := {
  tdi_wf : TimeDelay.wf b;
  tdi_shaped : ring_shaped (TimeDelay.shape b) (TimeDelay.data b);
  tdi_before : forall t r, TimeDelay._before_t0 b t = Ok r ->
                           tshape r = TimeDelay.shape b
}.

(** The invariant of a length-based buffer. *)
Record LengthDelay_inv (b : LengthDelay.LengthDelay) : Prop := {
  ldi_wf : LengthDelay.wf b;
  ldi_shaped : ring_shaped (LengthDelay.shape b) (LengthDelay.data b)
}.

(** [v] lies between [f0] and [f1], in either order. *)
Definition Qbetween (f0 f1 v : Q) : Prop :=
  (f0 <= v /\ v <= f1)%Q \/ (f1 <= v /\ v <= f0)%Q.

(** Every component of [r] lies between the components of [x] and [y] at
    the same position. *)
Definition tensor_between (x y r : Tensor) : Prop :=
  forall (j : nat) (v : Q), tvals r !! j = Some v ->
    exists f0 f1, tvals x !! j = Some f0 /\ tvals y !! j = Some f1 /\
                  Qbetween f0 f1 v.

(** A two-slot scalar buffer in rounding mode. *)
Definition round_example : TimeDelay.TimeDelay :=
  TimeDelay.mk [] 0 1 1 2 _INTERP_ROUND 0 0
    [mkTensor [] [3%Q]; mkTensor [] [4%Q]] _DATA_BEFORE
    (fun _ => Ok (jnp.zeros [])).

(** ** Registration in a network *)

(** The objects one call of [add] registers, in order, each with the
    keyword it was given, if any. *)
Definition add_items (args : list ref) (kwargs : list (string * ref))
  : list (ref * option string) :=
  map (fun r => (r, None)) args ++ map (fun kv => (kv.2, Some kv.1)) kwargs.

(** The registry key of an item: its keyword, else the object's own name. *)
Definition item_key (h : Heap) (it : ref * option string) : string :=
  default (name (h it.1)) it.2.

(** The object is of one of the two classes a network accepts. *)
Definition registrable (h : Heap) (r : ref) : bool :=
  is_NeuGroup (h r) || is_SynConn (h r).

(** Everything the network lists or names is among its objects. *)
Record registry_closed (n : Network.Network) : Prop := {
  rc_neu : forall r, r ∈ Network._all_neu_groups n -> r ∈ Network._all_objects n;
  rc_syn : forall r, r ∈ Network._all_syn_conns n -> r ∈ Network._all_objects n;
  rc_reg : forall k r, Network._objsets n !! k = Some r -> r ∈ Network._all_objects n;
  rc_attr : forall k r, Network.attrs n !! k = Some r -> r ∈ Network._all_objects n
}.

(** Python's own double-underscore attribute names. *)
Definition is_dunder (s : string) : bool := String.prefix "__" s.

(** A name that [setattr] on a network either binds as a new instance
    attribute or, for a property, rejects: none of the fields and methods
    the network uses itself, no double-underscore name, and not [self],
    which as a keyword would clash with the methods' own parameter. *)
Definition free_name (s : string) : bool :=
  bool_decide (s ∉ Network.own_names) && negb (is_dunder s)
  && negb (bool_decide (s = "self")).

(** Both names [_add_obj] binds for an item are free. *)
Definition free_item (h : Heap) (it : ref * option string) : Prop :=
  free_name (item_key h it) = true /\ free_name (name (h it.1)) = true.

(** Neither name [_add_obj] binds for an item is a property. *)
Definition settable_item (h : Heap) (it : ref * option string) : Prop :=
  (item_key h it ∉ Network.property_names) /\
  (name (h it.1) ∉ Network.property_names).

(** ** Grouping of formatted inputs *)

(** The entries addressed to target [T], in the order given. *)
Definition group_of (T : string) (entries : list (string * FormatInp))
  : list FormatInp :=
  map snd (List.filter (fun te => bool_decide (te.1 = T)) entries).

(** The distinct elements of [l] not in [seen], in order of first
    occurrence: the key order of a dict filled in the order of [l]. *)
Fixpoint first_occ (seen l : list string) : list string :=
  match l with
  | [] => []
  | x :: l' => if decide (x ∈ seen) then first_occ seen l'
               else x :: first_occ (x :: seen) l'
  end.

(** An object with every monitor entry zeroed in place. *)
Definition zero_mon (o : Obj) : Obj :=
  Network.set_mon ((fun v => jnp.zeros (tshape v)) <$> mon o) o.

(** The key of a formatted input entry. *)
Definition inp_key (e : FormatInp) : string := e.1.1.1.

(** The example network in repeat mode with a stored step procedure, whose
    neuron group was built with one input, on its variable [inp]. *)
Definition ex_world_inputs : Network.World :=
  Network.mkWorld
    (Network.set_step_func (Some ex_step) (ex_net "repeat"))
    (heap_set ex_heap 0%nat
       (mkObj true false true "neu" ∅ [("inp", (PFloat 1, "+"))]
              (<["inp_inp" := PFloat 1]> ∅)))
    [] 1.

(** The network before any object is added. *)
Definition empty_network (mode : string) : Network.Network :=
  Network.mk [] [] [] ∅ ∅ (PFloat 0) (PFloat 0) 0 mode None.

(** ** The integrator runner *)

(** The variables after each step of a schedule: the integrator applied
    step after step, as long as it does not raise. *)
Fixpoint target_states
    (target : list (string * Tensor) -> Q -> Q -> result (list (string * Tensor)))
    (dt : Q) (vars : list (string * Tensor)) (times : list Q)
  : result (list (list (string * Tensor))) :=
  match times with
  | [] => Ok []
  | t :: times' =>
      vars' ← target vars t dt;
      rest ← target_states target dt vars' times';
      Ok (vars' :: rest)
  end.

(** What a run leaves untouched in a runner. *)
Definition runner_static (r r' : IntegratorRunner.IntegratorRunner) : Prop :=
  IntegratorRunner.dt r' = IntegratorRunner.dt r /\
  IntegratorRunner.target r' = IntegratorRunner.target r /\
  IntegratorRunner.monitors r' = IntegratorRunner.monitors r.

(** A runner that integrates [x' = 1] with time step 1 and monitors [x]. *)
Definition ex_runner_x : IntegratorRunner.IntegratorRunner :=
  IntegratorRunner.mk 1
    (fun vars t dt =>
       Ok (map (fun kv : string * Tensor =>
                  (kv.1, mkTensor (tshape kv.2) (map (fun v => (v + dt)%Q) (tvals kv.2))))
               vars))
    ["x"] [("x", mkTensor [] [0%Q])] None None [] [].

(** ** Neuron groups *)

(** Some variable holds a string. *)
Definition holds_string (vars : list (string * PyVal)) : Prop :=
  exists k c, assoc_get k vars = Some (PStr c).

(** The value of a numeric variable or parameter. *)
Definition is_number (v : PyVal) : Prop := is_Some (py_number v).

(** ** Signals that are affine in time *)

(** The sample at time [tau] of the signal whose component [i] is
    [a_i * tau + c_i]. *)
Definition affine_sample (s : list nat) (coeffs : list (Q * Q)) (tau : Q)
  : Tensor :=
  mkTensor s (map (fun ac : Q * Q => (ac.1 * tau + ac.2)%Q) coeffs).

(** Equality of tensors up to the representation of the rationals. *)
Definition tensor_Qeq (x y : Tensor) : Prop :=
  tshape x = tshape y /\ Forall2 Qeq (tvals x) (tvals y).
(** * Properties *)

(** ** Arithmetic helpers *)

Lemma Qltb_lt (x y : Q) : Qltb x y = true <-> (x < y)%Q.
Proof.
  unfold Qltb. rewrite negb_true_iff. split.
  - intros H. apply Qnot_le_lt. intros Hle.
    apply Qle_bool_iff in Hle. congruence.
  - intros H. destruct (Qle_bool y x) eqn:E; [|reflexivity].
    apply Qle_bool_iff in E. exfalso. exact (Qlt_not_le _ _ H E).
Qed.

Lemma Qltb_ge (x y : Q) : Qltb x y = false <-> (y <= x)%Q.
Proof.
  unfold Qltb. rewrite negb_false_iff. apply Qle_bool_iff.
Qed.

Lemma slot_mod_shift (C i x : Z) :
  (((i + 1) mod C + x) mod C = (i + (x + 1)) mod C)%Z.
Proof.
  rewrite Zplus_mod_idemp_l. f_equal. lia.
Qed.

Lemma slot_mod_ne (C i d : Z) :
  (0 <= i < C)%Z -> (- C < d < 0)%Z -> ((i + d) mod C <> i)%Z.
Proof.
  intros Hi Hd Heq.
  pose proof (Z.div_mod (i + d) C ltac:(lia)) as Hdm.
  rewrite Heq in Hdm.
  set (q := ((i + d) / C)%Z) in *.
  destruct (Z_le_gt_dec q (-1)) as [Hq|Hq]; [|destruct (Z_le_gt_dec 0 q)]; nia.
Qed.

Lemma slot_mod_range (C x : Z) : (0 < C)%Z -> (0 <= x mod C < C)%Z.
Proof. intros. apply Z.mod_pos_bound. lia. Qed.

(** After the values [vs] went through the ring, the slot [k] places
    behind the last written one holds the value written [k] calls ago, as
    long as [k] calls were made; the other slots are untouched. *)
Lemma ring_run_spec {A : Type} (C : Z) (vs : list A) :
  forall (data : list A) (i0 : Z),
    (0 < C)%Z -> Z.of_nat (length data) = C -> (0 <= i0 < C)%Z ->
    let n := Z.of_nat (length vs) in
    let r := ring_run C data i0 vs in
    r.2 = ((i0 + n) mod C)%Z /\
    length r.1 = length data /\
    forall k : Z, (0 <= k < C)%Z ->
      r.1 !! Z.to_nat ((i0 + n - 1 - k) mod C) =
      if (k <? n)%Z then vs !! Z.to_nat (n - 1 - k)
      else data !! Z.to_nat ((i0 + n - 1 - k) mod C).
Proof.
  induction vs as [|v vs' IH]; intros data i0 HC Hlen Hi0; cbn zeta.
  - cbn [ring_run length fst snd]. split; [|split].
    + change (Z.of_nat 0) with 0%Z. rewrite Z.add_0_r.
      symmetry. apply Z.mod_small. lia.
    + reflexivity.
    + intros k Hk. change (Z.of_nat 0) with 0%Z.
      destruct (k <? 0)%Z eqn:E; [apply Z.ltb_lt in E; lia|reflexivity].
  - cbn [ring_run].
    assert (Hlen1 : Z.of_nat (length (<[Z.to_nat i0 := v]> data)) = C)
      by (rewrite length_insert; exact Hlen).
    assert (Hi1 : (0 <= (i0 + 1) mod C < C)%Z) by (apply slot_mod_range; lia).
    destruct (IH (<[Z.to_nat i0 := v]> data) ((i0 + 1) mod C)%Z HC Hlen1 Hi1)
      as (Hidx & Hl & Hk).
    set (n' := Z.of_nat (length vs')) in *.
    assert (Hn : Z.of_nat (length (v :: vs')) = (n' + 1)%Z)
      by (cbn [length]; lia).
    rewrite Hn. split; [|split].
    + rewrite Hidx, slot_mod_shift. f_equal; lia.
    + rewrite Hl. apply length_insert.
    + intros k Hkr. specialize (Hk k Hkr).
      replace ((i0 + (n' + 1) - 1 - k) mod C)%Z
        with (((i0 + 1) mod C + n' - 1 - k) mod C)%Z.
      2:{ replace ((i0 + 1) mod C + n' - 1 - k)%Z
            with ((i0 + 1) mod C + (n' - 1 - k))%Z by lia.
          rewrite slot_mod_shift. f_equal; lia. }
      rewrite Hk.
      destruct (k <? n')%Z eqn:E1.
      * apply Z.ltb_lt in E1.
        destruct (k <? n' + 1)%Z eqn:E2; [|apply Z.ltb_ge in E2; lia].
        replace (Z.to_nat (n' + 1 - 1 - k)) with (S (Z.to_nat (n' - 1 - k)))
          by lia.
        reflexivity.
      * apply Z.ltb_ge in E1.
        replace (((i0 + 1) mod C + n' - 1 - k) mod C)%Z
          with ((i0 + (n' - k)) mod C)%Z.
        2:{ replace ((i0 + 1) mod C + n' - 1 - k)%Z
              with ((i0 + 1) mod C + (n' - 1 - k))%Z by lia.
            rewrite slot_mod_shift. f_equal; lia. }
        destruct (k <? n' + 1)%Z eqn:E2.
        -- apply Z.ltb_lt in E2. assert (k = n') by lia. subst k.
           replace (n' - n')%Z with 0%Z by lia. rewrite Z.add_0_r.
           rewrite Z.mod_small by lia.
           replace (Z.to_nat (n' + 1 - 1 - n')) with 0%nat by lia.
           cbn [lookup list_lookup]. apply list_lookup_insert_eq. lia.
        -- apply Z.ltb_ge in E2.
           apply list_lookup_insert_ne.
           assert (Hne : ((i0 + (n' - k)) mod C <> i0)%Z)
             by (apply slot_mod_ne; lia).
           pose proof (slot_mod_range C (i0 + (n' - k)) HC). lia.
Qed.


Lemma slot_inverse (C x s : Z) :
  (0 <= s < C)%Z -> ((x - (x - s) mod C) mod C = s)%Z.
Proof.
  intros Hs. rewrite Zminus_mod_idemp_r.
  replace (x - (x - s))%Z with s by lia. apply Z.mod_small. lia.
Qed.


Lemma ring_run_state_after {A : Type} (C i0 : Z) (data0 vs : list A) :
  (0 < C)%Z -> Z.of_nat (length data0) = C -> (0 <= i0 < C)%Z -> vs <> [] ->
  ring_state_after C i0 data0 vs
    (ring_run C data0 i0 vs).1 (ring_run C data0 i0 vs).2
    (ring_run C (replicate (Z.to_nat C) 0%nat) i0 (seq 1 (length vs))).1.
Proof.
  intros HC Hlen Hi0 Hne.
  assert (Hlen0 : Z.of_nat (length (replicate (Z.to_nat C) 0%nat)) = C)
    by (rewrite length_replicate; lia).
  destruct (ring_run_spec C vs data0 i0 HC Hlen Hi0) as (Hidx & Hl & Hd).
  destruct (ring_run_spec C (seq 1 (length vs)) _ i0 HC Hlen0 Hi0)
    as (_ & Hll & Hlog).
  rewrite length_seq in Hlog.
  set (n := Z.of_nat (length vs)) in *.
  set (data' := (ring_run C data0 i0 vs).1) in *.
  set (log := (ring_run C (replicate (Z.to_nat C) 0%nat) i0 (seq 1 (length vs))).1) in *.
  assert (Hn : (1 <= n)%Z) by (destruct vs; [congruence|subst n; cbn [length]; lia]).
  assert (Hslot : (((ring_run C data0 i0 vs).2 - 1) mod C = (i0 + n - 1) mod C)%Z).
  { rewrite Hidx. rewrite Zminus_mod_idemp_l. reflexivity. }
  assert (Hwrite : ((i0 + n - 1 - (C - 1)) mod C = (i0 + n) mod C)%Z).
  { replace (i0 + n - 1 - (C - 1))%Z with (i0 + n + (-1) * C)%Z by lia.
    apply Z.mod_add. lia. }
  (* every slot, seen from the last written one *)
  assert (Hview : forall s : nat, (Z.of_nat s < C)%Z ->
            exists k, (0 <= k < C)%Z /\
              log !! s = (if (k <? n)%Z then Some (S (Z.to_nat (n - 1 - k))) else Some 0%nat) /\
              data' !! s = (if (k <? n)%Z then vs !! Z.to_nat (n - 1 - k) else data0 !! s)).
  { intros s Hs. exists ((i0 + n - 1 - Z.of_nat s) mod C)%Z.
    assert (Hk : (0 <= (i0 + n - 1 - Z.of_nat s) mod C < C)%Z)
      by (apply slot_mod_range; lia).
    split; [exact Hk|].
    pose proof (Hlog _ Hk) as H1. pose proof (Hd _ Hk) as H2.
    rewrite slot_inverse in H1, H2 by lia. rewrite Nat2Z.id in H1, H2.
    rewrite H1, H2. destruct (_ <? n)%Z eqn:E; split; try reflexivity.
    - apply Z.ltb_lt in E. rewrite lookup_seq_lt by lia. reflexivity.
    - apply lookup_replicate_2. lia. }
  assert (Hlenlog : forall s st, log !! s = Some st -> (Z.of_nat s < C)%Z).
  { intros s st H. apply lookup_lt_Some in H. rewrite Hll, length_replicate in H. lia. }
  split.
  - exact Hidx.
  - exact Hslot.
  - rewrite Hslot. specialize (Hd 0%Z ltac:(lia)).
    rewrite Z.sub_0_r in Hd. rewrite Hd.
    destruct (0 <? n)%Z eqn:E; [|apply Z.ltb_ge in E; lia].
    rewrite last_lookup. f_equal. lia.
  - rewrite Hslot. specialize (Hlog 0%Z ltac:(lia)).
    rewrite Z.sub_0_r in Hlog. rewrite Hlog.
    destruct (0 <? n)%Z eqn:E; [|apply Z.ltb_ge in E; lia].
    rewrite lookup_seq_lt by lia. f_equal. lia.
  - intros s w Hs. destruct (Hview s (Hlenlog _ _ Hs)) as (k & Hk & Hl1 & Hd1).
    rewrite Hd1. rewrite Hl1 in Hs. destruct (k <? n)%Z; [|congruence].
    injection Hs as <-. reflexivity.
  - intros s Hs. destruct (Hview s (Hlenlog _ _ Hs)) as (k & Hk & Hl1 & Hd1).
    rewrite Hd1. rewrite Hl1 in Hs. destruct (k <? n)%Z; [congruence|reflexivity].
  - destruct (Z_lt_le_dec n C) as [Hlt|Hge].
    + (* the slot at the write index still holds its initial content *)
      exists (Z.to_nat ((i0 + n - 1 - n) mod C)), 0%nat.
      specialize (Hlog n ltac:(lia)). rewrite Z.ltb_irrefl in Hlog.
      rewrite Hlog. split.
      * apply lookup_replicate_2.
        pose proof (slot_mod_range C (i0 + n - 1 - n) HC). lia.
      * unfold slot_age. lia.
    + exists (Z.to_nat ((i0 + n - 1 - (C - 1)) mod C)),
             (S (Z.to_nat (n - 1 - (C - 1)))).
      specialize (Hlog (C - 1)%Z ltac:(lia)).
      destruct (C - 1 <? n)%Z eqn:E; [|apply Z.ltb_ge in E; lia].
      rewrite Hlog. split.
      * rewrite lookup_seq_lt by lia. f_equal.
      * unfold slot_age. lia.
  - intros s st Hs. destruct (Hview s (Hlenlog _ _ Hs)) as (k & Hk & Hl1 & _).
    rewrite Hl1 in Hs. unfold slot_age.
    destruct (k <? n)%Z eqn:E.
    + apply Z.ltb_lt in E. injection Hs as <-. lia.
    + apply Z.ltb_ge in E. injection Hs as <-. lia.
  - (* the slot at the write index, seen [C - 1] behind the last written *)
    specialize (Hd (C - 1)%Z ltac:(lia)). rewrite Hwrite in Hd.
    fold n. rewrite Hidx, Hd.
    destruct (C - 1 <? n)%Z eqn:E1; destruct (n <? C)%Z eqn:E2;
      try apply Z.ltb_lt in E1; try apply Z.ltb_ge in E1;
      try apply Z.ltb_lt in E2; try apply Z.ltb_ge in E2; try lia.
    + f_equal. lia.
    + reflexivity.
  - specialize (Hlog (C - 1)%Z ltac:(lia)). rewrite Hwrite in Hlog.
    fold n. rewrite Hidx, Hlog.
    destruct (C - 1 <? n)%Z eqn:E1.
    + apply Z.ltb_lt in E1. eexists. split.
      * rewrite lookup_seq_lt by lia. reflexivity.
      * unfold slot_age. lia.
    + apply Z.ltb_ge in E1. exists 0%nat. split.
      * apply lookup_replicate_2.
        pose proof (slot_mod_range C (i0 + n) HC). lia.
      * unfold slot_age. lia.
Qed.

(** ** Array primitives on in-range indices *)

Lemma jnp_broadcast_same (v : Tensor) : jnp.broadcast_to v (tshape v) = Ok v.
Proof. unfold jnp.broadcast_to. rewrite decide_True; reflexivity. Qed.

Lemma jnp_setitem_in_range (s : list nat) (data : list Tensor) (i : Z) (v : Tensor) :
  tshape v = s -> (0 <= i < Z.of_nat (length data))%Z ->
  jnp.setitem s data i v = Ok (<[Z.to_nat i := v]> data).
Proof.
  intros <- Hi. unfold jnp.setitem. rewrite jnp_broadcast_same.
  cbn [mbind result_bind]. unfold jnp.norm_index.
  destruct (i <? 0)%Z eqn:E; [apply Z.ltb_lt in E; lia|].
  destruct (0 <=? i)%Z eqn:E1; [|apply Z.leb_gt in E1; lia].
  destruct (i <? Z.of_nat (length data))%Z eqn:E2; [|apply Z.ltb_ge in E2; lia].
  reflexivity.
Qed.

Lemma jnp_getitem_in_range (data : list Tensor) (i : Z) :
  (0 <= i < Z.of_nat (length data))%Z ->
  exists x, data !! Z.to_nat i = Some x /\ jnp.getitem data i = Ok x.
Proof.
  intros Hi. destruct (lookup_lt_is_Some_2 data (Z.to_nat i)) as [x Hx]; [lia|].
  exists x. split; [exact Hx|]. unfold jnp.getitem, jnp.norm_index.
  destruct (i <? 0)%Z eqn:E; [apply Z.ltb_lt in E; lia|].
  replace (Z.max 0 (Z.min (Z.of_nat (length data) - 1) i)) with i by lia.
  rewrite Hx. reflexivity.
Qed.

(** Above the axis the read is clamped to the last slot. *)
Lemma jnp_getitem_clamped (data : list Tensor) (i : Z) :
  (0 < Z.of_nat (length data) <= i)%Z ->
  jnp.getitem data i = jnp.getitem data (Z.of_nat (length data) - 1).
Proof.
  intros Hi. unfold jnp.getitem, jnp.norm_index.
  destruct (i <? 0)%Z eqn:E; [apply Z.ltb_lt in E; lia|].
  destruct (Z.of_nat (length data) - 1 <? 0)%Z eqn:E1; [apply Z.ltb_lt in E1; lia|].
  set (n := Z.of_nat (length data)) in *.
  replace (Z.max 0 (Z.min (n - 1) i)) with (n - 1)%Z by lia.
  replace (Z.max 0 (Z.min (n - 1) (n - 1))) with (n - 1)%Z by lia.
  reflexivity.
Qed.

(** ** One [update] on a well-formed buffer *)

Lemma LengthDelay_update_ok (b : LengthDelay.LengthDelay) (v : Tensor) :
  LengthDelay.wf b -> tshape v = LengthDelay.shape b ->
  LengthDelay.update b v =
    Ok (LengthDelay.mk (LengthDelay.num_delay_step b) (LengthDelay.shape b)
          ((LengthDelay.idx b + 1) mod LengthDelay.num_delay_step b)%Z
          (<[Z.to_nat (LengthDelay.idx b) := v]> (LengthDelay.data b))).
Proof.
  intros [HC Hlen Hidx] Hs. unfold LengthDelay.update.
  rewrite decide_False by (intros H; apply H; exact Hs).
  rewrite jnp_setitem_in_range by (try exact Hs; lia). reflexivity.
Qed.

Lemma LengthDelay_update_mismatch (b : LengthDelay.LengthDelay) (v : Tensor) :
  tshape v <> LengthDelay.shape b ->
  LengthDelay.update b v = Raise (ValueError "value shape should be the buffer shape").
Proof.
  intros Hs. unfold LengthDelay.update. rewrite decide_True by exact Hs. reflexivity.
Qed.

Lemma TimeDelay_update_ok (b : TimeDelay.TimeDelay) (t : Q) (v : Tensor) :
  TimeDelay.wf b -> tshape v = TimeDelay.shape b ->
  TimeDelay.update b t v =
    Ok (TimeDelay.mk (TimeDelay.shape b) (TimeDelay.t0 b) (TimeDelay.dt b)
          (TimeDelay.delay_len b) (TimeDelay.num_delay_step b)
          (TimeDelay.interp_method b)
          ((TimeDelay.idx b + 1) mod TimeDelay.num_delay_step b)%Z t
          (<[Z.to_nat (TimeDelay.idx b) := v]> (TimeDelay.data b))
          (TimeDelay._before_type b) (TimeDelay._before_t0 b)).
Proof.
  intros [HC Hlen Hidx] Hs. unfold TimeDelay.update.
  rewrite jnp_setitem_in_range by (try exact Hs; lia). reflexivity.
Qed.

Lemma LengthDelay_update_wf (b b' : LengthDelay.LengthDelay) (v : Tensor) :
  LengthDelay.wf b -> tshape v = LengthDelay.shape b ->
  LengthDelay.update b v = Ok b' -> LengthDelay.wf b'.
Proof.
  intros Hwf Hs Hu. rewrite LengthDelay_update_ok in Hu by assumption.
  injection Hu as <-. destruct Hwf as [HC Hlen Hidx].
  split; cbn; [exact HC| rewrite length_insert; exact Hlen
              | apply slot_mod_range; exact HC].
Qed.

Lemma TimeDelay_update_wf (b b' : TimeDelay.TimeDelay) (t : Q) (v : Tensor) :
  TimeDelay.wf b -> tshape v = TimeDelay.shape b ->
  TimeDelay.update b t v = Ok b' -> TimeDelay.wf b'.
Proof.
  intros Hwf Hs Hu. rewrite TimeDelay_update_ok in Hu by assumption.
  injection Hu as <-. destruct Hwf as [HC Hlen Hidx].
  split; cbn; [exact HC| rewrite length_insert; exact Hlen
              | apply slot_mod_range; exact HC].
Qed.

(** ** Sequences of updates follow the ring discipline *)

Lemma LengthDelay_updates_logged_run (vs : list Tensor) :
  forall (b : LengthDelay.LengthDelay) (log : list nat) (k : nat),
    LengthDelay.wf b ->
    Forall (fun v => tshape v = LengthDelay.shape b) vs ->
    let C := LengthDelay.num_delay_step b in
    exists b',
      ld_updates_logged b log k vs =
        Ok (b', (ring_run C log (LengthDelay.idx b) (seq (S k) (length vs))).1) /\
      LengthDelay.updates b vs = Ok b' /\
      LengthDelay.wf b' /\
      LengthDelay.num_delay_step b' = C /\
      LengthDelay.shape b' = LengthDelay.shape b /\
      LengthDelay.data b' = (ring_run C (LengthDelay.data b) (LengthDelay.idx b) vs).1 /\
      LengthDelay.idx b' = (ring_run C (LengthDelay.data b) (LengthDelay.idx b) vs).2.
Proof.
  induction vs as [|v vs' IH]; intros b log k Hwf Hsh; cbn zeta.
  - exists b. cbn. split_and!; try reflexivity. exact Hwf.
  - apply Forall_cons in Hsh as [Hv Hsh].
    pose proof (LengthDelay_update_ok b v Hwf Hv) as Hu.
    pose proof (LengthDelay_update_wf b _ v Hwf Hv Hu) as Hwf'.
    set (b1 := LengthDelay.mk _ _ _ _) in *.
    destruct (IH b1 (<[Z.to_nat (LengthDelay.idx b) := S k]> log) (S k) Hwf' Hsh)
      as (b' & H1 & H2 & H3 & H4 & H5 & H6 & H7).
    exists b'. unfold LengthDelay.updates in *.
    cbn [ld_updates_logged for_each length seq ring_run].
    rewrite Hu. cbn [mbind result_bind].
    split_and!; assumption.
Qed.

Lemma TimeDelay_updates_logged_run (tvs : list (Q * Tensor)) :
  forall (b : TimeDelay.TimeDelay) (log : list nat) (k : nat),
    TimeDelay.wf b ->
    Forall (fun tv => tshape tv.2 = TimeDelay.shape b) tvs ->
    let C := TimeDelay.num_delay_step b in
    exists b',
      td_updates_logged b log k tvs =
        Ok (b', (ring_run C log (TimeDelay.idx b) (seq (S k) (length tvs))).1) /\
      TimeDelay.updates b tvs = Ok b' /\
      TimeDelay.wf b' /\
      TimeDelay.num_delay_step b' = C /\
      TimeDelay.shape b' = TimeDelay.shape b /\
      TimeDelay.data b' =
        (ring_run C (TimeDelay.data b) (TimeDelay.idx b) (map snd tvs)).1 /\
      TimeDelay.idx b' =
        (ring_run C (TimeDelay.data b) (TimeDelay.idx b) (map snd tvs)).2 /\
      TimeDelay.current_time b' =
        default (TimeDelay.current_time b) (last (map fst tvs)).
Proof.
  induction tvs as [|[t v] tvs' IH]; intros b log k Hwf Hsh; cbn zeta.
  - exists b. cbn. split_and!; try reflexivity. exact Hwf.
  - apply Forall_cons in Hsh as [Hv Hsh]. cbn [snd] in Hv.
    pose proof (TimeDelay_update_ok b t v Hwf Hv) as Hu.
    pose proof (TimeDelay_update_wf b _ t v Hwf Hv Hu) as Hwf'.
    set (b1 := TimeDelay.mk _ _ _ _ _ _ _ _ _ _ _) in *.
    destruct (IH b1 (<[Z.to_nat (TimeDelay.idx b) := S k]> log) (S k) Hwf' Hsh)
      as (b' & H1 & H2 & H3 & H4 & H5 & H6 & H7 & H8).
    exists b'. unfold TimeDelay.updates in *.
    cbn [td_updates_logged for_each length seq ring_run map fst snd].
    rewrite Hu. cbn [mbind result_bind].
    split_and!; try assumption.
    rewrite H8. cbn [map fst]. rewrite (last_cons t).
    destruct (last (map fst tvs')); reflexivity.
Qed.

(** ** Ring position of the samples (both buffers) *)

(** C2, as stated, fails on the code.  A length-based buffer of capacity 3
    starts with write index 0; after one [update] with the sample [5] the
    write index is [(0 + 1) mod 3 = 1], yet slot 1 still holds the initial
    sample [0]: the written sample sits one slot behind, at slot 0. *)
Lemma ring_most_recent_not_at_write_index :
  let v0 := mkTensor [] [0%Q] in
  let v5 := mkTensor [] [5%Q] in
  exists b0 b1,
    LengthDelay.__init__ v0 2 None = Ok b0 /\
    LengthDelay.update b0 v5 = Ok b1 /\
    LengthDelay.num_delay_step b0 = 3%Z /\
    LengthDelay.idx b1 = ((LengthDelay.idx b0 + 1) mod 3)%Z /\
    LengthDelay.data b1 !! Z.to_nat (LengthDelay.idx b1) = Some v0 /\
    LengthDelay.data b1 !! Z.to_nat (LengthDelay.idx b1) <> Some v5 /\
    LengthDelay.data b1 !! Z.to_nat ((LengthDelay.idx b1 - 1) mod 3) = Some v5.
Proof.
  cbn zeta. eexists. eexists.
  split; [vm_compute; reflexivity|].
  split; [vm_compute; reflexivity|].
  split_and!; try (vm_compute; reflexivity).
  vm_compute. intros H. discriminate H.
Qed.

(** C2 (amended): for both buffers, after [n >= 1] updates with samples of
    the buffer's shape, starting from write index [i0] on a ring of capacity
    [C]: the write index is [(i0 + n) mod C]; the most recently written
    sample is in the slot just behind it, [(i0 + n - 1) mod C]; the ghost
    log tells truthfully which update wrote each slot; the oldest retained
    sample is [min n (C - 1)] updates old; and the slot at the write index
    holds a sample of that age: the one written [C - 1] updates before the
    most recent one when [n >= C], and still its initial content when
    [n < C]. *)
Theorem ring_after_updates :
  (forall (b : LengthDelay.LengthDelay) (vs : list Tensor),
     LengthDelay.wf b ->
     Forall (fun v => tshape v = LengthDelay.shape b) vs ->
     vs <> [] ->
     let C := LengthDelay.num_delay_step b in
     exists b' log,
       ld_updates_logged b (replicate (Z.to_nat C) 0%nat) 0 vs = Ok (b', log) /\
       LengthDelay.updates b vs = Ok b' /\
       ring_state_after C (LengthDelay.idx b) (LengthDelay.data b) vs
         (LengthDelay.data b') (LengthDelay.idx b') log) /\
  (forall (b : TimeDelay.TimeDelay) (tvs : list (Q * Tensor)),
     TimeDelay.wf b ->
     Forall (fun tv => tshape tv.2 = TimeDelay.shape b) tvs ->
     tvs <> [] ->
     let C := TimeDelay.num_delay_step b in
     exists b' log,
       td_updates_logged b (replicate (Z.to_nat C) 0%nat) 0 tvs = Ok (b', log) /\
       TimeDelay.updates b tvs = Ok b' /\
       ring_state_after C (TimeDelay.idx b) (TimeDelay.data b) (map snd tvs)
         (TimeDelay.data b') (TimeDelay.idx b') log).
Proof.
  split.
  - intros b vs Hwf Hsh Hne C.
    destruct (LengthDelay_updates_logged_run vs b (replicate (Z.to_nat C) 0%nat) 0 Hwf Hsh)
      as (b' & H1 & H2 & _ & _ & _ & H6 & H7).
    eexists. eexists. split; [exact H1|]. split; [exact H2|].
    rewrite H6, H7. destruct Hwf as [HC Hlen Hidx].
    apply ring_run_state_after; assumption.
  - intros b tvs Hwf Hsh Hne C.
    destruct (TimeDelay_updates_logged_run tvs b (replicate (Z.to_nat C) 0%nat) 0 Hwf Hsh)
      as (b' & H1 & H2 & _ & _ & _ & H6 & H7 & _).
    eexists. eexists. split; [exact H1|]. split; [exact H2|].
    rewrite H6, H7. destruct Hwf as [HC Hlen Hidx].
    replace (length tvs) with (length (map snd tvs)) by apply length_map.
    apply ring_run_state_after; try assumption.
    destruct tvs; [congruence|discriminate].
Qed.


Lemma ring_after_updates_witness :
  (exists b' log,
     ld_updates_logged ring_example (replicate 3 0%nat) 0
       [mkTensor [] [1%Q]; mkTensor [] [2%Q]] = Ok (b', log) /\
     LengthDelay.updates ring_example [mkTensor [] [1%Q]; mkTensor [] [2%Q]] = Ok b' /\
     ring_state_after 3 0 (replicate 3 (mkTensor [] [0%Q]))
       [mkTensor [] [1%Q]; mkTensor [] [2%Q]]
       (LengthDelay.data b') (LengthDelay.idx b') log) /\
  (exists b' log,
     td_updates_logged time_example (replicate 2 0%nat) 0
       [(1%Q, mkTensor [] [5%Q]); (2%Q, mkTensor [] [6%Q]); (3%Q, mkTensor [] [7%Q])]
       = Ok (b', log) /\
     TimeDelay.updates time_example
       [(1%Q, mkTensor [] [5%Q]); (2%Q, mkTensor [] [6%Q]); (3%Q, mkTensor [] [7%Q])]
       = Ok b' /\
     ring_state_after 2 0 [mkTensor [] [3%Q]; mkTensor [] [4%Q]]
       [mkTensor [] [5%Q]; mkTensor [] [6%Q]; mkTensor [] [7%Q]]
       (TimeDelay.data b') (TimeDelay.idx b') log).
Proof.
  split.
  - apply (proj1 ring_after_updates ring_example
             [mkTensor [] [1%Q]; mkTensor [] [2%Q]]).
    + split; cbn; lia.
    + repeat constructor.
    + discriminate.
  - apply (proj2 ring_after_updates time_example
             [(1%Q, mkTensor [] [5%Q]); (2%Q, mkTensor [] [6%Q]);
              (3%Q, mkTensor [] [7%Q])]).
    + split; cbn; lia.
    + repeat constructor.
    + discriminate.
Defined.

(** ** Reads of the length-based buffer *)

(** C4, as stated, fails on the code: a negative [steps_back] is outside
    [0 <= steps_back < C], yet the read is not rejected; it returns the slot
    [(write_index - steps_back - 1) mod C] like any other read. *)
Lemma length_read_negative_accepted :
  exists b,
    LengthDelay.__init__ (mkTensor [] [0%Q]) 2
      (Some (InitData (mkTensor [2%nat] [10%Q; 20%Q]))) = Ok b /\
    LengthDelay.num_delay_step b = 3%Z /\
    ~ (0 <= -1 < LengthDelay.num_delay_step b)%Z /\
    LengthDelay.__call__ true b (-1) = Ok (mkTensor [] [10%Q]).
Proof.
  eexists. split; [vm_compute; reflexivity|].
  split; [reflexivity|]. split; [cbn; lia|]. vm_compute. reflexivity.
Qed.

(** C4 (amended): with checking enabled, a read of a length-based buffer of
    capacity [C] with a 32-bit argument fails with the out-of-range error
    exactly when [steps_back >= C] (negative arguments are not rejected).
    As long as the index arithmetic stays within the 32-bit integers, every
    read that is not rejected returns exactly the sample at slot
    [(write_index - steps_back - 1) mod C]; with checking disabled no such
    read is rejected; and immediately after [update v] a read with
    [steps_back = 0] returns [v]. *)
Theorem length_read_contract (b : LengthDelay.LengthDelay) (steps_back : Z) :
  LengthDelay.wf b ->
  let C := LengthDelay.num_delay_step b in
  let slot := Z.to_nat ((LengthDelay.idx b - steps_back - 1) mod C) in
  (LengthDelay.int32 steps_back ->
     (LengthDelay.__call__ true b steps_back = Raise LengthDelay._check_delay
        <-> (C <= steps_back)%Z)) /\
  (LengthDelay.int32_read b steps_back -> (steps_back < C)%Z ->
     exists x, LengthDelay.data b !! slot = Some x /\
               LengthDelay.__call__ true b steps_back = Ok x) /\
  (LengthDelay.int32_read b steps_back ->
     exists x, LengthDelay.data b !! slot = Some x /\
               LengthDelay.__call__ false b steps_back = Ok x) /\
  (LengthDelay.int32 C ->
   forall v b', LengthDelay.update b v = Ok b' ->
                LengthDelay.__call__ true b' 0 = Ok v).
Proof.
  intros Hwf C slot. pose proof Hwf as [HC Hlen Hidx].
  assert (Hslot : (0 <= (LengthDelay.idx b - steps_back - 1) mod C
                   < Z.of_nat (length (LengthDelay.data b)))%Z).
  { rewrite Hlen. apply slot_mod_range. exact HC. }
  destruct (jnp_getitem_in_range _ _ Hslot) as (x & Hx & Hget).
  unfold LengthDelay.__call__, check_error_in_jit. fold C.
  split_and!.
  - intros _. destruct (C <=? steps_back)%Z eqn:E; cbn [mbind result_bind].
    + apply Z.leb_le in E. split; [intros _; exact E|reflexivity].
    + apply Z.leb_gt in E. rewrite Hget. split; [discriminate|lia].
  - intros _ Hlt. exists x. split; [exact Hx|].
    destruct (C <=? steps_back)%Z eqn:E; [apply Z.leb_le in E; lia|].
    exact Hget.
  - intros _. exists x. split; [exact Hx|exact Hget].
  - intros _ v b' Hu.
    destruct (decide (tshape v = LengthDelay.shape b)) as [Hs|Hs];
      [|rewrite LengthDelay_update_mismatch in Hu by exact Hs; discriminate].
    rewrite LengthDelay_update_ok in Hu by assumption.
    injection Hu as <-. cbn [LengthDelay.num_delay_step LengthDelay.idx LengthDelay.data].
    fold C. destruct (C <=? 0)%Z eqn:E; [apply Z.leb_le in E; lia|].
    cbn [mbind result_bind].
    replace (((LengthDelay.idx b + 1) mod C - 0 - 1) mod C)%Z with (LengthDelay.idx b).
    2:{ replace ((LengthDelay.idx b + 1) mod C - 0 - 1)%Z
          with ((LengthDelay.idx b + 1) mod C + (-1))%Z by lia.
        rewrite slot_mod_shift. rewrite Z.add_0_r. symmetry.
        apply Z.mod_small. exact Hidx. }
    destruct (jnp_getitem_in_range
                (<[Z.to_nat (LengthDelay.idx b) := v]> (LengthDelay.data b))
                (LengthDelay.idx b)) as (y & Hy & Hgy).
    { rewrite length_insert. lia. }
    rewrite list_lookup_insert_eq in Hy by lia. injection Hy as <-. exact Hgy.
Qed.

Lemma length_read_contract_witness :
  let b := ring_example in
  (LengthDelay.__call__ true b 3 = Raise LengthDelay._check_delay) /\
  (exists x, LengthDelay.data b !! Z.to_nat ((0 - 1 - 1) mod 3) = Some x /\
             LengthDelay.__call__ true b 1 = Ok x) /\
  (exists x, LengthDelay.data b !! Z.to_nat ((0 - (-1) - 1) mod 3) = Some x /\
             LengthDelay.__call__ false b (-1) = Ok x).
Proof.
  assert (Hwf : LengthDelay.wf ring_example) by (split; cbn; lia).
  split; [|split].
  - destruct (length_read_contract ring_example 3 Hwf) as (H & _).
    apply H; [unfold LengthDelay.int32|cbn]; lia.
  - destruct (length_read_contract ring_example 1 Hwf) as (_ & H & _).
    apply H; [|cbn; lia].
    unfold LengthDelay.int32_read, LengthDelay.int32. cbn. lia.
  - destruct (length_read_contract ring_example (-1) Hwf) as (_ & _ & H & _).
    apply H.
    unfold LengthDelay.int32_read, LengthDelay.int32. cbn. lia.
Defined.

(** ** Shape checking on [update] *)

(** C5 at a failing input: the time-based buffer has slot shape [(3,)]; an
    [update] with a scalar sample (shape [()]) raises nothing: the sample is
    broadcast into the slot.  On the same input the length-based buffer
    raises its shape error. *)
Theorem time_update_accepts_other_shape :
  let v := mkTensor [] [7%Q] in
  exists b b' lb,
    TimeDelay.__init__ 1 (jnp.zeros [3%nat]) 1 None 0 (Some 1%Q) _INTERP_LINEAR = Ok b /\
    tshape v <> TimeDelay.shape b /\
    TimeDelay.update b 1 v = Ok b' /\
    TimeDelay.data b' !! 0%nat = Some (mkTensor [3%nat] [7%Q; 7%Q; 7%Q]) /\
    TimeDelay.idx b' = 1%Z /\
    LengthDelay.__init__ (jnp.zeros [3%nat]) 1 None = Ok lb /\
    tshape v <> LengthDelay.shape lb /\
    LengthDelay.update lb v = Raise (ValueError "value shape should be the buffer shape").
Proof.
  cbn zeta. eexists. eexists. eexists.
  split; [vm_compute; reflexivity|].
  split; [vm_compute; discriminate|].
  split; [vm_compute; reflexivity|].
  split; [vm_compute; reflexivity|].
  split; [vm_compute; reflexivity|].
  split; [vm_compute; reflexivity|].
  split; [vm_compute; discriminate|].
  vm_compute. reflexivity.
Qed.

(** ** Reads of the time-based buffer *)

(** C1 at a failing input: [delay_len = 2], [dt = 1], capacity 3.  After one
    [update] at time 1 with the sample [5] the write index is 1.  A read at
    [t = 1] has [elapsed = 2], [steps = 2], [remainder = 0]; the slot
    [(1 + 2) mod 3 = 0] holds [5], but the read indexes [1 + 2 = 3] without
    the modulo and returns the last slot, the initial sample [0]. *)
Theorem time_read_exact_slot_not_wrapped :
  let t := 1%Q in
  exists b0 b,
    TimeDelay.__init__ 1 (mkTensor [] [0%Q]) 2 None 0 (Some 1%Q) _INTERP_LINEAR = Ok b0 /\
    TimeDelay.update b0 1 (mkTensor [] [5%Q]) = Ok b /\
    let elapsed := (TimeDelay.delay_len b - (TimeDelay.current_time b - t))%Q in
    let steps := Qfloor (elapsed / TimeDelay.dt b) in
    let remainder := (elapsed - inject_Z steps * TimeDelay.dt b)%Q in
    (TimeDelay.t0 b <= t)%Q /\ (t <= TimeDelay.current_time b)%Q /\
    TimeDelay.interp_method b = _INTERP_LINEAR /\
    TimeDelay.num_delay_step b = 3%Z /\ TimeDelay.idx b = 1%Z /\
    steps = 2%Z /\ (remainder == 0)%Q /\
    TimeDelay.data b !! Z.to_nat ((TimeDelay.idx b + steps) mod TimeDelay.num_delay_step b)
      = Some (mkTensor [] [5%Q]) /\
    TimeDelay.__call__ true b t = Ok (mkTensor [] [0%Q]).
Proof.
  cbn zeta. eexists. eexists.
  split; [vm_compute; reflexivity|].
  split; [vm_compute; reflexivity|].
  split_and!; try (vm_compute; reflexivity); vm_compute; discriminate.
Qed.

(** *** Bounds checking *)



Lemma result_bind_raise {A B} (m : result A) (f : A -> result B) (e : exn) :
  m ≫= f = Raise e -> m = Raise e \/ exists a, m = Ok a /\ f a = Raise e.
Proof.
  destruct m as [a|e']; cbn [mbind result_bind]; intros H.
  - right. exists a. split; [reflexivity|exact H].
  - left. injection H as <-. reflexivity.
Qed.

Lemma jnp_getitem_raises (data : list Tensor) (i : Z) (e : exn) :
  jnp.getitem data i = Raise e ->
  e = IndexError "index is out of bounds for axis 0 with size 0".
Proof.
  unfold jnp.getitem. destruct (data !! _); [discriminate|].
  intros H. injection H as <-. reflexivity.
Qed.

Lemma TimeDelay_after_t0_no_bounds_error (b : TimeDelay.TimeDelay) (t : Q) :
  ~ bounds_error (TimeDelay._after_t0 b t).
Proof.
  assert (Htrue : forall dm, ~ bounds_error (TimeDelay._true_fn b dm)).
  { intros [r x] [H|H]; apply jnp_getitem_raises in H; discriminate. }
  assert (Hfalse : forall dm, ~ bounds_error (TimeDelay._false_fn b dm)).
  { intros [r x]. unfold TimeDelay._false_fn.
    intros [H|H];
      apply result_bind_raise in H as [H1|(a & _ & H1)];
      try (apply jnp_getitem_raises in H1; discriminate);
      apply result_bind_raise in H1 as [H2|(c & _ & H2)];
      try (apply jnp_getitem_raises in H2; discriminate); discriminate. }
  unfold TimeDelay._after_t0.
  repeat case_bool_decide; try destruct (Qeq_bool _ _);
    try apply Htrue; try apply Hfalse.
  intros [K|K]; discriminate.
Qed.

Lemma TimeDelay_init_before (get_dt : Q) (target : Tensor) (len : Q)
    (before : option BeforeT0) (t0 : Q) (dt : option Q) (m : string)
    (b : TimeDelay.TimeDelay) :
  TimeDelay.__init__ get_dt target len before t0 dt m = Ok b ->
  before_raises_shape_only b.
Proof.
  unfold TimeDelay.__init__.
  repeat (match goal with
          | |- context [if ?c then _ else _] => destruct c
          end; cbn [mbind result_bind]; try discriminate).
  destruct before as [[f|d]|]; cbn [mbind result_bind].
  - destruct (jnp.setitem _ _ _ _); cbn [mbind result_bind]; [|discriminate].
    intros K. injection K as <-. intros t e. cbn. unfold jnp.broadcast_to.
    case_decide; [discriminate|]. destruct (jnp.broadcast_vals _ _ _); [discriminate|].
    intros K. injection K as <-. reflexivity.
  - destruct (jnp.set_all_but_last _ _ _); cbn [mbind result_bind]; [|discriminate].
    destruct (jnp.setitem _ _ _ _); cbn [mbind result_bind]; [|discriminate].
    intros K. injection K as <-. intros t e. cbn. discriminate.
  - destruct (jnp.setitem _ _ _ _); cbn [mbind result_bind]; [|discriminate].
    intros K. injection K as <-. intros t e. cbn. discriminate.
Qed.

Lemma Qceiling_span (len dt : Q) :
  (0 < dt)%Q ->
  (len <= inject_Z (Qceiling (len / dt)) * dt)%Q /\
  (inject_Z (Qceiling (len / dt)) * dt < len + dt)%Q.
Proof.
  intros Hdt.
  assert (Hne : ~ (dt == 0)%Q) by (intros H; rewrite H in Hdt; discriminate).
  assert (Hlen : (len == (len / dt) * dt)%Q) by (field; exact Hne).
  split.
  - rewrite Hlen at 1. apply Qmult_le_compat_r; [apply Qle_ceiling|].
    apply Qlt_le_weak. exact Hdt.
  - assert (H2 : (len + dt == (len / dt + 1) * dt)%Q) by (field; exact Hne).
    rewrite H2.
    apply Qmult_lt_compat_r; [exact Hdt|].
    pose proof (Qceiling_lt (len / dt)) as Hc.
    unfold Z.sub in Hc. rewrite inject_Z_plus, inject_Z_opp in Hc.
    change (inject_Z 1) with 1%Q in Hc.
    set (c := inject_Z (Qceiling (len / dt))) in *. lra.
Qed.

(** C3, as stated, fails on the code.  With [delay_len = 1], [dt = 1] the
    capacity is 2 and [capacity_span = 1]; at [current_time = 0] the query
    time [-3/2] lies below [current_time - capacity_span = -1], and the
    query time [1/2000000] lies above [current_time], yet neither read
    raises: the checks allow a slack of [dt] below and [1e-6] above. *)
Lemma time_read_outside_window_accepted :
  exists b,
    TimeDelay.__init__ 1 (mkTensor [] [0%Q]) 1 None 0 (Some 1%Q) _INTERP_LINEAR = Ok b /\
    TimeDelay.num_delay_step b = 2%Z /\
    let span := (inject_Z (TimeDelay.num_delay_step b - 1) * TimeDelay.dt b)%Q in
    ((-3 # 2) < TimeDelay.current_time b - span)%Q /\
    succeeds (TimeDelay.__call__ true b (-3 # 2)) /\
    (TimeDelay.current_time b < 1 # 2000000)%Q /\
    succeeds (TimeDelay.__call__ true b (1 # 2000000)).
Proof.
  eexists. split; [vm_compute; reflexivity|].
  split; [vm_compute; reflexivity|]. cbn zeta.
  split_and!; try (vm_compute; reflexivity); eexists; vm_compute; reflexivity.
Qed.

(** C3 (amended): with checking enabled, a time-based read raises a bounds
    error exactly when [query_time > current_time + 1e-6] or
    [query_time < current_time - delay_len - dt]; with checking disabled it
    never does.  Hence, for a buffer whose capacity is
    [ceil(delay_len / dt) + 1] with [dt > 0], no query inside
    [current_time - capacity_span, current_time] raises, and every query
    below [current_time - capacity_span - dt] or above
    [current_time + 1e-6] does. *)
Theorem time_read_bounds (b : TimeDelay.TimeDelay) (t : Q) :
  before_raises_shape_only b ->
  (0 < TimeDelay.dt b)%Q ->
  TimeDelay.num_delay_step b
    = (Qceiling (TimeDelay.delay_len b / TimeDelay.dt b) + 1)%Z ->
  let cur := TimeDelay.current_time b in
  let span := (inject_Z (TimeDelay.num_delay_step b - 1) * TimeDelay.dt b)%Q in
  (bounds_error (TimeDelay.__call__ true b t) <->
     (cur + (1 # 1000000) < t)%Q \/
     (t < cur - TimeDelay.delay_len b - TimeDelay.dt b)%Q) /\
  ~ bounds_error (TimeDelay.__call__ false b t) /\
  ((cur - span <= t)%Q -> (t <= cur)%Q ->
     ~ bounds_error (TimeDelay.__call__ true b t)) /\
  ((t < cur - span - TimeDelay.dt b)%Q ->
     bounds_error (TimeDelay.__call__ true b t)) /\
  ((cur + (1 # 1000000) < t)%Q ->
     bounds_error (TimeDelay.__call__ true b t)).
Proof.
  intros Hbefore Hdt HC cur span.
  assert (Hbody : ~ bounds_error
            (if bool_decide (TimeDelay._before_type b = _FUNC_BEFORE)
             then if Qltb t (TimeDelay.t0 b) then TimeDelay._before_t0 b t
                  else TimeDelay._after_t0 b t
             else TimeDelay._after_t0 b t)).
  { case_bool_decide; [destruct (Qltb t (TimeDelay.t0 b))|];
      try apply TimeDelay_after_t0_no_bounds_error.
    intros [K|K]; apply Hbefore in K; discriminate. }
  assert (Hiff : bounds_error (TimeDelay.__call__ true b t) <->
                 (cur + (1 # 1000000) < t)%Q \/
                 (t < cur - TimeDelay.delay_len b - TimeDelay.dt b)%Q).
  { unfold TimeDelay.__call__, check_error_in_jit. fold cur.
    destruct (Qltb (cur + (1 # 1000000)) t) eqn:E1; cbn [mbind result_bind].
    - apply Qltb_lt in E1. split; [intros _; left; exact E1|].
      intros _. left. reflexivity.
    - destruct (Qltb t (cur - TimeDelay.delay_len b - TimeDelay.dt b)) eqn:E2;
        cbn [mbind result_bind].
      + apply Qltb_lt in E2. split; [intros _; right; exact E2|].
        intros _. right. reflexivity.
      + apply Qltb_ge in E1, E2. split; [intros K; destruct (Hbody K)|].
        intros [K|K]; exfalso.
        * exact (Qlt_not_le _ _ K E1).
        * exact (Qlt_not_le _ _ K E2). }
  destruct (Qceiling_span (TimeDelay.delay_len b) (TimeDelay.dt b) Hdt)
    as [Hlo Hhi].
  assert (Hspan : (span == inject_Z (Qceiling (TimeDelay.delay_len b / TimeDelay.dt b))
                           * TimeDelay.dt b)%Q).
  { unfold span. rewrite HC.
    replace (Qceiling (TimeDelay.delay_len b / TimeDelay.dt b) + 1 - 1)%Z
      with (Qceiling (TimeDelay.delay_len b / TimeDelay.dt b)) by lia.
    reflexivity. }
  set (c := (inject_Z (Qceiling (TimeDelay.delay_len b / TimeDelay.dt b))
             * TimeDelay.dt b)%Q) in *.
  split_and!.
  - exact Hiff.
  - unfold TimeDelay.__call__. cbn [mbind result_bind]. exact Hbody.
  - intros H1 H2 K. apply Hiff in K as [K|K]; lra.
  - intros H1. apply Hiff. right. lra.
  - intros H1. apply Hiff. left. exact H1.
Qed.



Lemma time_read_bounds_witness :
  before_raises_shape_only time_example /\
  (0 < TimeDelay.dt time_example)%Q /\
  ~ bounds_error (TimeDelay.__call__ true time_example (-1 # 2)) /\
  bounds_error (TimeDelay.__call__ true time_example (-5 # 2)).
Proof.
  assert (H1 : before_raises_shape_only time_example)
    by (intros t e K; discriminate K).
  assert (H2 : (0 < TimeDelay.dt time_example)%Q) by reflexivity.
  destruct (time_read_bounds time_example (-1 # 2) H1 H2 eq_refl)
    as (_ & _ & Hin & _ & _).
  destruct (time_read_bounds time_example (-5 # 2) H1 H2 eq_refl)
    as (_ & _ & _ & Hlow & _).
  split; [exact H1|]. split; [exact H2|]. split.
  - apply Hin; vm_compute; discriminate.
  - apply Hlow. vm_compute. reflexivity.
Defined.

(** *** The linear-interpolation read in general *)

Lemma Qtrunc_floor (q : Q) : (0 <= q)%Q -> Qtrunc q = Qfloor q.
Proof.
  destruct q as [n d]. unfold Qle, Qtrunc, Qfloor. cbn. intros H.
  apply Z.quot_div_nonneg; lia.
Qed.

(** Inside the retained window (and after [t0] when a before-start function
    is installed) the read in linear mode is, with [steps] and [remainder]
    as in the specification: the slot [write_index + steps] taken without a
    modulo when [remainder = 0], and the interpolation of the two ring
    slots [(write_index + steps) mod C], [(write_index + steps + 1) mod C]
    otherwise. *)
Lemma time_read_linear (checking : bool) (b : TimeDelay.TimeDelay) (t : Q) :
  TimeDelay.interp_method b = _INTERP_LINEAR ->
  (TimeDelay._before_type b = _FUNC_BEFORE -> (TimeDelay.t0 b <= t)%Q) ->
  (t <= TimeDelay.current_time b)%Q ->
  (TimeDelay.current_time b - TimeDelay.delay_len b <= t)%Q ->
  (0 < TimeDelay.dt b)%Q ->
  let C := TimeDelay.num_delay_step b in
  let elapsed := (TimeDelay.delay_len b - (TimeDelay.current_time b - t))%Q in
  let steps := Qfloor (elapsed / TimeDelay.dt b) in
  let remainder := (elapsed - inject_Z steps * TimeDelay.dt b)%Q in
  TimeDelay.__call__ checking b t =
    if Qeq_bool remainder 0 then
      jnp.getitem (TimeDelay.data b) (TimeDelay.idx b + steps)
    else
      x ← jnp.getitem (TimeDelay.data b) ((TimeDelay.idx b + steps) mod C);
      y ← jnp.getitem (TimeDelay.data b) ((TimeDelay.idx b + steps + 1) mod C);
      Ok (mkTensor (TimeDelay.shape b)
            (zip_with (jnp.interp1 remainder 0 (TimeDelay.dt b)) (tvals x) (tvals y))).
Proof.
  intros Hlin Hbefore Hhi Hlo Hdt C elapsed steps remainder.
  assert (Hel : (0 <= elapsed)%Q) by (unfold elapsed; lra).
  assert (Hq : (0 <= elapsed / TimeDelay.dt b)%Q).
  { apply Qle_shift_div_l; [exact Hdt|]. lra. }
  assert (Hafter : TimeDelay._after_t0 b t =
            if Qeq_bool remainder 0 then
              jnp.getitem (TimeDelay.data b) (TimeDelay.idx b + steps)
            else
              x ← jnp.getitem (TimeDelay.data b) ((TimeDelay.idx b + steps) mod C);
              y ← jnp.getitem (TimeDelay.data b) ((TimeDelay.idx b + steps + 1) mod C);
              Ok (mkTensor (TimeDelay.shape b)
                    (zip_with (jnp.interp1 remainder 0 (TimeDelay.dt b))
                       (tvals x) (tvals y)))).
  { unfold TimeDelay._after_t0. rewrite Hlin.
    rewrite bool_decide_true by reflexivity.
    fold elapsed. rewrite (Qtrunc_floor _ Hq). fold steps. fold remainder.
    reflexivity. }
  unfold TimeDelay.__call__, check_error_in_jit.
  assert (H1 : Qltb (TimeDelay.current_time b + (1 # 1000000)) t = false)
    by (apply Qltb_ge; lra).
  assert (H2 : Qltb t (TimeDelay.current_time b - TimeDelay.delay_len b
                        - TimeDelay.dt b) = false)
    by (apply Qltb_ge; lra).
  rewrite H1, H2.
  assert (Hchk : (if checking then (Ok tt ≫= fun _ : unit => Ok tt) else Ok tt)
                 = (Ok tt : result unit)) by (destruct checking; reflexivity).
  rewrite Hchk. cbn [mbind result_bind].
  case_bool_decide as Hb; [|exact Hafter].
  assert (H3 : Qltb t (TimeDelay.t0 b) = false)
    by (apply Qltb_ge; apply Hbefore; exact Hb).
  rewrite H3. exact Hafter.
Qed.

(** Between the two sample times the interpolation primitive weighs the
    second sample with [x / dt]. *)
Lemma interp1_weight (x dt f0 f1 : Q) :
  (0 <= x)%Q -> (x <= dt)%Q -> (0 < dt)%Q ->
  (jnp.interp1 x 0 dt f0 f1 == f0 + (x / dt) * (f1 - f0))%Q.
Proof.
  intros Hx0 Hx1 Hdt. unfold jnp.interp1.
  assert (H1 : Qeq_bool (dt - 0) 0 = false).
  { destruct (Qeq_bool (dt - 0) 0) eqn:E; [|reflexivity].
    apply Qeq_bool_iff in E. lra. }
  assert (H2 : Qltb x 0 = false) by (apply Qltb_ge; exact Hx0).
  assert (H3 : Qltb dt x = false) by (apply Qltb_ge; exact Hx1).
  rewrite H1, H2, H3.
  assert (Hne : ~ (dt == 0)%Q) by lra.
  field. lra.
Qed.

(** On a well-formed ring the unwrapped index of the exact branch is the
    ring slot only while it stays below the capacity; from the capacity on
    it is the last slot. *)
Lemma time_read_exact_index (b : TimeDelay.TimeDelay) (steps : Z) :
  TimeDelay.wf b -> (0 <= steps)%Z ->
  let C := TimeDelay.num_delay_step b in
  ((TimeDelay.idx b + steps < C)%Z ->
     jnp.getitem (TimeDelay.data b) (TimeDelay.idx b + steps)
     = jnp.getitem (TimeDelay.data b) ((TimeDelay.idx b + steps) mod C)) /\
  ((C <= TimeDelay.idx b + steps)%Z ->
     jnp.getitem (TimeDelay.data b) (TimeDelay.idx b + steps)
     = jnp.getitem (TimeDelay.data b) (C - 1)).
Proof.
  intros [HC Hlen Hidx] Hs C. split; intros H.
  - rewrite Z.mod_small by lia. reflexivity.
  - rewrite jnp_getitem_clamped by lia. rewrite Hlen. reflexivity.
Qed.

(** ** The constructors establish the invariants *)

Lemma length_chunks {A} (n sz : nat) (l : list A) : length (chunks n sz l) = n.
Proof.
  revert l. induction n as [|n IH]; intros l; cbn [chunks length]; [reflexivity|].
  rewrite IH. reflexivity.
Qed.

Lemma jnp_setitem_length (s : list nat) (data data' : list Tensor) (i : Z)
    (v : Tensor) :
  jnp.setitem s data i v = Ok data' -> length data' = length data.
Proof.
  unfold jnp.setitem. destruct (jnp.broadcast_to v s) as [v'|e];
    cbn [mbind result_bind]; [|discriminate].
  destruct (_ && _); intros K; injection K as <-;
    [apply length_insert|reflexivity].
Qed.

Lemma jnp_set_all_but_last_length (s : list nat) (data data' : list Tensor)
    (v : Tensor) :
  jnp.set_all_but_last s data v = Ok data' -> length data' = length data.
Proof.
  unfold jnp.set_all_but_last. destruct (jnp.broadcast_to v _) as [v'|e];
    cbn [mbind result_bind]; [|discriminate].
  intros K. injection K as <-.
  rewrite length_app, length_map, length_chunks, length_drop. lia.
Qed.

Lemma LengthDelay_init_wf (target : Tensor) (len : Z)
    (init : option InitialDelayData) (b : LengthDelay.LengthDelay) :
  LengthDelay.__init__ target len init = Ok b ->
  LengthDelay.wf b /\ LengthDelay.num_delay_step b = (len + 1)%Z /\
  LengthDelay.idx b = 0%Z /\ LengthDelay.shape b = tshape target.
Proof.
  unfold LengthDelay.__init__, LengthDelay.reset.
  destruct (len <? 0)%Z eqn:E; cbn [mbind result_bind]; [discriminate|].
  apply Z.ltb_ge in E.
  destruct (jnp.setitem _ _ _ _) as [data1|e] eqn:E1;
    cbn [mbind result_bind]; [|discriminate].
  apply jnp_setitem_length in E1. rewrite length_replicate in E1.
  assert (Hdone : forall data2, length data2 = length data1 ->
            LengthDelay.wf (LengthDelay.mk (len + 1) (tshape target) 0 data2)).
  { intros data2 H2. split; cbn; lia. }
  destruct init as [[d|g]|]; cbn [mbind result_bind].
  - destruct (jnp.set_all_but_last _ _ _) as [data2|e] eqn:E2;
      cbn [mbind result_bind]; [|discriminate].
    apply jnp_set_all_but_last_length in E2.
    intros K. injection K as <-. split_and!; try reflexivity. apply Hdone, E2.
  - destruct (jnp.set_all_but_last _ _ _) as [data2|e] eqn:E2;
      cbn [mbind result_bind]; [|discriminate].
    apply jnp_set_all_but_last_length in E2.
    intros K. injection K as <-. split_and!; try reflexivity. apply Hdone, E2.
  - intros K. injection K as <-. split_and!; try reflexivity. apply Hdone. reflexivity.
Qed.

Lemma Qceiling_nonneg (q : Q) : (0 <= q)%Q -> (0 <= Qceiling q)%Z.
Proof.
  intros H. pose proof (Qle_ceiling q) as Hc.
  rewrite Zle_Qle. change (inject_Z 0) with 0%Q. lra.
Qed.

Lemma TimeDelay_init_wf (get_dt : Q) (target : Tensor) (len : Q)
    (before : option BeforeT0) (t0 : Q) (dt : option Q) (m : string)
    (b : TimeDelay.TimeDelay) :
  (0 < default get_dt dt)%Q ->
  TimeDelay.__init__ get_dt target len before t0 dt m = Ok b ->
  TimeDelay.wf b /\
  TimeDelay.dt b = default get_dt dt /\
  TimeDelay.delay_len b = len /\
  TimeDelay.num_delay_step b = (Qceiling (len / default get_dt dt) + 1)%Z /\
  TimeDelay.idx b = 0%Z /\ TimeDelay.current_time b = t0 /\
  TimeDelay.shape b = tshape target.
Proof.
  intros Hdt. unfold TimeDelay.__init__.
  destruct (Qltb len 0) eqn:E0; cbn [mbind result_bind]; [discriminate|].
  apply Qltb_ge in E0.
  destruct (Qeq_bool _ 0); cbn [mbind result_bind]; [discriminate|].
  destruct (_ || _); cbn [mbind result_bind]; [|discriminate].
  destruct (_ <? 0)%Z; cbn [mbind result_bind]; [discriminate|].
  assert (HC : (0 <= Qceiling (len / default get_dt dt))%Z).
  { apply Qceiling_nonneg. apply Qle_shift_div_l; [exact Hdt|]. lra. }
  assert (Hdone : forall bt bf data2,
            length data2 = Z.to_nat (Qceiling (len / default get_dt dt) + 1) ->
            TimeDelay.wf (TimeDelay.mk (tshape target) t0 (default get_dt dt) len
                            (Qceiling (len / default get_dt dt) + 1) m 0 t0 data2 bt bf)).
  { intros bt bf data2 H2. split; cbn; lia. }
  destruct before as [[g|d]|]; cbn [mbind result_bind].
  - destruct (jnp.setitem _ _ _ _) as [data2|e] eqn:E2;
      cbn [mbind result_bind]; [|discriminate].
    apply jnp_setitem_length in E2. rewrite length_replicate in E2.
    intros K. injection K as <-. split_and!; try reflexivity. apply Hdone, E2.
  - destruct (jnp.set_all_but_last _ _ _) as [data1|e] eqn:E1;
      cbn [mbind result_bind]; [|discriminate].
    apply jnp_set_all_but_last_length in E1. rewrite length_replicate in E1.
    destruct (jnp.setitem _ _ _ _) as [data2|e] eqn:E2;
      cbn [mbind result_bind]; [|discriminate].
    apply jnp_setitem_length in E2.
    intros K. injection K as <-. split_and!; try reflexivity. apply Hdone. congruence.
  - destruct (jnp.setitem _ _ _ _) as [data2|e] eqn:E2;
      cbn [mbind result_bind]; [|discriminate].
    apply jnp_setitem_length in E2. rewrite length_replicate in E2.
    intros K. injection K as <-. split_and!; try reflexivity. apply Hdone, E2.
Qed.

(** [update] changes the ring and the current time only. *)
Lemma TimeDelay_update_keeps (b b' : TimeDelay.TimeDelay) (t : Q) (v : Tensor) :
  TimeDelay.update b t v = Ok b' ->
  TimeDelay.current_time b' = t /\
  TimeDelay.dt b' = TimeDelay.dt b /\
  TimeDelay.delay_len b' = TimeDelay.delay_len b /\
  TimeDelay.num_delay_step b' = TimeDelay.num_delay_step b /\
  TimeDelay._before_t0 b' = TimeDelay._before_t0 b /\
  (before_raises_shape_only b -> before_raises_shape_only b').
Proof.
  unfold TimeDelay.update.
  destruct (jnp.setitem _ _ _ _) as [d|e]; cbn [mbind result_bind]; [|discriminate].
  intros K. injection K as <-. cbn. split_and!; try reflexivity.
  intros H. exact H.
Qed.

(** ** Reasoning about state-and-exception computations *)

Lemma st_bind_ok {S A B} (m : StateErr S A) (f : A -> StateErr S B) s s' b :
  (m ≫= f) s = (s', Ok b) ->
  exists a s1, m s = (s1, Ok a) /\ f a s1 = (s', Ok b).
Proof.
  unfold mbind, StateErr_bind. destruct (m s) as [s1 [a|e]]; intros H.
  - exists a, s1. split; [reflexivity|exact H].
  - discriminate H.
Qed.

Lemma st_bind_raise {S A B} (m : StateErr S A) (f : A -> StateErr S B) s s' e :
  (m ≫= f) s = (s', Raise e) ->
  m s = (s', Raise e) \/ exists a s1, m s = (s1, Ok a) /\ f a s1 = (s', Raise e).
Proof.
  unfold mbind, StateErr_bind. destruct (m s) as [s1 [a|e']]; intros H.
  - right. exists a, s1. split; [reflexivity|exact H].
  - left. injection H as <- <-. reflexivity.
Qed.



Lemma res_safe_ok {A} (E : exn -> Prop) (a : A) : res_safe E (Ok a).
Proof. intros e K. discriminate K. Qed.

Lemma res_safe_raise {A} (E : exn -> Prop) (e : exn) :
  E e -> res_safe E (Raise e : result A).
Proof. intros H e' K. injection K as <-. exact H. Qed.

Lemma res_safe_bind {A B} (E : exn -> Prop) (m : result A) (f : A -> result B) :
  res_safe E m -> (forall a, res_safe E (f a)) -> res_safe E (m ≫= f).
Proof.
  intros Hm Hf. destruct m as [a|e']; cbn [mbind result_bind].
  - apply Hf.
  - intros e K. injection K as <-. apply Hm. reflexivity.
Qed.

Lemma res_safe_for_each {S X} (E : exn -> Prop) (body : S -> X -> result S)
    (xs : list X) :
  (forall s x, res_safe E (body s x)) -> forall s, res_safe E (for_each body xs s).
Proof.
  intros Hb. induction xs as [|x xs IH]; intros s; cbn [for_each].
  - apply res_safe_ok.
  - apply res_safe_bind; [apply Hb|exact IH].
Qed.

Lemma st_safe_bind {S A B} (I : S -> Prop) (E : exn -> Prop)
    (m : StateErr S A) (f : A -> StateErr S B) :
  st_safe I E m -> (forall a, st_safe I E (f a)) -> st_safe I E (m ≫= f).
Proof.
  intros Hm Hf s Hs. unfold mbind, StateErr_bind.
  destruct (Hm s Hs) as [H1 H2]. destruct (m s) as [s1 [a|e']]; cbn [fst snd] in *.
  - apply Hf. exact H1.
  - split; [exact H1|]. intros e K. injection K as <-. apply H2. reflexivity.
Qed.

(** Reading the state hands on the invariant. *)
Lemma st_safe_get_bind {S B} (I : S -> Prop) (E : exn -> Prop)
    (f : S -> StateErr S B) :
  (forall s, I s -> st_safe I E (f s)) -> st_safe I E (st_get ≫= f).
Proof. intros Hf s Hs. exact (Hf s Hs s Hs). Qed.

Lemma st_safe_ret {S A} (I : S -> Prop) (E : exn -> Prop) (a : A) :
  st_safe I E (mret a : StateErr S A).
Proof. intros s Hs. split; [exact Hs|]. intros e K. discriminate K. Qed.

Lemma st_safe_lift {S A} (I : S -> Prop) (E : exn -> Prop) (r : result A) :
  res_safe E r -> st_safe I E (st_lift r : StateErr S A).
Proof. intros H s Hs. split; [exact Hs|exact H]. Qed.

Lemma st_safe_raise {S A} (I : S -> Prop) (E : exn -> Prop) (e : exn) :
  E e -> st_safe I E (st_raise e : StateErr S A).
Proof. intros H s Hs. split; [exact Hs|]. intros e' K. injection K as <-. exact H. Qed.

Lemma st_safe_modify {S} (I : S -> Prop) (E : exn -> Prop) (f : S -> S) :
  (forall s, I s -> I (f s)) -> st_safe I E (st_modify f).
Proof. intros H s Hs. split; [apply H; exact Hs|]. intros e K. discriminate K. Qed.

Lemma st_safe_for {S X} (I : S -> Prop) (E : exn -> Prop)
    (xs : list X) (body : X -> StateErr S unit) :
  (forall x, st_safe I E (body x)) -> st_safe I E (st_for xs body).
Proof.
  intros Hb. induction xs as [|x xs IH]; cbn [st_for].
  - apply st_safe_ret.
  - apply st_safe_bind; [apply Hb|intros _; exact IH].
Qed.

Lemma st_safe_fold {S X A} (I : S -> Prop) (E : exn -> Prop)
    (body : A -> X -> StateErr S A) (xs : list X) :
  (forall a x, st_safe I E (body a x)) -> forall a, st_safe I E (st_fold body xs a).
Proof.
  intros Hb. induction xs as [|x xs IH]; intros a; cbn [st_fold].
  - apply st_safe_ret.
  - apply st_safe_bind; [apply Hb|intros a'; apply IH].
Qed.

Lemma st_bind_eq {S A B} (m : StateErr S A) (f : A -> StateErr S B) (s : S) :
  (m ≫= f) s = match m s with
               | (s', Ok a) => f a s'
               | (s', Raise e) => (s', Raise e)
               end.
Proof. reflexivity. Qed.

(** ** Automation for safety goals *)

Ltac safe_step :=
  match goal with
  | |- st_safe _ _ (st_get ≫= _) => apply st_safe_get_bind; intros ? ?
  | |- st_safe _ _ (_ ≫= _) => apply st_safe_bind; [|intros ?]
  | |- st_safe _ _ (mret _) => apply st_safe_ret
  | |- st_safe _ _ (st_lift _) => apply st_safe_lift
  | |- st_safe _ _ (st_raise _) => apply st_safe_raise
  | |- st_safe _ _ (st_for _ _) => apply st_safe_for; intros ?
  | |- st_safe _ _ (st_fold _ _ _) => apply st_safe_fold; intros ? ?
  | |- st_safe _ _ (if ?c then _ else _) => destruct c
  | |- st_safe _ _ (match ?x with _ => _ end) => destruct x
  | |- res_safe _ (_ ≫= _) => apply res_safe_bind; [|intros ?]
  | |- res_safe _ (Ok _) => apply res_safe_ok
  | |- res_safe _ (Raise _) => apply res_safe_raise
  | |- res_safe _ (for_each _ _ _) => apply res_safe_for_each; intros ? ?
  | |- res_safe _ (if ?c then _ else _) => destruct c
  | |- res_safe _ (match ?x with _ => _ end) => destruct x
  | |- not_duration_mismatch _ => discriminate
  | |- any_exn _ => exact I
  end.

Ltac safe := repeat safe_step.

(** ** Registration *)

(** C10: [add] is not atomic on failure.  For an object that is neither a
    [NeuGroup] nor a [SynConn], [add(obj)] raises the unknown-object-type
    error after it has appended the object to [_all_objects]; the network
    left behind differs from the original exactly by that entry. *)
Theorem add_unknown_object_not_atomic (h : Heap) (self : Network.Network)
    (obj : ref) :
  is_NeuGroup (h obj) = false ->
  is_SynConn (h obj) = false ->
  let failed := Network.add h [obj] [] self in
  failed.2 = Raise (ValueError "Unknown object type") /\
  failed.1 = Network.set_all_objects (Network._all_objects self ++ [obj]) self /\
  Network._all_objects failed.1 = Network._all_objects self ++ [obj] /\
  Network._all_objects failed.1 <> Network._all_objects self /\
  forall name_arg, Network._add_obj h obj name_arg self = failed.
Proof.
  intros Hn Hs.
  assert (Hadd : forall name_arg,
            Network._add_obj h obj name_arg self =
            (Network.set_all_objects (Network._all_objects self ++ [obj]) self,
             Raise (ValueError "Unknown object type"))).
  { intros name_arg. unfold Network._add_obj.
    cbn [mbind StateErr_bind st_get st_modify]. rewrite Hn, Hs. reflexivity. }
  assert (Hfailed : Network.add h [obj] [] self =
            (Network.set_all_objects (Network._all_objects self ++ [obj]) self,
             Raise (ValueError "Unknown object type"))).
  { unfold Network.add. cbn [st_for]. unfold mbind at 1, StateErr_bind at 1.
    unfold mbind at 1, StateErr_bind at 1. rewrite Hadd. reflexivity. }
  cbn zeta. rewrite Hfailed. cbn [fst snd]. split_and!; try reflexivity.
  - cbn. intros K. apply (f_equal length) in K. rewrite length_app in K.
    cbn in K. lia.
  - exact Hadd.
Qed.

Lemma add_unknown_object_not_atomic_witness :
  (Network.add ex_heap [2%nat] [] (ex_net "once")).2
    = Raise (ValueError "Unknown object type") /\
  Network._all_objects (Network.add ex_heap [2%nat] [] (ex_net "once")).1
    = [0%nat; 1%nat; 2%nat].
Proof.
  destruct (add_unknown_object_not_atomic ex_heap (ex_net "once") 2%nat
              eq_refl eq_refl) as (H1 & _ & H3 & _).
  split; [exact H1|exact H3].
Defined.

(** ** Input formatting *)

(** C8, as stated, fails on the code: a single un-wrapped spec whose target
    is the name of a registered participant is rejected with "Unknown input
    structure.", while the one-element list holding that spec is formatted. *)
Lemma format_inputs_single_string_target_rejected :
  let spec := PTuple [PStr "neu"; PStr "inp"; PFloat 1] in
  Network.getattr (ex_net "once") "neu" = Ok 0%nat /\
  Network._format_inputs ex_env (ex_net "once") ex_heap spec 5
    = Raise (ModelUseError "Unknown input structure.") /\
  Network._format_inputs ex_env (ex_net "once") ex_heap (PList [spec]) 5
    = Ok [("neu", [("inp", PFloat 1, "+", "fix")])].
Proof.
  cbn zeta. split_and!; vm_compute; reflexivity.
Qed.

(** C8 (amended): a single un-wrapped spec is auto-wrapped, and then
    formatted the same as the one-element list holding it, when its target
    is a direct reference to a participant object ([BrainEnsemble]); a
    single un-wrapped spec whose target is a string is rejected with
    "Unknown input structure.". *)
Theorem format_inputs_autowrap (env : Backend) (self : Network.Network)
    (h : Heap) (r : ref) (rest : list PyVal) (run_length : nat) :
  is_BrainEnsemble (h r) = true ->
  Network._format_inputs env self h (PTuple (PObj r :: rest)) run_length
    = Network._format_inputs env self h (PList [PTuple (PObj r :: rest)]) run_length /\
  Network._format_inputs env self h (PList (PObj r :: rest)) run_length
    = Network._format_inputs env self h (PList [PList (PObj r :: rest)]) run_length /\
  (forall s : string,
     Network._format_inputs env self h (PTuple (PStr s :: rest)) run_length
       = Raise (ModelUseError "Unknown input structure.") /\
     Network._format_inputs env self h (PList (PStr s :: rest)) run_length
       = Raise (ModelUseError "Unknown input structure.")).
Proof.
  intros Hr. unfold Network._format_inputs.
  cbn [py_is_seq py_len py_getitem length lookup list_lookup mbind result_bind negb].
  rewrite Hr. split_and!; try reflexivity.
  intros s. split; reflexivity.
Qed.

Lemma format_inputs_autowrap_witness :
  Network._format_inputs ex_env (ex_net "once") ex_heap
    (PTuple [PObj 0%nat; PStr "inp"; PFloat 1]) 5
  = Network._format_inputs ex_env (ex_net "once") ex_heap
      (PList [PTuple [PObj 0%nat; PStr "inp"; PFloat 1]]) 5.
Proof.
  exact (proj1 (format_inputs_autowrap ex_env (ex_net "once") ex_heap 0%nat
                  [PStr "inp"; PFloat 1] 5 eq_refl)).
Defined.

(** ** Exceptions of the input formatter and of the reuse path *)

Lemma format_inputs_not_duration_mismatch (env : Backend)
    (self : Network.Network) (h : Heap) (inputs : PyVal) (n : nat) :
  res_safe not_duration_mismatch (Network._format_inputs env self h inputs n).
Proof.
  unfold Network._format_inputs, Network.check_inp, Network.format_inp,
    py_len, py_getitem, py_in_keys, Network.getattr.
  safe.
Qed.

Lemma modify_obj_net_is (n0 : Network.Network) (b0 : nat) (E : exn -> Prop)
    (r : ref) (g : Obj -> Obj) :
  st_safe (net_is n0 b0) E (Network.modify_obj r g).
Proof. apply st_safe_modify. intros w [H1 H2]. split; assumption. Qed.

Lemma list_remove_not_duration_mismatch (x : string) (l : list string) :
  res_safe not_duration_mismatch (list_remove x l).
Proof. induction l as [|y l IH]; cbn [list_remove]; safe. exact IH. Qed.

Lemma broadcast_to_not_duration_mismatch (v : Tensor) (s : list nat) :
  res_safe not_duration_mismatch (jnp.broadcast_to v s).
Proof. unfold jnp.broadcast_to. safe. Qed.

Lemma reset_input_safe (n0 : Network.Network) (b0 : nat) (obj : ref)
    (all_keys : list string) (inp : FormatInp) :
  st_safe (net_is n0 b0) not_duration_mismatch (Network.reset_input obj all_keys inp).
Proof.
  unfold Network.reset_input. destruct inp as [[[key val] ops] data_type].
  safe;
    try apply modify_obj_net_is;
    try apply list_remove_not_duration_mismatch;
    try apply broadcast_to_not_duration_mismatch.
Qed.

Lemma call_step_safe (n0 : Network.Network) (b0 : nat) (f : StepFunc)
    (t : Q) (i : nat) (dt : Q) :
  (forall t i dt h, (f t i dt h).2 <> Raise Network.duration_mismatch) ->
  st_safe (net_is n0 b0) not_duration_mismatch (Network.call_step (Some f) t i dt).
Proof.
  intros Hf w [H1 H2]. cbn. split; [split; assumption|].
  intros e K Heq. subst e. exact (Hf _ _ _ _ K).
Qed.

Lemma ts_at_not_duration_mismatch (ts : list Q) (i : nat) :
  res_safe not_duration_mismatch (Network.ts_at ts i).
Proof. unfold Network.ts_at. safe. Qed.

Lemma run_loop_safe (env : Backend) (n0 : Network.Network) (b0 : nat)
    (f : StepFunc) (ts : list Q) (report : bool) (rp : Q) :
  Network._step_func n0 = Some f ->
  (forall t i dt h, (f t i dt h).2 <> Raise Network.duration_mismatch) ->
  st_safe (net_is n0 b0) not_duration_mismatch (Network.run_loop env ts report rp).
Proof.
  intros Hn Hf. unfold Network.run_loop.
  apply st_safe_get_bind. intros w [Hw _]. rewrite Hw, Hn.
  safe; try apply ts_at_not_duration_mismatch; try (apply call_step_safe; exact Hf).
Qed.

Lemma np_arange_not_duration_mismatch (a b : PyVal) (step : Q) :
  res_safe not_duration_mismatch (np_arange a b step).
Proof. unfold np_arange. safe. Qed.

Lemma run_monitor_safe (env : Backend) (n0 : Network.Network) (b0 : nat) :
  st_safe (net_is n0 b0) not_duration_mismatch (Network.run_monitor env).
Proof.
  unfold Network.run_monitor, Network.ts. safe;
    try apply np_arange_not_duration_mismatch; try apply modify_obj_net_is.
Qed.

(** The reset of the reuse path changes neither the network nor the build
    counter and does not raise the duration error. *)
Lemma run_reset_safe (env : Backend) (n0 : Network.Network) (b0 : nat)
    (w0 : Network.World) (inputs : PyVal) (run_length : nat) :
  st_safe (net_is n0 b0) not_duration_mismatch
    (Network.run_reset env w0 run_length inputs).
Proof.
  unfold Network.run_reset, Network.getattr.
  safe; try apply format_inputs_not_duration_mismatch;
    try apply reset_input_safe; try apply modify_obj_net_is.
Qed.

(** ** Repeat mode *)

Lemma np_arange_numbers (start end_ : PyVal) (a b step : Q) :
  py_number start = Some a -> py_number end_ = Some b -> ~ (step == 0)%Q ->
  np_arange start end_ step =
    Ok (map (fun i : nat => (a + inject_Z (Z.of_nat i) * step)%Q)
            (seq 0 (Z.to_nat (Qceiling ((b - a) / step))))).
Proof.
  intros Ha Hb Hstep. unfold np_arange. rewrite Ha, Hb.
  destruct (Qeq_bool step 0) eqn:E; [|reflexivity].
  apply Qeq_bool_iff in E. contradiction.
Qed.

(** C6: in repeat mode, once a step procedure [f] is stored together with
    the duration [D] of the run that built it, a later [run] over
    [(start, end)] raises the duration-mismatch error if and only if
    [end - start] differs from [D]; whatever the outcome, the stored step
    procedure stays [f], [build] is not called again, and [D] and the mode
    are kept, so the same holds for every later call. *)
Theorem run_repeat_duration_check (env : Backend) (w : Network.World)
    (duration inputs : PyVal) (report : bool) (report_percent : Q)
    (f : StepFunc) (start end_ : PyVal) (a b : Q) :
  Network.mode (Network.net w) = "repeat" ->
  Network._step_func (Network.net w) = Some f ->
  (forall t i dt h, (f t i dt h).2 <> Raise Network.duration_mismatch) ->
  Network.parse_duration duration = Ok (start, end_) ->
  py_number start = Some a ->
  py_number end_ = Some b ->
  ~ (get_dt env == 0)%Q ->
  let D := Network.t_duration (Network.net w) in
  let r := Network.run env duration inputs report report_percent w in
  (r.2 = Raise Network.duration_mismatch <-> ~ (b - a == D)%Q) /\
  Network._step_func (Network.net r.1) = Some f /\
  Network.builds r.1 = Network.builds w /\
  Network.t_duration (Network.net r.1) = D /\
  Network.mode (Network.net r.1) = "repeat".
Proof.
  intros Hmode Hf Hfsafe Hparse Ha Hb Hdt D r.
  set (w1 := Network.mkWorld (Network.set_times start end_ (Network.net w))
               (Network.heap w) (Network.trace w) (Network.builds w)).
  pose proof (np_arange_numbers start end_ a b (get_dt env) Ha Hb Hdt) as Hts.
  set (ts := map _ _) in Hts.
  assert (Hsub : Network.py_sub end_ start = (b - a)%Q).
  { unfold Network.py_sub. rewrite Ha, Hb. reflexivity. }
  (* the run up to the duration check *)
  assert (Hrun : r =
    (Network.run_reuse env start end_ (length ts) inputs ≫= fun _ =>
     Network.run_loop env ts report report_percent ≫= fun _ =>
     Network.run_monitor env) w1).
  { subst r. unfold Network.run. rewrite st_bind_eq. unfold st_lift at 1.
    rewrite Hparse. rewrite st_bind_eq. cbn [fst snd].
    unfold Network.modify_net at 1, st_modify at 1. fold w1.
    rewrite st_bind_eq. unfold st_lift at 1. rewrite Hts.
    rewrite (st_bind_eq (Network.run_build _ _ _ _ _)).
    rewrite (st_bind_eq (Network.run_reuse _ _ _ _ _)).
    unfold Network.run_build at 1. rewrite st_bind_eq. unfold st_get at 1.
    cbn [Network.net w1 Network.set_times Network.mode Network._step_func].
    rewrite Hmode, Hf. rewrite bool_decide_true by reflexivity.
    rewrite bool_decide_false by discriminate. reflexivity. }
  assert (Hsafe : st_safe (net_is (Network.net w1) (Network.builds w1))
                    not_duration_mismatch
                    (Network.run_reset env w1 (length ts) inputs ≫= fun _ =>
                     Network.run_loop env ts report report_percent ≫= fun _ =>
                     Network.run_monitor env)).
  { apply st_safe_bind; [apply run_reset_safe|intros _].
    apply st_safe_bind; [|intros _; apply run_monitor_safe].
    apply run_loop_safe with (f := f); [exact Hf|exact Hfsafe]. }
  assert (Hw1 : net_is (Network.net w1) (Network.builds w1) w1) by (split; reflexivity).
  destruct (Qeq_bool D (b - a)) eqn:E.
  - (* the duration matches *)
    assert (Hr : r =
      (Network.run_reset env w1 (length ts) inputs ≫= fun _ =>
       Network.run_loop env ts report report_percent ≫= fun _ =>
       Network.run_monitor env) w1).
    { rewrite Hrun. unfold Network.run_reuse. rewrite !st_bind_eq.
      unfold st_get at 1. rewrite !st_bind_eq.
      cbn [Network.net w1 Network.set_times Network.t_duration].
      fold D. rewrite Hsub, E. reflexivity. }
    apply Qeq_bool_iff in E.
    destruct (Hsafe w1 Hw1) as [[Hn Hbd] He]. rewrite <- Hr in Hn, Hbd, He.
    split_and!.
    + split; [intros K; exfalso; exact (He _ K eq_refl)|].
      intros K. exfalso. apply K. symmetry. exact E.
    + rewrite Hn. exact Hf.
    + rewrite Hbd. reflexivity.
    + rewrite Hn. reflexivity.
    + rewrite Hn. exact Hmode.
  - (* the duration differs *)
    assert (Hr : r = (w1, Raise Network.duration_mismatch)).
    { rewrite Hrun. unfold Network.run_reuse. rewrite !st_bind_eq.
      unfold st_get at 1. rewrite !st_bind_eq.
      cbn [Network.net w1 Network.set_times Network.t_duration].
      fold D. rewrite Hsub, E. reflexivity. }
    rewrite Hr. cbn [fst snd]. split_and!; try reflexivity.
    + split; [|reflexivity]. intros _ K.
      assert (Qeq_bool D (b - a) = true) by (apply Qeq_bool_iff; symmetry; exact K).
      congruence.
    + exact Hf.
    + exact Hmode.
Qed.

Lemma run_repeat_duration_check_witness :
  Network._step_func (Network.net ex_world_built) = Some ex_step /\
  Network.t_duration (Network.net ex_world_built) = 5%Q /\
  (Network.run ex_env (PInt 6) (PTuple []) false (1 # 10) ex_world_built).2
    = Raise Network.duration_mismatch /\
  (Network.run ex_env (PInt 5) (PTuple []) false (1 # 10) ex_world_built).2
    <> Raise Network.duration_mismatch.
Proof.
  assert (Hmode : Network.mode (Network.net ex_world_built) = "repeat")
    by (vm_compute; reflexivity).
  assert (Hf : Network._step_func (Network.net ex_world_built) = Some ex_step)
    by (vm_compute; reflexivity).
  assert (Hsafe : forall t i dt h,
            (ex_step t i dt h).2 <> Raise Network.duration_mismatch)
    by (intros; discriminate).
  assert (Hdt : ~ (get_dt ex_env == 0)%Q) by (intros K; discriminate K).
  destruct (run_repeat_duration_check ex_env ex_world_built (PInt 6) (PTuple [])
              false (1 # 10) ex_step (PInt 0) (PInt 6) 0 6
              Hmode Hf Hsafe eq_refl eq_refl eq_refl Hdt) as [[_ H6] _].
  destruct (run_repeat_duration_check ex_env ex_world_built (PInt 5) (PTuple [])
              false (1 # 10) ex_step (PInt 0) (PInt 5) 0 5
              Hmode Hf Hsafe eq_refl eq_refl eq_refl Hdt) as [[H5 _] _].
  split; [exact Hf|]. split; [vm_compute; reflexivity|]. split.
  - apply H6. vm_compute. discriminate.
  - intros K. apply H5 in K. apply K. vm_compute. reflexivity.
Defined.

(** ** The timestamps recorded by a run *)

Lemma modify_obj_run_frame (tr : list Q) (objs : list ref) (a b : PyVal)
    (E : exn -> Prop) (r : ref) (g : Obj -> Obj) :
  st_safe (run_frame tr objs a b) E (Network.modify_obj r g).
Proof. apply st_safe_modify. intros w H. exact H. Qed.

Lemma build_run_frame (env : Backend) (tr : list Q) (objs : list ref)
    (a b : PyVal) (n : nat) (inputs : PyVal) :
  st_safe (run_frame tr objs a b) any_exn (Network.build_counted env n inputs).
Proof.
  unfold Network.build_counted, Network.build, Network.count_build.
  safe; try apply modify_obj_run_frame; try (intros e _; exact I).
  apply st_safe_modify. intros w H. exact H.
Qed.

Lemma reset_input_run_frame (tr : list Q) (objs : list ref) (a b : PyVal)
    (obj : ref) (all_keys : list string) (inp : FormatInp) :
  st_safe (run_frame tr objs a b) any_exn (Network.reset_input obj all_keys inp).
Proof.
  unfold Network.reset_input. destruct inp as [[[key val] ops] data_type].
  safe; try apply modify_obj_run_frame; try (intros e _; exact I).
Qed.

Lemma run_build_run_frame (env : Backend) (tr : list Q) (objs : list ref)
    (a b : PyVal) (start end_ : PyVal) (n : nat) (inputs : PyVal) :
  st_safe (run_frame tr objs a b) any_exn
    (Network.run_build env start end_ n inputs).
Proof.
  unfold Network.run_build, Network.run_reuse, Network.run_reset, Network.modify_net.
  safe; try apply build_run_frame; try apply modify_obj_run_frame;
    try apply reset_input_run_frame; try (intros e _; exact I);
    try (apply st_safe_modify; intros ? K; exact K).
Qed.

Lemma call_step_ok (f : option StepFunc) (t : Q) (i : nat) (dt : Q)
    (w w' : Network.World) :
  Network.call_step f t i dt w = (w', Ok tt) ->
  Network.trace w' = Network.trace w ++ [t] /\ Network.net w' = Network.net w.
Proof.
  destruct f as [f|]; cbn; [|discriminate].
  intros K. injection K as <- _. split; reflexivity.
Qed.

Lemma ts_at_ok (ts : list Q) (i : nat) (t : Q) :
  Network.ts_at ts i = Ok t -> ts !! i = Some t.
Proof.
  unfold Network.ts_at. destruct (ts !! i); [|discriminate].
  intros K. injection K as <-. reflexivity.
Qed.

(** A loop over consecutive indices whose body steps once at [ts[i]]. *)
Lemma st_for_steps (ts : list Q) (body : nat -> StateErr Network.World unit) :
  (forall i w w', body i w = (w', Ok tt) ->
     exists t, ts !! i = Some t /\
       Network.trace w' = Network.trace w ++ [t] /\
       Network.net w' = Network.net w) ->
  forall n a w w',
    st_for (seq a n) body w = (w', Ok tt) ->
    Network.trace w' = Network.trace w ++ take n (drop a ts) /\
    Network.net w' = Network.net w.
Proof.
  intros Hbody. induction n as [|n IH]; intros a w w' Hrun; cbn [seq st_for] in Hrun.
  - injection Hrun as <-. cbn [take]. rewrite app_nil_r. split; reflexivity.
  - apply st_bind_ok in Hrun as ([] & w1 & H1 & H2).
    apply Hbody in H1 as (t & Ht & Htr & Hnet).
    apply IH in H2 as [Htr2 Hnet2].
    split; [|congruence].
    rewrite Htr2, Htr, <- app_assoc. f_equal.
    rewrite (drop_S ts t a Ht). reflexivity.
Qed.

Lemma run_loop_ok (env : Backend) (ts : list Q) (report : bool) (rp : Q)
    (w w' : Network.World) :
  Network.run_loop env ts report rp w = (w', Ok tt) ->
  Network.trace w' = Network.trace w ++ ts /\ Network.net w' = Network.net w.
Proof.
  unfold Network.run_loop. intros Hrun.
  apply st_bind_ok in Hrun as (w0 & w1 & H0 & Hrun).
  injection H0 as <- <-. destruct report.
  - apply st_bind_ok in Hrun as (t0 & w1 & H1 & Hrun).
    unfold st_lift in H1. injection H1 as <- H1. apply ts_at_ok in H1.
    apply st_bind_ok in Hrun as ([] & w2 & H2 & Hrun).
    apply call_step_ok in H2 as [Htr2 Hnet2].
    apply st_for_steps with (ts := ts) in Hrun as [Htr Hnet].
    + split; [|congruence]. rewrite Htr, Htr2, <- app_assoc. f_equal.
      destruct ts as [|t ts']; [discriminate H1|].
      injection H1 as ->. cbn [length drop app].
      replace (S (length ts') - 1)%nat with (length ts') by lia.
      rewrite drop_0, firstn_all. reflexivity.
    + intros i x x' Hb.
      apply st_bind_ok in Hb as (t & x1 & Hb1 & Hb).
      unfold st_lift in Hb1. injection Hb1 as <- Hb1. apply ts_at_ok in Hb1.
      apply st_bind_ok in Hb as ([] & x2 & Hb2 & Hb).
      apply call_step_ok in Hb2 as [Htr3 Hnet3].
      exists t. destruct (_ =? 0)%Z; [discriminate Hb|].
      injection Hb as <-. split_and!; assumption.
  - apply st_for_steps with (ts := ts) in Hrun as [Htr Hnet].
    + split; [|exact Hnet]. rewrite Htr, drop_0, firstn_all. reflexivity.
    + intros i x x' Hb.
      apply st_bind_ok in Hb as (t & x1 & Hb1 & Hb).
      unfold st_lift in Hb1. injection Hb1 as <- Hb1. apply ts_at_ok in Hb1.
      apply call_step_ok in Hb as [Htr3 Hnet3].
      exists t. split_and!; assumption.
Qed.

Lemma run_monitor_loop (env : Backend) (arr : Tensor) (objs : list ref) :
  forall w : Network.World,
    Network.ts env (Network.net w) = Ok arr ->
    exists w',
      st_for objs (fun obj =>
        w' ← st_get;
        times ← st_lift (Network.ts env (Network.net w'));
        Network.modify_obj obj (fun o => Network.set_mon (<["ts" := times]> (mon o)) o))
        w = (w', Ok tt) /\
      Network.net w' = Network.net w /\
      Network.trace w' = Network.trace w /\
      (forall o, mon (Network.heap w o) !! "ts" = Some arr ->
                 mon (Network.heap w' o) !! "ts" = Some arr) /\
      (forall o, o ∈ objs -> mon (Network.heap w' o) !! "ts" = Some arr).
Proof.
  induction objs as [|x xs IH]; intros w Hts.
  - exists w. cbn [st_for]. split_and!; try reflexivity; [auto|].
    intros o Ho. inversion Ho.
  - set (w1 := Network.mkWorld (Network.net w)
                 (heap_set (Network.heap w) x
                    (Network.set_mon (<["ts" := arr]> (mon (Network.heap w x)))
                       (Network.heap w x)))
                 (Network.trace w) (Network.builds w)).
    destruct (IH w1 Hts) as (w' & Hrun & Hnet & Htr & Hkeep & Hall).
    assert (Hx : mon (Network.heap w1 x) !! "ts" = Some arr).
    { cbn. unfold heap_set. rewrite decide_True by reflexivity. cbn.
      apply lookup_insert_eq. }
    exists w'. split_and!.
    + cbn [st_for]. rewrite st_bind_eq. rewrite st_bind_eq.
      unfold st_get at 1. rewrite st_bind_eq. unfold st_lift at 1.
      rewrite Hts. unfold Network.modify_obj at 1, st_modify at 1.
      fold w1. exact Hrun.
    + exact Hnet.
    + exact Htr.
    + intros o Ho. apply Hkeep. cbn. unfold heap_set.
      destruct (decide (o = x)) as [->|Hne]; [cbn; apply lookup_insert_eq|exact Ho].
    + intros o Ho. apply elem_of_cons in Ho as [->|Ho].
      * apply Hkeep. exact Hx.
      * apply Hall. exact Ho.
Qed.

Lemma runner_step_func_ok (times : list Q) :
  forall (acc : list (string * list Tensor))
         (r r' : IntegratorRunner.IntegratorRunner) out,
    st_fold (fun out_vars _t =>
               _ ← IntegratorRunner._step _t;
               self ← st_get;
               st_lift (for_each (fun acc k =>
                                    match assoc_get k (IntegratorRunner.variables self) with
                                    | Some v => Ok (assoc_append k v acc)
                                    | None => Raise (KeyError "self.variables[k]")
                                    end)
                                 (IntegratorRunner.monitors self) out_vars))
            times acc r = (r', Ok out) ->
    IntegratorRunner.trace r' = IntegratorRunner.trace r ++ times /\
    IntegratorRunner.dt r' = IntegratorRunner.dt r.
Proof.
  induction times as [|t times IH]; intros acc r r' out Hrun; cbn [st_fold] in Hrun.
  - injection Hrun as <- _. rewrite app_nil_r. split; reflexivity.
  - apply st_bind_ok in Hrun as (acc1 & r1 & H1 & Hrun).
    apply st_bind_ok in H1 as ([] & r2 & Hstep & H1).
    apply st_bind_ok in H1 as (r3 & r4 & Hget & H1).
    injection Hget as <- <-. unfold st_lift in H1. injection H1 as <- _.
    apply IH in Hrun as [Htr Hdt].
    unfold IntegratorRunner._step in Hstep.
    destruct (IntegratorRunner.target r _ _ _); [|discriminate Hstep].
    injection Hstep as <-. cbn in Htr, Hdt.
    split; [|exact Hdt]. rewrite Htr, <- app_assoc. reflexivity.
Qed.

(** C7, as stated, fails on the integrator runner ([_post]): for a run of
    duration 5 with [dt = 1] the timestamps used are [0, 1, 2, 3, 4], but
    the recorded [ts] is [1, 2, 3, 4, 5]. *)
Lemma runner_ts_shifted_by_dt :
  let r' := (IntegratorRunner.__call__ 5 None ex_runner).1 in
  (IntegratorRunner.__call__ 5 None ex_runner).2 = Ok tt /\
  IntegratorRunner.trace r' = [0; 1; 2; 3; 4]%Q /\
  IntegratorRunner.mon_ts r' = Some [1; 2; 3; 4; 5]%Q /\
  IntegratorRunner.mon_ts r' <> Some (IntegratorRunner.trace r').
Proof.
  cbn zeta. split_and!; try (vm_compute; reflexivity).
  vm_compute. discriminate.
Qed.

(** C7 (amended): when [Network.run] completes, the ghost trace has grown
    by exactly the timestamps [arange(start, end, dt)] of the requested
    duration, and the monitor of every object in [_all_objects] holds under
    [ts] the array of these timestamps.  When the integrator runner
    completes a run, its monitor holds under [ts] the timestamps used, each
    shifted by [dt]. *)
Theorem run_records_timestamps :
  (forall (env : Backend) (w w' : Network.World) (duration inputs : PyVal)
          (report : bool) (report_percent : Q),
     Network.run env duration inputs report report_percent w = (w', Ok tt) ->
     exists ts,
       Network.parse_duration duration
         = Ok (Network.t_start (Network.net w'), Network.t_end (Network.net w')) /\
       np_arange (Network.t_start (Network.net w')) (Network.t_end (Network.net w'))
                 (get_dt env) = Ok ts /\
       Network.trace w' = Network.trace w ++ ts /\
       forall obj, obj ∈ Network._all_objects (Network.net w') ->
                   mon (Network.heap w' obj) !! "ts" = Some (np_array1 ts)) /\
  (forall (r r' : IntegratorRunner.IntegratorRunner) (duration : Q)
          (start_t : option Q),
     IntegratorRunner.__call__ duration start_t r = (r', Ok tt) ->
     exists times,
       IntegratorRunner.trace r' = IntegratorRunner.trace r ++ times /\
       IntegratorRunner.mon_ts r'
         = Some (map (fun t => (t + IntegratorRunner.dt r)%Q) times)).
Proof.
  split.
  - intros env w w' duration inputs report rp Hrun. unfold Network.run in Hrun.
    apply st_bind_ok in Hrun as ([start end_] & w0 & Hparse & Hrun).
    unfold st_lift in Hparse. injection Hparse as <- Hparse.
    apply st_bind_ok in Hrun as ([] & w1 & Hset & Hrun).
    unfold Network.modify_net, st_modify in Hset. injection Hset as <-.
    cbn [fst snd] in Hrun.
    set (w1 := Network.mkWorld _ _ _ _) in Hrun.
    apply st_bind_ok in Hrun as (ts & w1' & Hts & Hrun).
    unfold st_lift in Hts. injection Hts as <- Hts.
    apply st_bind_ok in Hrun as ([] & w2 & Hbuild & Hrun).
    apply st_bind_ok in Hrun as ([] & w3 & Hloop & Hmon).
    assert (Hframe1 : run_frame (Network.trace w)
              (Network._all_objects (Network.net w)) start end_ w1)
      by (split_and!; reflexivity).
    destruct (run_build_run_frame env _ _ _ _ start end_ (length ts) inputs
                w1 Hframe1) as [Hframe2 _].
    rewrite Hbuild in Hframe2. cbn [fst] in Hframe2. destruct Hframe2 as (Htr2 & Hobjs2 & Ha2 & Hb2).
    apply run_loop_ok in Hloop as [Htr3 Hnet3].
    unfold Network.run_monitor in Hmon.
    apply st_bind_ok in Hmon as (w3' & w3'' & Hget & Hmon).
    injection Hget as <- <-.
    assert (Harr : Network.ts env (Network.net w3) = Ok (np_array1 ts)).
    { unfold Network.ts, Network.dt. rewrite Hnet3, Ha2, Hb2, Hts. reflexivity. }
    destruct (run_monitor_loop env (np_array1 ts)
                (Network._all_objects (Network.net w3)) w3 Harr)
      as (w4 & Hrun4 & Hnet4 & Htr4 & _ & Hall).
    rewrite Hrun4 in Hmon. injection Hmon as <-.
    exists ts. rewrite Hnet4, Hnet3, Ha2, Hb2. split_and!.
    + exact Hparse.
    + exact Hts.
    + rewrite Htr4, Htr3, Htr2. reflexivity.
    + rewrite <- Hnet3. exact Hall.
  - intros r r' duration start_t Hrun. unfold IntegratorRunner.__call__ in Hrun.
    apply st_bind_ok in Hrun as (r0 & r0' & Hget & Hrun).
    injection Hget as <- <-.
    apply st_bind_ok in Hrun as (times & r1 & Hts & Hrun).
    unfold st_lift in Hts. injection Hts as <- Hts.
    apply st_bind_ok in Hrun as (hists & r2 & Hstep & Hrun).
    unfold IntegratorRunner.step_func in Hstep.
    apply st_bind_ok in Hstep as (r0 & r0' & Hget & Hstep).
    injection Hget as <- <-.
    apply runner_step_func_ok in Hstep as [Htr Hdt].
    apply st_bind_ok in Hrun as ([] & r3 & Hpost & Hrun).
    unfold IntegratorRunner._post, st_modify in Hpost. injection Hpost as <-.
    unfold st_modify in Hrun. injection Hrun as <-. cbn.
    exists times. rewrite Htr, Hdt. split; reflexivity.
Qed.

Lemma run_records_timestamps_witness :
  let w' := (Network.run ex_env (PInt 5) (PTuple []) false (1 # 10) (ex_world "once")).1 in
  exists ts,
    Network.parse_duration (PInt 5)
      = Ok (Network.t_start (Network.net w'), Network.t_end (Network.net w')) /\
    np_arange (Network.t_start (Network.net w')) (Network.t_end (Network.net w'))
              (get_dt ex_env) = Ok ts /\
    Network.trace w' = [] ++ ts /\
    forall obj, obj ∈ Network._all_objects (Network.net w') ->
                mon (Network.heap w' obj) !! "ts" = Some (np_array1 ts).
Proof.
  cbn zeta.
  apply (proj1 run_records_timestamps ex_env (ex_world "once") _ (PInt 5)
           (PTuple []) false (1 # 10)).
  vm_compute. reflexivity.
Defined.

(** The end-to-end example: [run(duration=5)] with [dt = 1] records
    [ts = [0, 1, 2, 3, 4]] in every monitor, the timestamps it used. *)
Lemma run_five_steps_ts :
  let w' := (Network.run ex_env (PInt 5) (PTuple []) false (1 # 10) (ex_world "once")).1 in
  Network.trace w' = [0; 1; 2; 3; 4]%Q /\
  mon (Network.heap w' 0%nat) !! "ts" = Some (np_array1 [0; 1; 2; 3; 4]%Q) /\
  mon (Network.heap w' 1%nat) !! "ts" = Some (np_array1 [0; 1; 2; 3; 4]%Q).
Proof. cbn zeta. split_and!; vm_compute; reflexivity. Qed.

(** ** The first run builds the step procedure *)

Lemma build_net_is (env : Backend) (n0 : Network.Network) (b0 : nat) (n : nat)
    (inputs : PyVal) :
  st_safe (net_is n0 b0) any_exn (Network.build env n inputs).
Proof.
  unfold Network.build.
  safe; try apply modify_obj_net_is; try (intros e _; exact I).
Qed.

Lemma run_loop_net_is (env : Backend) (n0 : Network.Network) (b0 : nat)
    (ts : list Q) (report : bool) (rp : Q) :
  st_safe (net_is n0 b0) any_exn (Network.run_loop env ts report rp).
Proof.
  assert (Hcall : forall f t i dt,
            st_safe (net_is n0 b0) any_exn (Network.call_step f t i dt)).
  { intros [f|] t i dt; [|apply st_safe_raise; exact I].
    intros w [H1 H2]. cbn. split; [split; assumption|]. intros e _. exact I. }
  unfold Network.run_loop.
  safe; try apply Hcall; try (intros e _; exact I).
Qed.

Lemma run_monitor_net_is (env : Backend) (n0 : Network.Network) (b0 : nat) :
  st_safe (net_is n0 b0) any_exn (Network.run_monitor env).
Proof.
  unfold Network.run_monitor.
  safe; try apply modify_obj_net_is; try (intros e _; exact I).
Qed.

(** A run that finds no stored step procedure, or is not in repeat mode,
    calls [build] once and, when it completes, leaves the built step
    procedure and the duration [end - start] stored in the network. *)
Lemma run_first_build (env : Backend) (w w' : Network.World)
    (duration inputs : PyVal) (report : bool) (rp : Q) (start end_ : PyVal)
    (a b : Q) :
  Network.mode (Network.net w) <> "repeat" \/
    Network._step_func (Network.net w) = None ->
  Network.parse_duration duration = Ok (start, end_) ->
  py_number start = Some a ->
  py_number end_ = Some b ->
  Network.run env duration inputs report rp w = (w', Ok tt) ->
  (exists f, Network._step_func (Network.net w') = Some f) /\
  Network.t_duration (Network.net w') = (b - a)%Q /\
  Network.builds w' = S (Network.builds w) /\
  Network.mode (Network.net w') = Network.mode (Network.net w).
Proof.
  intros Hfirst Hparse Ha Hb Hrun. unfold Network.run in Hrun.
  apply st_bind_ok in Hrun as (times & w0 & Hp & Hrun).
  unfold st_lift in Hp. rewrite Hparse in Hp. injection Hp as <- <-.
  apply st_bind_ok in Hrun as ([] & w1 & Hset & Hrun).
  unfold Network.modify_net, st_modify in Hset. injection Hset as <-.
  cbn [fst snd] in Hrun. set (w1 := Network.mkWorld _ _ _ _) in Hrun.
  apply st_bind_ok in Hrun as (ts & w1' & Hts & Hrun).
  unfold st_lift in Hts. injection Hts as <- Hts.
  apply st_bind_ok in Hrun as ([] & w2 & Hbuild & Hrun).
  (* the build branch is taken *)
  unfold Network.run_build in Hbuild.
  apply st_bind_ok in Hbuild as (w1a & w1b & Hget & Hbuild).
  injection Hget as <- <-.
  assert (Hcond : negb (bool_decide (Network.mode (Network.net w1) = "repeat"))
                  || bool_decide (Network._step_func (Network.net w1) = None) = true).
  { cbn [Network.net w1 Network.set_times Network.mode Network._step_func].
    destruct Hfirst as [Hm|Hn].
    - rewrite bool_decide_false by exact Hm. reflexivity.
    - rewrite (bool_decide_true _ Hn). apply orb_true_r. }
  rewrite Hcond in Hbuild.
  apply st_bind_ok in Hbuild as (f & wb & Hb1 & Hbuild).
  unfold Network.build_counted in Hb1.
  apply st_bind_ok in Hb1 as ([] & wc & Hcount & Hb1).
  unfold Network.count_build, st_modify in Hcount. injection Hcount as <-.
  set (wc := Network.mkWorld _ _ _ _) in Hb1.
  destruct (build_net_is env (Network.net w1) (S (Network.builds w1))
              (length ts) inputs wc) as [[Hnb Hbb] _]; [split; reflexivity|].
  rewrite Hb1 in Hnb, Hbb. cbn [fst] in Hnb, Hbb.
  apply st_bind_ok in Hbuild as ([] & wd & Hm1 & Hm2).
  unfold Network.modify_net, st_modify in Hm1, Hm2.
  injection Hm1 as <-. injection Hm2 as <-.
  set (w2 := Network.mkWorld _ _ _ _) in Hrun.
  (* the loop and the monitor keep the network and the counter *)
  assert (Hrest : st_safe (net_is (Network.net w2) (Network.builds w2)) any_exn
                    (Network.run_loop env ts report rp ≫= fun _ =>
                     Network.run_monitor env)).
  { apply st_safe_bind; [apply run_loop_net_is|intros _; apply run_monitor_net_is]. }
  destruct (Hrest w2) as [[Hn Hbd] _]; [split; reflexivity|].
  rewrite Hrun in Hn, Hbd. cbn [fst] in Hn, Hbd.
  rewrite Hn, Hbd. cbn [Network.net w2 Network.builds].
  rewrite Hnb, Hbb.
  cbn [Network.set_t_duration Network.set_step_func Network._step_func
       Network.t_duration Network.mode Network.net w1 Network.set_times
       Network.builds].
  split_and!; try reflexivity.
  - exists f. reflexivity.
  - unfold Network.py_sub. rewrite Ha, Hb. reflexivity.
Qed.

(** ** Overrides in [NeuGroup.__call__] *)

(** The override loop iterates the dict itself, so it unpacks each key:
    whenever the first key of [vars_init] is a string that does not have
    exactly two characters, the call fails in the unpacking. *)
Lemma neugroup_vars_init_unpack (self : NeuGroup.NeuGroup) (geometry : PyVal)
    (k : string) (v : PyVal) (rest : list (PyVal * PyVal))
    (pars_update : option (list (PyVal * PyVal))) :
  String.length k <> 2%nat ->
  succeeds (NeuGroup.parse_geometry geometry) ->
  exists e, unpack_error e /\
    NeuGroup.__call__ self geometry (Some ((PStr k, v) :: rest)) pars_update = Raise e.
Proof.
  intros Hk [[g n] Hg]. unfold NeuGroup.__call__. rewrite Hg.
  cbn [mbind result_bind]. unfold NeuGroup.override_vars.
  cbn [for_each fst py_unpack2].
  destruct k as [|c1 [|c2 [|c3 k']]]; cbn [mbind result_bind];
    try (eexists; split; [|reflexivity]; unfold unpack_error; auto; fail).
  cbn in Hk. congruence.
Qed.

(** C9 at a failing input: the group defines the variable [V] and the
    parameter [tau]; overriding [V] through [vars_init = {'V': 1.0}] does
    not succeed, the call raises in the unpacking of the key; so does
    overriding [tau] through [pars_update = {'tau': 20.0}].  Without
    overrides the same call succeeds. *)
Theorem neugroup_override_rejected :
  NeuGroup.__call__ ex_group (PInt 3) (Some [(PStr "V", PFloat 1)]) (Some [])
    = Raise (ValueError "not enough values to unpack (expected 2)") /\
  NeuGroup.__call__ ex_group (PInt 3) (Some []) (Some [(PStr "tau", PFloat 20)])
    = Raise (ValueError "too many values to unpack (expected 2)") /\
  NeuGroup.__call__ ex_group (PInt 3) (Some []) (Some [])
    = Ok (NeuGroup.mkCalled 3 (PInt 1, PInt 3)
            [("V", mkTensor [3%nat] [0; 0; 0]%Q)]
            [(PStr "tau", PFloat 10)]).
Proof. split_and!; vm_compute; reflexivity. Qed.

(** * Further properties of the delay buffers *)

(** ** The length-based buffer as a delay line *)

Lemma mod_sub_shift (C i x : Z) :
  ((i mod C - x) mod C = (i - x) mod C)%Z.
Proof. apply Zminus_mod_idemp_l. Qed.

(** X1: a length-based buffer is a delay line.  After the samples [vs]
    were pushed by [update], a read with [steps_back = k] returns the
    sample pushed [k] calls before the last one, for every [k] below both
    the number of calls and the capacity; for [k] from the number of calls
    up to the capacity it returns what the ring held before the calls. *)
Theorem length_read_after_updates (checking : bool)
    (b : LengthDelay.LengthDelay) (vs : list Tensor) :
  LengthDelay.wf b ->
  Forall (fun v => tshape v = LengthDelay.shape b) vs ->
  let C := LengthDelay.num_delay_step b in
  let n := Z.of_nat (length vs) in
  exists b',
    LengthDelay.updates b vs = Ok b' /\
    (forall k : Z, (0 <= k < C)%Z -> (k < n)%Z ->
       exists v, vs !! Z.to_nat (n - 1 - k) = Some v /\
                 LengthDelay.__call__ checking b' k = Ok v) /\
    (forall k : Z, (0 <= k < C)%Z -> (n <= k)%Z ->
       LengthDelay.__call__ checking b' k
       = jnp.getitem (LengthDelay.data b) ((LengthDelay.idx b + n - 1 - k) mod C)).
Proof.
  intros Hwf Hsh C n.
  destruct (LengthDelay_updates_logged_run vs b [] 0 Hwf Hsh)
    as (b' & _ & Hup & Hwf' & HC' & _ & Hdata & Hidx).
  pose proof Hwf as [HC Hlen Hi0].
  destruct (ring_run_spec C vs (LengthDelay.data b) (LengthDelay.idx b) HC Hlen Hi0)
    as (Hidx2 & Hl2 & Hslots).
  fold C in Hdata, Hidx. rewrite <- Hdata in Hslots, Hl2. rewrite <- Hidx in Hidx2.
  fold n in Hidx2, Hslots.
  assert (Hcall : forall k : Z, (0 <= k < C)%Z ->
            LengthDelay.__call__ checking b' k
            = jnp.getitem (LengthDelay.data b') ((LengthDelay.idx b + n - 1 - k) mod C)).
  { intros k Hk. unfold LengthDelay.__call__, check_error_in_jit. rewrite HC'. fold C.
    destruct (C <=? k)%Z eqn:E; [apply Z.leb_le in E; lia|].
    assert (Hchk : (if checking then Ok tt else Ok tt) = (Ok tt : result unit))
      by (destruct checking; reflexivity).
    rewrite Hchk. cbn [mbind result_bind]. rewrite Hidx2.
    f_equal. replace ((LengthDelay.idx b + n) mod C - k - 1)%Z
      with ((LengthDelay.idx b + n) mod C - (k + 1))%Z by lia.
    rewrite mod_sub_shift. f_equal. lia. }
  assert (Hrange : forall k : Z,
            (0 <= (LengthDelay.idx b + n - 1 - k) mod C
             < Z.of_nat (length (LengthDelay.data b')))%Z).
  { intros k. rewrite Hl2, Hlen. apply slot_mod_range. exact HC. }
  exists b'. split; [exact Hup|]. split.
  - intros k Hk Hkn. rewrite (Hcall k Hk).
    destruct (jnp_getitem_in_range _ _ (Hrange k)) as (x & Hx & Hget).
    rewrite Hslots in Hx by exact Hk.
    destruct (k <? n)%Z eqn:E; [|apply Z.ltb_ge in E; lia].
    exists x. split; [exact Hx|exact Hget].
  - intros k Hk Hkn. rewrite (Hcall k Hk).
    destruct (jnp_getitem_in_range _ _ (Hrange k)) as (x & Hx & Hget).
    rewrite Hslots in Hx by exact Hk.
    destruct (k <? n)%Z eqn:E; [apply Z.ltb_lt in E; lia|].
    rewrite Hget. symmetry.
    destruct (jnp_getitem_in_range (LengthDelay.data b)
                ((LengthDelay.idx b + n - 1 - k) mod C)) as (y & Hy & Hgy).
    { rewrite Hlen. apply slot_mod_range. exact HC. }
    rewrite Hgy. congruence.
Qed.

Lemma length_read_after_updates_witness :
  exists b',
    LengthDelay.updates ring_example [mkTensor [] [1%Q]; mkTensor [] [2%Q]] = Ok b' /\
    LengthDelay.__call__ true b' 0 = Ok (mkTensor [] [2%Q]) /\
    LengthDelay.__call__ true b' 1 = Ok (mkTensor [] [1%Q]) /\
    LengthDelay.__call__ true b' 2 = Ok (mkTensor [] [0%Q]).
Proof.
  destruct (length_read_after_updates true ring_example
              [mkTensor [] [1%Q]; mkTensor [] [2%Q]])
    as (b' & Hup & Hnew & Hold).
  - split; cbn; lia.
  - repeat constructor.
  - exists b'. split; [exact Hup|].
    destruct (Hnew 0%Z ltac:(cbn; lia) ltac:(cbn; lia)) as (v0 & Hv0 & H0).
    destruct (Hnew 1%Z ltac:(cbn; lia) ltac:(cbn; lia)) as (v1 & Hv1 & H1).
    cbn in Hv0, Hv1. injection Hv0 as <-. injection Hv1 as <-.
    split; [exact H0|]. split; [exact H1|].
    rewrite (Hold 2%Z ltac:(cbn; lia) ltac:(cbn; lia)). reflexivity.
Defined.

(** ** Invariants of the buffers *)

Lemma for_each_inv {S X} (I : S -> Prop) (body : S -> X -> result S) (xs : list X) :
  (forall s x s', I s -> body s x = Ok s' -> I s') ->
  forall s s', I s -> for_each body xs s = Ok s' -> I s'.
Proof.
  intros Hb. induction xs as [|x xs IH]; intros s s' Hs Hrun; cbn [for_each] in Hrun.
  - injection Hrun as <-. exact Hs.
  - destruct (body s x) as [s1|e] eqn:E; cbn [mbind result_bind] in Hrun;
      [|discriminate].
    apply (IH s1 s'); [apply (Hb s x); assumption|exact Hrun].
Qed.

Lemma jnp_broadcast_to_shape (v v' : Tensor) (s : list nat) :
  jnp.broadcast_to v s = Ok v' -> tshape v' = s.
Proof.
  unfold jnp.broadcast_to. case_decide as Hs.
  - intros K. injection K as <-. exact Hs.
  - destruct (jnp.broadcast_vals _ _ _); [|discriminate].
    intros K. injection K as <-. reflexivity.
Qed.

Lemma jnp_setitem_shaped (s : list nat) (data data' : list Tensor) (i : Z)
    (v : Tensor) :
  ring_shaped s data -> jnp.setitem s data i v = Ok data' -> ring_shaped s data'.
Proof.
  intros Hd. unfold jnp.setitem.
  destruct (jnp.broadcast_to v s) as [v'|e] eqn:E; cbn [mbind result_bind];
    [|discriminate].
  apply jnp_broadcast_to_shape in E.
  destruct (_ && _); intros K; injection K as <-; [|exact Hd].
  apply Forall_insert; assumption.
Qed.

Lemma jnp_set_all_but_last_shaped (s : list nat) (data data' : list Tensor)
    (v : Tensor) :
  ring_shaped s data -> jnp.set_all_but_last s data v = Ok data' ->
  ring_shaped s data'.
Proof.
  intros Hd. unfold jnp.set_all_but_last.
  destruct (jnp.broadcast_to v _) as [v'|e]; cbn [mbind result_bind]; [|discriminate].
  intros K. injection K as <-. apply Forall_app. split.
  - apply Forall_map. apply Forall_forall. intros x _. reflexivity.
  - apply Forall_drop. exact Hd.
Qed.

Lemma jnp_zeros_ring_shaped (s : list nat) (n : nat) :
  ring_shaped s (replicate n (jnp.zeros s)).
Proof. apply Forall_replicate. reflexivity. Qed.

Lemma jnp_getitem_elem (data : list Tensor) (i : Z) (x : Tensor) :
  jnp.getitem data i = Ok x -> x ∈ data.
Proof.
  unfold jnp.getitem. destruct (data !! _) as [y|] eqn:E; [|discriminate].
  intros K. injection K as <-. apply list_elem_of_lookup. eauto.
Qed.

Lemma TimeDelay_init_inv (get_dt : Q) (target : Tensor) (len : Q)
    (before : option BeforeT0) (t0 : Q) (dt : option Q) (m : string)
    (b : TimeDelay.TimeDelay) :
  (0 < default get_dt dt)%Q ->
  TimeDelay.__init__ get_dt target len before t0 dt m = Ok b ->
  TimeDelay_inv b.
Proof.
  intros Hdt Hinit.
  destruct (TimeDelay_init_wf _ _ _ _ _ _ _ _ Hdt Hinit)
    as (Hwf & _ & _ & _ & _ & _ & Hshape).
  split; [exact Hwf| |].
  - revert Hinit. unfold TimeDelay.__init__.
    repeat (match goal with
            | |- context [if ?c then _ else _] => destruct c
            end; cbn [mbind result_bind]; try discriminate).
    pose proof (jnp_zeros_ring_shaped (tshape target)
                  (Z.to_nat (Qceiling (len / default get_dt dt) + 1))) as H0.
    destruct before as [[f|d]|]; cbn [mbind result_bind].
    + destruct (jnp.setitem _ _ _ _) as [d2|] eqn:E2; cbn [mbind result_bind];
        [|discriminate].
      intros K. injection K as <-. cbn. eapply jnp_setitem_shaped; eassumption.
    + destruct (jnp.set_all_but_last _ _ _) as [d1|] eqn:E1;
        cbn [mbind result_bind]; [|discriminate].
      destruct (jnp.setitem _ _ _ _) as [d2|] eqn:E2; cbn [mbind result_bind];
        [|discriminate].
      intros K. injection K as <-. cbn.
      eapply jnp_setitem_shaped; [|eassumption].
      eapply jnp_set_all_but_last_shaped; eassumption.
    + destruct (jnp.setitem _ _ _ _) as [d2|] eqn:E2; cbn [mbind result_bind];
        [|discriminate].
      intros K. injection K as <-. cbn. eapply jnp_setitem_shaped; eassumption.
  - revert Hinit. unfold TimeDelay.__init__.
    repeat (match goal with
            | |- context [if ?c then _ else _] => destruct c
            end; cbn [mbind result_bind]; try discriminate).
    destruct before as [[f|d]|]; cbn [mbind result_bind].
    + destruct (jnp.setitem _ _ _ _); cbn [mbind result_bind]; [|discriminate].
      intros K. injection K as <-. cbn. intros t r. apply jnp_broadcast_to_shape.
    + destruct (jnp.set_all_but_last _ _ _); cbn [mbind result_bind]; [|discriminate].
      destruct (jnp.setitem _ _ _ _); cbn [mbind result_bind]; [|discriminate].
      intros K. injection K as <-. cbn. intros t r Hr. injection Hr as <-. reflexivity.
    + destruct (jnp.setitem _ _ _ _); cbn [mbind result_bind]; [|discriminate].
      intros K. injection K as <-. cbn. intros t r Hr. injection Hr as <-. reflexivity.
Qed.

Lemma TimeDelay_update_inv (b b' : TimeDelay.TimeDelay) (t : Q) (v : Tensor) :
  TimeDelay_inv b -> TimeDelay.update b t v = Ok b' -> TimeDelay_inv b'.
Proof.
  intros [[HC Hlen Hidx] Hsh Hbf]. unfold TimeDelay.update.
  destruct (jnp.setitem _ _ _ _) as [d|e] eqn:E; cbn [mbind result_bind];
    [|discriminate].
  intros K. injection K as <-.
  split; [split|..]; cbn.
  - exact HC.
  - rewrite (jnp_setitem_length _ _ _ _ _ E). exact Hlen.
  - apply slot_mod_range. exact HC.
  - eapply jnp_setitem_shaped; eassumption.
  - exact Hbf.
Qed.

Lemma LengthDelay_init_inv (target : Tensor) (len : Z)
    (init : option InitialDelayData) (b : LengthDelay.LengthDelay) :
  LengthDelay.__init__ target len init = Ok b -> LengthDelay_inv b.
Proof.
  intros Hinit.
  destruct (LengthDelay_init_wf _ _ _ _ Hinit) as (Hwf & _ & _ & Hshape).
  split; [exact Hwf|]. revert Hinit.
  unfold LengthDelay.__init__, LengthDelay.reset.
  destruct (len <? 0)%Z; cbn [mbind result_bind]; [discriminate|].
  pose proof (jnp_zeros_ring_shaped (tshape target) (Z.to_nat (len + 1))) as H0.
  destruct (jnp.setitem _ _ _ _) as [d1|] eqn:E1; cbn [mbind result_bind];
    [|discriminate].
  pose proof (jnp_setitem_shaped _ _ _ _ _ H0 E1) as H1.
  destruct init as [[d|g]|]; cbn [mbind result_bind].
  - destruct (jnp.set_all_but_last _ _ _) as [d2|] eqn:E2;
      cbn [mbind result_bind]; [|discriminate].
    intros K. injection K as <-. cbn.
    eapply jnp_set_all_but_last_shaped; eassumption.
  - destruct (jnp.set_all_but_last _ _ _) as [d2|] eqn:E2;
      cbn [mbind result_bind]; [|discriminate].
    intros K. injection K as <-. cbn.
    eapply jnp_set_all_but_last_shaped; eassumption.
  - intros K. injection K as <-. cbn. exact H1.
Qed.

Lemma LengthDelay_update_inv (b b' : LengthDelay.LengthDelay) (v : Tensor) :
  LengthDelay_inv b -> LengthDelay.update b v = Ok b' -> LengthDelay_inv b'.
Proof.
  intros [[HC Hlen Hidx] Hsh]. unfold LengthDelay.update.
  case_decide; [discriminate|].
  destruct (jnp.setitem _ _ _ _) as [d|e] eqn:E; cbn [mbind result_bind];
    [|discriminate].
  intros K. injection K as <-.
  split; [split|]; cbn.
  - exact HC.
  - rewrite (jnp_setitem_length _ _ _ _ _ E). exact Hlen.
  - apply slot_mod_range. exact HC.
  - eapply jnp_setitem_shaped; eassumption.
Qed.

(** X2: every time-based buffer made by the constructor (with a positive
    time step) and any sequence of successful updates is well-formed, all
    its slots have the buffer's shape, and every read that returns, returns
    a tensor of the buffer's shape. *)
Theorem time_delay_invariant (get_dt : Q) (target : Tensor) (len : Q)
    (before : option BeforeT0) (t0 : Q) (dt : option Q) (m : string)
    (tvs : list (Q * Tensor)) (b0 b : TimeDelay.TimeDelay) :
  (0 < default get_dt dt)%Q ->
  TimeDelay.__init__ get_dt target len before t0 dt m = Ok b0 ->
  TimeDelay.updates b0 tvs = Ok b ->
  TimeDelay.wf b /\
  TimeDelay.shape b = tshape target /\
  ring_shaped (tshape target) (TimeDelay.data b) /\
  forall checking t r,
    TimeDelay.__call__ checking b t = Ok r -> tshape r = tshape target.
Proof.
  intros Hdt Hinit Hup.
  pose proof (TimeDelay_init_inv _ _ _ _ _ _ _ _ Hdt Hinit) as Hinv0.
  destruct (TimeDelay_init_wf _ _ _ _ _ _ _ _ Hdt Hinit)
    as (_ & _ & _ & _ & _ & _ & Hshape0).
  assert (Hinv : TimeDelay_inv b /\ TimeDelay.shape b = tshape target).
  { unfold TimeDelay.updates in Hup.
    refine (for_each_inv
              (fun x => TimeDelay_inv x /\ TimeDelay.shape x = tshape target)
              _ tvs _ b0 b _ Hup); [|split; assumption].
    intros s x s' [Hi Hs] Hu. split; [eapply TimeDelay_update_inv; eassumption|].
    revert Hu. unfold TimeDelay.update.
    destruct (jnp.setitem _ _ _ _); cbn [mbind result_bind]; [|discriminate].
    intros K. injection K as <-. exact Hs. }
  destruct Hinv as [[Hwf Hsh Hbf] Hshape]. rewrite Hshape in Hsh, Hbf.
  split_and!; try assumption.
  intros checking t r Hcall.
  assert (Hafter : forall r, TimeDelay._after_t0 b t = Ok r -> tshape r = tshape target).
  { assert (Hget : forall i r0, jnp.getitem (TimeDelay.data b) i = Ok r0 ->
                                tshape r0 = tshape target).
    { intros i r0 Hr. apply jnp_getitem_elem in Hr.
      exact (proj1 (Forall_forall _ _) Hsh _ Hr). }
    intros r0. unfold TimeDelay._after_t0, TimeDelay._true_fn, TimeDelay._false_fn.
    cbn zeta.
    destruct (bool_decide (TimeDelay.interp_method b = _INTERP_LINEAR)).
    - destruct (Qeq_bool _ _); [apply Hget|].
      repeat (destruct (jnp.getitem _ _); cbn [mbind result_bind]);
        try discriminate.
      intros Hr. injection Hr as <-. exact Hshape.
    - destruct (bool_decide (TimeDelay.interp_method b = _INTERP_ROUND));
        [apply Hget|discriminate]. }
  revert Hcall. unfold TimeDelay.__call__.
  destruct (if checking then _ else _) as [[]|e]; cbn [mbind result_bind];
    [|discriminate].
  case_bool_decide; [destruct (Qltb t (TimeDelay.t0 b))|]; try apply Hafter.
  apply Hbf.
Qed.

(** X3: every length-based buffer made by the constructor and any sequence
    of successful updates is well-formed, all its slots have the buffer's
    shape, and every read that returns, returns a tensor of that shape. *)
Theorem length_delay_invariant (target : Tensor) (len : Z)
    (init : option InitialDelayData) (vs : list Tensor)
    (b0 b : LengthDelay.LengthDelay) :
  LengthDelay.__init__ target len init = Ok b0 ->
  LengthDelay.updates b0 vs = Ok b ->
  LengthDelay.wf b /\
  LengthDelay.shape b = tshape target /\
  LengthDelay.num_delay_step b = (len + 1)%Z /\
  ring_shaped (tshape target) (LengthDelay.data b) /\
  forall checking k r,
    LengthDelay.__call__ checking b k = Ok r -> tshape r = tshape target.
Proof.
  intros Hinit Hup.
  pose proof (LengthDelay_init_inv _ _ _ _ Hinit) as Hinv0.
  destruct (LengthDelay_init_wf _ _ _ _ Hinit) as (_ & HC0 & _ & Hshape0).
  assert (Hinv : LengthDelay_inv b /\ LengthDelay.shape b = tshape target /\
                 LengthDelay.num_delay_step b = (len + 1)%Z).
  { unfold LengthDelay.updates in Hup.
    refine (for_each_inv
              (fun x => LengthDelay_inv x /\ LengthDelay.shape x = tshape target /\
                        LengthDelay.num_delay_step x = (len + 1)%Z)
              _ vs _ b0 b _ Hup); [|split_and!; assumption].
    intros s x s' (Hi & Hs & Hn) Hu. split; [eapply LengthDelay_update_inv; eassumption|].
    revert Hu. unfold LengthDelay.update. case_decide; [discriminate|].
    destruct (jnp.setitem _ _ _ _); cbn [mbind result_bind]; [|discriminate].
    intros K. injection K as <-. split; assumption. }
  destruct Hinv as ([Hwf Hsh] & Hshape & HC). rewrite Hshape in Hsh.
  split_and!; try assumption.
  intros checking k r. unfold LengthDelay.__call__.
  destruct (if checking then _ else _) as [[]|e]; cbn [mbind result_bind];
    [|discriminate].
  intros Hr. apply jnp_getitem_elem in Hr.
  exact (proj1 (Forall_forall _ _) Hsh _ Hr).
Qed.

Lemma time_delay_invariant_witness :
  exists b0 b,
    TimeDelay.__init__ 1 (mkTensor [] [7%Q]) 1 None 0 None _INTERP_LINEAR = Ok b0 /\
    TimeDelay.updates b0 [(1%Q, mkTensor [] [8%Q]); (2%Q, mkTensor [] [9%Q])] = Ok b /\
    TimeDelay.wf b /\
    forall checking t r,
      TimeDelay.__call__ checking b t = Ok r -> tshape r = [].
Proof.
  destruct (TimeDelay.__init__ 1 (mkTensor [] [7%Q]) 1 None 0 None _INTERP_LINEAR)
    as [b0|e] eqn:E0; [|vm_compute in E0; discriminate E0].
  destruct (TimeDelay.updates b0
              [(1%Q, mkTensor [] [8%Q]); (2%Q, mkTensor [] [9%Q])])
    as [b|e] eqn:E1.
  - exists b0, b. split; [reflexivity|]. split; [exact E1|].
    destruct (time_delay_invariant 1 (mkTensor [] [7%Q]) 1 None 0 None
                _INTERP_LINEAR _ b0 b eq_refl E0 E1) as (Hwf & _ & _ & Hread).
    split; [exact Hwf|exact Hread].
  - vm_compute in E0. injection E0 as <-. vm_compute in E1. discriminate E1.
Defined.

Lemma length_delay_invariant_witness :
  exists b0 b,
    LengthDelay.__init__ (mkTensor [2%nat] [1%Q; 2%Q]) 2 None = Ok b0 /\
    LengthDelay.updates b0 [mkTensor [2%nat] [3%Q; 4%Q]] = Ok b /\
    LengthDelay.wf b /\
    LengthDelay.num_delay_step b = 3%Z /\
    forall checking k r,
      LengthDelay.__call__ checking b k = Ok r -> tshape r = [2%nat].
Proof.
  destruct (LengthDelay.__init__ (mkTensor [2%nat] [1%Q; 2%Q]) 2 None)
    as [b0|e] eqn:E0; [|vm_compute in E0; discriminate E0].
  destruct (LengthDelay.updates b0 [mkTensor [2%nat] [3%Q; 4%Q]])
    as [b|e] eqn:E1.
  - exists b0, b. split; [reflexivity|]. split; [exact E1|].
    destruct (length_delay_invariant (mkTensor [2%nat] [1%Q; 2%Q]) 2 None
                _ b0 b E0 E1) as (Hwf & _ & HC & _ & Hread).
    split; [exact Hwf|]. split; [exact HC|exact Hread].
  - vm_compute in E0. injection E0 as <-. vm_compute in E1. discriminate E1.
Defined.

(** ** The layout of a fresh length-based buffer *)

Lemma chunks_lookup {A} (n sz : nat) :
  forall (l : list A) (j : nat), (j < n)%nat ->
    chunks n sz l !! j = Some (take sz (drop (j * sz) l)).
Proof.
  induction n as [|n IH]; intros l j Hj; [lia|].
  destruct j as [|j]; cbn [chunks].
  - reflexivity.
  - change (chunks n sz (drop sz l) !! j
            = Some (take sz (drop (S j * sz) l))).
    rewrite (IH (drop sz l) j) by lia.
    rewrite drop_drop. do 3 f_equal; lia.
Qed.

Lemma jnp_setitem_last (s : list nat) (data : list Tensor) (v : Tensor) :
  tshape v = s -> (0 < length data)%nat ->
  jnp.setitem s data (-1) v = Ok (<[(length data - 1)%nat := v]> data).
Proof.
  intros Hs Hn. unfold jnp.setitem. rewrite <- Hs, jnp_broadcast_same.
  cbn [mbind result_bind]. unfold jnp.norm_index. cbn [Z.ltb Z.compare].
  replace ((0 <=? -1 + Z.of_nat (length data))
           && (-1 + Z.of_nat (length data) <? Z.of_nat (length data)))%Z
    with true by (symmetry; apply andb_true_iff; split; lia).
  do 2 f_equal. lia.
Qed.

(** X4: a buffer built with initial data of shape [(delay_len,) + shape]
    returns the delay target for delay [0] and row [delay_len - k] of the
    initial data for a delay [1 <= k <= delay_len]: the rows are stored
    oldest first. *)
Theorem length_init_layout (checking : bool) (target d : Tensor) (len : Z) :
  (0 <= len)%Z ->
  tshape d = Z.to_nat len :: tshape target ->
  exists b,
    LengthDelay.__init__ target len (Some (InitData d)) = Ok b /\
    LengthDelay.__call__ checking b 0 = Ok target /\
    forall k : Z, (1 <= k <= len)%Z ->
      LengthDelay.__call__ checking b k
      = Ok (tensor_row (tshape target) d (Z.to_nat (len - k))).
Proof.
  intros Hlen Hd.
  unfold LengthDelay.__init__, LengthDelay.reset.
  destruct (len <? 0)%Z eqn:E; [lia|]. cbn [mbind result_bind].
  set (s := tshape target) in *.
  rewrite jnp_setitem_last by (try reflexivity; rewrite length_replicate; lia).
  cbn [mbind result_bind]. rewrite length_replicate.
  unfold jnp.set_all_but_last. rewrite length_insert, length_replicate.
  replace (Z.to_nat (len + 1) - 1)%nat with (Z.to_nat len) by lia.
  rewrite <- Hd, jnp_broadcast_same. cbn [mbind result_bind].
  eexists. split; [reflexivity|].
  set (rows := map (mkTensor s) (chunks (Z.to_nat len) (prod_shape s) (tvals d))).
  set (rest := drop (Z.to_nat len) _).
  assert (Hrows : length rows = Z.to_nat len)
    by (unfold rows; rewrite length_map, length_chunks; reflexivity).
  assert (Hrest : rest = [target]).
  { unfold rest. rewrite drop_insert_ge by lia.
    rewrite drop_replicate.
    replace (Z.to_nat (len + 1) - Z.to_nat len)%nat with 1%nat by lia.
    rewrite Nat.sub_diag. reflexivity. }
  rewrite Hrest.
  assert (Hget : forall k : Z, (0 <= k <= len)%Z ->
            LengthDelay.__call__ checking
              (LengthDelay.mk (len + 1) s 0 (rows ++ [target])) k
            = jnp.getitem (rows ++ [target]) (len - k)).
  { intros k Hk. unfold LengthDelay.__call__. cbn [LengthDelay.num_delay_step
      LengthDelay.idx LengthDelay.data].
    replace (if checking then _ else _) with (Ok tt : result unit).
    2:{ destruct checking; [|reflexivity]. unfold check_error_in_jit.
        destruct (len + 1 <=? k)%Z eqn:E2; [lia|reflexivity]. }
    cbn [mbind result_bind]. f_equal.
    replace (0 - k - 1)%Z with ((len - k) + (-1) * (len + 1))%Z by lia.
    rewrite Z.mod_add by lia. apply Z.mod_small. lia. }
  assert (Hlk : forall j : Z, (0 <= j <= len)%Z ->
            jnp.getitem (rows ++ [target]) j
            = match (rows ++ [target]) !! Z.to_nat j with
              | Some x => Ok x
              | None => Raise (IndexError "index is out of bounds for axis 0 with size 0")
              end).
  { intros j Hj. unfold jnp.getitem, jnp.norm_index.
    rewrite length_app, Hrows. cbn [length].
    destruct (j <? 0)%Z eqn:E3; [lia|].
    replace (Z.max 0 (Z.min (Z.of_nat (Z.to_nat len + 1) - 1) j)) with j by lia.
    reflexivity. }
  split.
  - rewrite Hget, Hlk by lia. rewrite Z.sub_0_r.
    rewrite lookup_app_r by lia. rewrite Hrows, Nat.sub_diag. reflexivity.
  - intros k Hk. rewrite Hget, Hlk by lia.
    rewrite lookup_app_l by lia. unfold rows.
    rewrite list_lookup_fmap, chunks_lookup by lia. reflexivity.
Qed.

Lemma length_init_layout_witness :
  exists b,
    LengthDelay.__init__ (mkTensor [] [9%Q]) 2
      (Some (InitData (mkTensor [2%nat] [5%Q; 6%Q]))) = Ok b /\
    LengthDelay.__call__ true b 0 = Ok (mkTensor [] [9%Q]) /\
    LengthDelay.__call__ true b 1 = Ok (mkTensor [] [6%Q]) /\
    LengthDelay.__call__ true b 2 = Ok (mkTensor [] [5%Q]).
Proof.
  destruct (length_init_layout true (mkTensor [] [9%Q])
              (mkTensor [2%nat] [5%Q; 6%Q]) 2 ltac:(lia) eq_refl)
    as (b & Hb & H0 & Hk).
  exists b. split; [exact Hb|]. split; [exact H0|]. split.
  - exact (Hk 1%Z ltac:(lia)).
  - exact (Hk 2%Z ltac:(lia)).
Defined.

(** ** Which samples a time-based read returns *)

Lemma TimeDelay_updates_static (b b' : TimeDelay.TimeDelay)
    (tvs : list (Q * Tensor)) :
  TimeDelay.updates b tvs = Ok b' ->
  TimeDelay.dt b' = TimeDelay.dt b /\
  TimeDelay.delay_len b' = TimeDelay.delay_len b /\
  TimeDelay.interp_method b' = TimeDelay.interp_method b /\
  TimeDelay._before_type b' = TimeDelay._before_type b /\
  TimeDelay._before_t0 b' = TimeDelay._before_t0 b /\
  TimeDelay.t0 b' = TimeDelay.t0 b /\
  TimeDelay.shape b' = TimeDelay.shape b /\
  TimeDelay.num_delay_step b' = TimeDelay.num_delay_step b.
Proof.
  unfold TimeDelay.updates. intros Hup.
  refine (for_each_inv
            (fun x => TimeDelay.dt x = TimeDelay.dt b /\
                      TimeDelay.delay_len x = TimeDelay.delay_len b /\
                      TimeDelay.interp_method x = TimeDelay.interp_method b /\
                      TimeDelay._before_type x = TimeDelay._before_type b /\
                      TimeDelay._before_t0 x = TimeDelay._before_t0 b /\
                      TimeDelay.t0 x = TimeDelay.t0 b /\
                      TimeDelay.shape x = TimeDelay.shape b /\
                      TimeDelay.num_delay_step x = TimeDelay.num_delay_step b)
            _ tvs _ b b' _ Hup); [|split_and!; reflexivity].
  intros s x s' Hs. unfold TimeDelay.update.
  destruct (jnp.setitem _ _ _ _); cbn [mbind result_bind]; [|discriminate].
  intros K. injection K as <-. exact Hs.
Qed.

Lemma Qfloor_remainder (e dt : Q) :
  (0 < dt)%Q ->
  (0 <= e - inject_Z (Qfloor (e / dt)) * dt)%Q /\
  (e - inject_Z (Qfloor (e / dt)) * dt < dt)%Q.
Proof.
  intros Hdt.
  pose proof (Qfloor_le (e / dt)) as Hlo.
  pose proof (Qlt_floor (e / dt)) as Hhi.
  rewrite inject_Z_plus in Hhi. change (inject_Z 1) with 1%Q in Hhi.
  assert (He : (e == (e / dt) * dt)%Q) by (field; lra).
  set (q := (e / dt)%Q) in *. set (s := inject_Z (Qfloor q)) in *.
  split.
  - assert (H : (s * dt <= q * dt)%Q) by (apply Qmult_le_compat_r; lra). lra.
  - assert (H : (q * dt < (s + 1) * dt)%Q) by (apply Qmult_lt_compat_r; lra). lra.
Qed.

Lemma Qfloor_steps_range (e len dt : Q) :
  (0 < dt)%Q -> (0 <= e)%Q -> (e <= len)%Q ->
  let steps := Qfloor (e / dt) in
  let cap := Qceiling (len / dt) in
  (0 <= steps <= cap)%Z /\
  (~ (e - inject_Z steps * dt == 0)%Q -> (steps < cap)%Z).
Proof.
  intros Hdt He Hlen steps cap.
  destruct (Qfloor_remainder e dt Hdt) as [Hr0 Hr1]. fold steps in Hr0, Hr1.
  destruct (Qceiling_span len dt Hdt) as [Hc0 Hc1]. fold cap in Hc0, Hc1.
  assert (Hs0 : (0 <= steps)%Z).
  { unfold steps. change 0%Z with (Qfloor 0). apply Qfloor_resp_le.
    apply Qle_shift_div_l; [exact Hdt|]. lra. }
  assert (Hle : (inject_Z steps * dt <= inject_Z cap * dt)%Q) by lra.
  apply Qmult_le_r in Hle; [|exact Hdt]. rewrite <- Zle_Qle in Hle.
  split; [lia|].
  intros Hne. destruct (Z.eq_dec steps cap) as [Heq|]; [|lia].
  exfalso. apply Hne. rewrite Heq in *. lra.
Qed.

Lemma TimeDelay_ring_after_updates (b b' : TimeDelay.TimeDelay)
    (tvs : list (Q * Tensor)) :
  TimeDelay.wf b ->
  Forall (fun tv => tshape tv.2 = TimeDelay.shape b) tvs ->
  TimeDelay.updates b tvs = Ok b' ->
  let C := TimeDelay.num_delay_step b in
  let n := Z.of_nat (length tvs) in
  (C <= n)%Z ->
  forall j : Z, (0 <= j <= C - 1)%Z ->
    exists x, map snd tvs !! Z.to_nat (n - C + j) = Some x /\
      jnp.getitem (TimeDelay.data b') ((TimeDelay.idx b' + j) mod C) = Ok x.
Proof.
  intros Hwf Hsh Hup C n Hn j Hj.
  destruct (TimeDelay_updates_logged_run tvs b [] 0%nat Hwf Hsh)
    as (b2 & _ & Hup2 & Hwf' & _ & _ & Hdata & Hidx & _).
  rewrite Hup in Hup2. injection Hup2 as <-.
  destruct Hwf as [HCpos Hlen Hidx0].
  destruct (ring_run_spec C (map snd tvs) (TimeDelay.data b) (TimeDelay.idx b)
              HCpos Hlen Hidx0) as (Hi & Hl & Hslots).
  cbn zeta in Hi, Hl, Hslots. rewrite length_map in Hi, Hslots.
  fold n in Hi, Hslots. fold C in Hdata, Hidx.
  rewrite <- Hdata in Hl, Hslots. rewrite <- Hidx in Hi.
  assert (Hrange : (0 <= (TimeDelay.idx b' + j) mod C
                    < Z.of_nat (length (TimeDelay.data b')))%Z).
  { rewrite Hl, Hlen. apply slot_mod_range. exact HCpos. }
  destruct (jnp_getitem_in_range _ _ Hrange) as (x & Hx & Hget).
  exists x. split; [|exact Hget].
  specialize (Hslots (C - 1 - j)%Z ltac:(lia)).
  replace ((TimeDelay.idx b + n - 1 - (C - 1 - j)) mod C)%Z
    with ((TimeDelay.idx b' + j) mod C)%Z in Hslots.
  2:{ rewrite Hi, Zplus_mod_idemp_l.
      replace (TimeDelay.idx b + n - 1 - (C - 1 - j))%Z
        with (TimeDelay.idx b + n + j + (-1) * C)%Z by lia.
      rewrite Z.mod_add by lia. reflexivity. }
  destruct (C - 1 - j <? n)%Z eqn:E; [|lia].
  rewrite Hx in Hslots.
  replace (n - C + j)%Z with (n - 1 - (C - 1 - j))%Z by lia.
  symmetry. exact Hslots.
Qed.

(** X5: after at least [num_delay_step] updates, a linear-interpolation read
    at a time inside the window is computed from the pushed samples alone.
    With [steps] whole time steps and [remainder] elapsed since the oldest
    instant of the window: when the remainder is zero and the unwrapped
    index [write_index + steps] stays inside the ring, it is the sample
    pushed [C - 1 - steps] updates before the last one; when the remainder
    is zero and the unwrapped index reaches the capacity, it is the content
    of the last slot of the array, the sample pushed [write_index] updates
    before the last one; and when the remainder is not zero, it is the
    interpolation of the sample pushed [C - 1 - steps] updates before the
    last one and the next one. *)
Theorem time_read_after_updates (checking : bool)
    (b b' : TimeDelay.TimeDelay) (tvs : list (Q * Tensor)) (t : Q) :
  TimeDelay.wf b ->
  Forall (fun tv => tshape tv.2 = TimeDelay.shape b) tvs ->
  TimeDelay.updates b tvs = Ok b' ->
  TimeDelay.interp_method b = _INTERP_LINEAR ->
  TimeDelay.num_delay_step b
    = (Qceiling (TimeDelay.delay_len b / TimeDelay.dt b) + 1)%Z ->
  (0 < TimeDelay.dt b)%Q ->
  (TimeDelay._before_type b = _FUNC_BEFORE -> (TimeDelay.t0 b <= t)%Q) ->
  (TimeDelay.current_time b' - TimeDelay.delay_len b <= t)%Q ->
  (t <= TimeDelay.current_time b')%Q ->
  let C := TimeDelay.num_delay_step b in
  let n := Z.of_nat (length tvs) in
  (C <= n)%Z ->
  let elapsed := (TimeDelay.delay_len b - (TimeDelay.current_time b' - t))%Q in
  let steps := Qfloor (elapsed / TimeDelay.dt b) in
  let remainder := (elapsed - inject_Z steps * TimeDelay.dt b)%Q in
  let sample (j : Z) := map snd tvs !! Z.to_nat (n - C + j) in
  (0 <= steps <= C - 1)%Z /\
  (0 <= remainder)%Q /\ (remainder < TimeDelay.dt b)%Q /\
  ((remainder == 0)%Q -> (TimeDelay.idx b' + steps < C)%Z ->
     exists x, sample steps = Some x /\
               TimeDelay.__call__ checking b' t = Ok x) /\
  ((remainder == 0)%Q -> (C <= TimeDelay.idx b' + steps)%Z ->
     exists x, sample (C - 1 - TimeDelay.idx b')%Z = Some x /\
               TimeDelay.__call__ checking b' t = Ok x) /\
  (~ (remainder == 0)%Q ->
     exists x y, sample steps = Some x /\ sample (steps + 1)%Z = Some y /\
       TimeDelay.__call__ checking b' t
       = Ok (mkTensor (TimeDelay.shape b)
               (zip_with (jnp.interp1 remainder 0 (TimeDelay.dt b))
                  (tvals x) (tvals y)))).
Proof.
  intros Hwf Hsh Hup Hlin HC Hdt Hbefore Hlo Hhi C n Hn elapsed steps remainder
         sample.
  destruct (TimeDelay_updates_static _ _ _ Hup)
    as (Edt & Elen & Emeth & Ebt & _ & Et0 & Eshape & EC).
  destruct (TimeDelay_updates_logged_run tvs b [] 0%nat Hwf Hsh)
    as (b2 & _ & Hup2 & Hwf' & _).
  rewrite Hup in Hup2. injection Hup2 as <-.
  assert (Hel0 : (0 <= elapsed)%Q) by (unfold elapsed; lra).
  assert (Hel1 : (elapsed <= TimeDelay.delay_len b)%Q) by (unfold elapsed; lra).
  destruct (Qfloor_steps_range elapsed (TimeDelay.delay_len b) (TimeDelay.dt b)
              Hdt Hel0 Hel1) as [Hsteps Hstrict].
  cbn zeta in Hsteps, Hstrict. fold steps in Hsteps, Hstrict.
  fold remainder in Hstrict.
  destruct (Qfloor_remainder elapsed (TimeDelay.dt b) Hdt) as [Hr0 Hr1].
  fold steps in Hr0, Hr1. fold remainder in Hr0, Hr1.
  assert (Hslot : forall j : Z, (0 <= j <= C - 1)%Z ->
            exists x, sample j = Some x /\
              jnp.getitem (TimeDelay.data b') ((TimeDelay.idx b' + j) mod C) = Ok x)
    by (apply TimeDelay_ring_after_updates; assumption).
  assert (Hread := time_read_linear checking b' t).
  rewrite Emeth, Ebt, Et0, Edt, Elen, EC, Eshape in Hread.
  specialize (Hread Hlin Hbefore Hhi Hlo Hdt). cbn zeta in Hread.
  fold elapsed in Hread. fold steps in Hread. fold remainder in Hread.
  fold C in Hread. fold C in HC.
  split; [lia|]. split; [exact Hr0|]. split; [exact Hr1|]. split; [|split].
  - intros Hz Hin. apply Qeq_bool_iff in Hz. rewrite Hz in Hread.
    destruct (Hslot steps ltac:(lia)) as (x & Hx & Hget).
    exists x. split; [exact Hx|]. rewrite Hread, <- Hget. f_equal.
    symmetry. apply Z.mod_small.
    destruct Hwf' as [_ _ Hidx']. destruct Hsteps. lia.
  - intros Hz Hout. apply Qeq_bool_iff in Hz. rewrite Hz in Hread.
    pose proof Hwf' as [_ _ Hidx']. rewrite EC in Hidx'. fold C in Hidx'.
    destruct (Hslot (C - 1 - TimeDelay.idx b')%Z ltac:(lia)) as (x & Hx & Hget).
    exists x. split; [exact Hx|]. rewrite Hread, <- Hget.
    destruct (time_read_exact_index b' steps Hwf' ltac:(lia)) as [_ Hclamp].
    cbn zeta in Hclamp. rewrite EC in Hclamp. fold C in Hclamp.
    rewrite (Hclamp Hout). f_equal.
    replace (TimeDelay.idx b' + (C - 1 - TimeDelay.idx b'))%Z with (C - 1)%Z by lia.
    symmetry. apply Z.mod_small. lia.
  - intros Hnz. specialize (Hstrict Hnz).
    destruct (Qeq_bool remainder 0) eqn:E;
      [apply Qeq_bool_iff in E; contradiction|].
    destruct (Hslot steps ltac:(lia)) as (x & Hx & Hgx).
    destruct (Hslot (steps + 1)%Z ltac:(lia)) as (y & Hy & Hgy).
    exists x, y. split; [exact Hx|]. split; [exact Hy|].
    rewrite Hread. rewrite Z.add_assoc in Hgy. rewrite Hgx, Hgy. reflexivity.
Qed.

Lemma time_read_after_updates_witness :
  exists b',
    TimeDelay.updates time_example
      [(1%Q, mkTensor [] [10%Q]); (2%Q, mkTensor [] [20%Q])] = Ok b' /\
    TimeDelay.__call__ true b' 1 = Ok (mkTensor [] [10%Q]) /\
    exists v, TimeDelay.__call__ true b' (3 # 2) = Ok (mkTensor [] [v]) /\
              (v == 15)%Q.
Proof.
  destruct (TimeDelay.updates time_example
              [(1%Q, mkTensor [] [10%Q]); (2%Q, mkTensor [] [20%Q])])
    as [b'|e] eqn:E1; [|vm_compute in E1; discriminate E1].
  pose proof E1 as E2. vm_compute in E2. injection E2 as E2. subst b'.
  set (tvs := [(1%Q, mkTensor [] [10%Q]); (2%Q, mkTensor [] [20%Q])]) in *.
  match type of E1 with _ = Ok ?c => set (b' := c) in * end.
  assert (Hwf : TimeDelay.wf time_example) by (split; cbn; lia).
  assert (Hsh : Forall (fun tv => tshape tv.2 = TimeDelay.shape time_example) tvs)
    by (repeat constructor).
  assert (Hbf : forall t : Q, TimeDelay._before_type time_example = _FUNC_BEFORE ->
                  (TimeDelay.t0 time_example <= t)%Q)
    by (intros t K; discriminate K).
  exists b'. split; [reflexivity|]. split.
  - destruct (time_read_after_updates true time_example b' tvs 1
                Hwf Hsh E1 eq_refl eq_refl eq_refl (Hbf _))
      as (_ & _ & _ & Hex & _);
      [vm_compute; discriminate|vm_compute; discriminate|cbn; lia|].
    destruct Hex as (x & Hx & Hcall);
      [vm_compute; reflexivity|vm_compute; reflexivity|].
    vm_compute in Hx. injection Hx as <-. exact Hcall.
  - destruct (time_read_after_updates true time_example b' tvs (3 # 2)
                Hwf Hsh E1 eq_refl eq_refl eq_refl (Hbf _))
      as (_ & _ & _ & _ & _ & Hin);
      [vm_compute; discriminate|vm_compute; discriminate|cbn; lia|].
    destruct Hin as (x & y & Hx & Hy & Hcall);
      [intros K; vm_compute in K; discriminate K|].
    vm_compute in Hx, Hy. injection Hx as <-. injection Hy as <-.
    eexists. split; [rewrite Hcall; reflexivity|]. vm_compute. reflexivity.
Defined.

(** ** Interpolation never leaves the stored samples *)

Lemma result_bind_ok {A B} (m : result A) (f : A -> result B) (r : B) :
  m ≫= f = Ok r -> exists a, m = Ok a /\ f a = Ok r.
Proof.
  destruct m as [a|e]; cbn [mbind result_bind]; [|discriminate].
  intros K. exists a. split; [reflexivity|exact K].
Qed.

Lemma interp1_between (x dt f0 f1 : Q) :
  Qbetween f0 f1 (jnp.interp1 x 0 dt f0 f1).
Proof.
  unfold jnp.interp1, Qbetween. cbn zeta.
  destruct (Qltb dt x) eqn:E1; [lra|]. apply Qltb_ge in E1.
  destruct (Qltb x 0) eqn:E2; [lra|]. apply Qltb_ge in E2.
  destruct (Qeq_bool (dt - 0) 0) eqn:E3; [lra|].
  assert (Hdt : (0 < dt)%Q).
  { destruct (Qlt_le_dec 0 dt) as [H|H]; [exact H|].
    assert (K : (dt - 0 == 0)%Q) by lra.
    apply Qeq_bool_iff in K. congruence. }
  assert (Hw0 : (0 <= (x - 0) / (dt - 0))%Q)
    by (apply Qle_shift_div_l; lra).
  assert (Hw1 : ((x - 0) / (dt - 0) <= 1)%Q)
    by (apply Qle_shift_div_r; lra).
  set (w := ((x - 0) / (dt - 0))%Q) in *.
  destruct (Qlt_le_dec f1 f0) as [H|H]; [right|left]; split; nra.
Qed.

(** X6: whenever the stored data is consulted (the before-start function is
    not), a read that returns, returns component-wise values between two
    stored slots: the interpolation and the rounding never overshoot the
    samples, at any requested time and in both interpolation modes. *)
Theorem time_read_no_overshoot (checking : bool) (b : TimeDelay.TimeDelay)
    (t : Q) (r : Tensor) :
  (TimeDelay._before_type b = _FUNC_BEFORE -> (TimeDelay.t0 b <= t)%Q) ->
  TimeDelay.__call__ checking b t = Ok r ->
  exists x y, x ∈ TimeDelay.data b /\ y ∈ TimeDelay.data b /\
              tensor_between x y r.
Proof.
  intros Hbefore. unfold TimeDelay.__call__.
  destruct (if checking then _ else _) as [[]|e]; cbn [mbind result_bind];
    [|discriminate].
  assert (Hafter : TimeDelay._after_t0 b t = Ok r ->
            exists x y, x ∈ TimeDelay.data b /\ y ∈ TimeDelay.data b /\
                        tensor_between x y r).
  { assert (Hslot : forall i, jnp.getitem (TimeDelay.data b) i = Ok r ->
              exists x y, x ∈ TimeDelay.data b /\ y ∈ TimeDelay.data b /\
                          tensor_between x y r).
    { intros i Hr. apply jnp_getitem_elem in Hr. exists r, r.
      split; [exact Hr|]. split; [exact Hr|].
      intros j v Hv. exists v, v. split; [exact Hv|]. split; [exact Hv|].
      left. split; apply Qle_refl. }
    unfold TimeDelay._after_t0, TimeDelay._true_fn, TimeDelay._false_fn.
    cbn zeta.
    destruct (bool_decide (TimeDelay.interp_method b = _INTERP_LINEAR)).
    - destruct (Qeq_bool _ _); [apply Hslot|].
      intros K. apply result_bind_ok in K as (x & Ex & K).
      apply result_bind_ok in K as (y & Ey & K). injection K as <-.
      apply jnp_getitem_elem in Ex, Ey.
      exists x, y. split; [exact Ex|]. split; [exact Ey|].
      intros j v Hv. cbn [tvals] in Hv.
      apply lookup_zip_with_Some in Hv as (f0 & f1 & -> & H0 & H1).
      exists f0, f1. split; [exact H0|]. split; [exact H1|].
      apply interp1_between.
    - destruct (bool_decide (TimeDelay.interp_method b = _INTERP_ROUND));
        [apply Hslot|discriminate]. }
  case_bool_decide as Hb; [|exact Hafter].
  assert (H3 : Qltb t (TimeDelay.t0 b) = false)
    by (apply Qltb_ge; apply Hbefore; exact Hb).
  rewrite H3. exact Hafter.
Qed.

Lemma time_read_no_overshoot_witness :
  exists r x y,
    TimeDelay.__call__ true time_example (-1 # 2) = Ok r /\
    x ∈ TimeDelay.data time_example /\ y ∈ TimeDelay.data time_example /\
    tensor_between x y r.
Proof.
  destruct (TimeDelay.__call__ true time_example (-1 # 2)) as [r|e] eqn:E;
    [|vm_compute in E; discriminate E].
  destruct (time_read_no_overshoot true time_example (-1 # 2) r
              ltac:(intros K; discriminate K) E) as (x & y & Hx & Hy & Hb).
  exists r, x, y. split; [reflexivity|]. split; [exact Hx|]. split; assumption.
Defined.

(** ** Reads before the start time of a buffer built with a function *)

Lemma TimeDelay_init_fun (get_dt : Q) (target : Tensor) (len : Q)
    (f : Q -> Tensor) (t0 : Q) (dt : option Q) (m : string)
    (b : TimeDelay.TimeDelay) :
  TimeDelay.__init__ get_dt target len (Some (BeforeFun f)) t0 dt m = Ok b ->
  TimeDelay._before_type b = _FUNC_BEFORE /\
  TimeDelay._before_t0 b = (fun t => jnp.broadcast_to (f t) (tshape target)) /\
  TimeDelay.t0 b = t0 /\ TimeDelay.current_time b = t0 /\
  TimeDelay.delay_len b = len /\ TimeDelay.dt b = default get_dt dt.
Proof.
  unfold TimeDelay.__init__.
  repeat (match goal with
          | |- context [if ?c then _ else _] => destruct c
          end; cbn [mbind result_bind]; try discriminate).
  destruct (jnp.setitem _ _ _ _); cbn [mbind result_bind]; [|discriminate].
  intros K. injection K as <-. cbn. split_and!; reflexivity.
Qed.

(** X7: a buffer built with a function for the time before [t0] answers
    every read at a time before [t0] from that function, broadcast to the
    buffer's shape, whatever has been pushed since; with checking on this
    holds for the times the two range checks let through. *)
Theorem time_read_before_t0 (get_dt : Q) (target : Tensor) (len : Q)
    (f : Q -> Tensor) (t0 : Q) (dt : option Q) (m : string)
    (tvs : list (Q * Tensor)) (b0 b : TimeDelay.TimeDelay) (t : Q) :
  TimeDelay.__init__ get_dt target len (Some (BeforeFun f)) t0 dt m = Ok b0 ->
  TimeDelay.updates b0 tvs = Ok b ->
  (t < t0)%Q ->
  TimeDelay.__call__ false b t = jnp.broadcast_to (f t) (tshape target) /\
  ((TimeDelay.current_time b - len - default get_dt dt <= t)%Q ->
   (t <= TimeDelay.current_time b + (1 # 1000000))%Q ->
   TimeDelay.__call__ true b t = jnp.broadcast_to (f t) (tshape target)).
Proof.
  intros Hinit Hup Ht.
  destruct (TimeDelay_init_fun _ _ _ _ _ _ _ _ Hinit)
    as (Hbt & Hbf & Et0 & Ect & Elen & Edt).
  destruct (TimeDelay_updates_static _ _ _ Hup)
    as (Edt' & Elen' & _ & Ebt' & Ebf' & Et0' & _).
  assert (Hbody : (if bool_decide (TimeDelay._before_type b = _FUNC_BEFORE)
                   then if Qltb t (TimeDelay.t0 b)
                        then TimeDelay._before_t0 b t
                        else TimeDelay._after_t0 b t
                   else TimeDelay._after_t0 b t)
                  = jnp.broadcast_to (f t) (tshape target)).
  { rewrite Ebt', Hbt, bool_decide_true by reflexivity.
    rewrite Et0', Et0. rewrite (proj2 (Qltb_lt t t0) Ht).
    rewrite Ebf', Hbf. reflexivity. }
  split.
  - unfold TimeDelay.__call__. cbn [mbind result_bind]. exact Hbody.
  - intros Hlo Hhi. unfold TimeDelay.__call__, check_error_in_jit.
    rewrite Elen', Elen, Edt', Edt.
    rewrite (proj2 (Qltb_ge t _) Hlo).
    rewrite (proj2 (Qltb_ge _ t) Hhi).
    cbn [mbind result_bind]. exact Hbody.
Qed.

Lemma time_read_before_t0_witness :
  exists b0 b,
    TimeDelay.__init__ 1 (mkTensor [2%nat] [0%Q; 0%Q]) 2
      (Some (BeforeFun (fun t => mkTensor [] [t]))) 0 None _INTERP_LINEAR = Ok b0 /\
    TimeDelay.updates b0 [(1%Q, mkTensor [2%nat] [5%Q; 6%Q])] = Ok b /\
    TimeDelay.__call__ true b (-1 # 2)
    = Ok (mkTensor [2%nat] [-1 # 2; -1 # 2]).
Proof.
  destruct (TimeDelay.__init__ 1 (mkTensor [2%nat] [0%Q; 0%Q]) 2
              (Some (BeforeFun (fun t => mkTensor [] [t]))) 0 None _INTERP_LINEAR)
    as [b0|e] eqn:E0; [|vm_compute in E0; discriminate E0].
  destruct (TimeDelay.updates b0 [(1%Q, mkTensor [2%nat] [5%Q; 6%Q])])
    as [b|e] eqn:E1.
  - exists b0, b. split; [reflexivity|]. split; [exact E1|].
    destruct (time_read_before_t0 1 (mkTensor [2%nat] [0%Q; 0%Q]) 2
                (fun t => mkTensor [] [t]) 0 None _INTERP_LINEAR _ b0 b (-1 # 2)
                E0 E1 eq_refl) as [_ Hchk].
    rewrite Hchk; [reflexivity| |].
    + cbv in E0. injection E0 as <-. cbv in E1. injection E1 as <-.
      vm_compute. discriminate.
    + cbv in E0. injection E0 as <-. cbv in E1. injection E1 as <-.
      vm_compute. discriminate.
  - cbv in E0. injection E0 as <-. cbv in E1. discriminate E1.
Defined.

(** ** The rounding read *)

Lemma Qround_half_even_near (q : Q) :
  (inject_Z (Qround_half_even q) - (1 # 2) <= q)%Q /\
  (q <= inject_Z (Qround_half_even q) + (1 # 2))%Q.
Proof.
  unfold Qround_half_even. cbn zeta.
  pose proof (Qfloor_le q) as Hlo. pose proof (Qlt_floor q) as Hhi.
  rewrite inject_Z_plus in Hhi. change (inject_Z 1) with 1%Q in Hhi.
  destruct (Qltb (q - inject_Z (Qfloor q)) (1 # 2)) eqn:E1.
  { apply Qltb_lt in E1. split; lra. }
  apply Qltb_ge in E1.
  destruct (Qltb (1 # 2) (q - inject_Z (Qfloor q))) eqn:E2.
  { rewrite inject_Z_plus. change (inject_Z 1) with 1%Q. split; lra. }
  apply Qltb_ge in E2.
  destruct (Z.even (Qfloor q)).
  - split; lra.
  - rewrite inject_Z_plus. change (inject_Z 1) with 1%Q. split; lra.
Qed.

Lemma Qround_half_even_range (q : Q) (m : Z) :
  (0 <= q)%Q -> (q <= inject_Z m)%Q -> (0 <= Qround_half_even q <= m)%Z.
Proof.
  intros H0 Hm.
  pose proof (Qfloor_le q) as Hlo. pose proof (Qlt_floor q) as Hhi.
  rewrite inject_Z_plus in Hhi. change (inject_Z 1) with 1%Q in Hhi.
  assert (Hf0 : (0 <= Qfloor q)%Z)
    by (change 0%Z with (Qfloor 0); apply Qfloor_resp_le; exact H0).
  assert (Hfm : (Qfloor q <= m)%Z).
  { rewrite <- (Qfloor_Z m). apply Qfloor_resp_le. exact Hm. }
  unfold Qround_half_even. cbn zeta.
  destruct (Qltb (q - inject_Z (Qfloor q)) (1 # 2)) eqn:E1; [lia|].
  apply Qltb_ge in E1.
  assert (Hlt : (Qfloor q < m)%Z).
  { destruct (Z.eq_dec (Qfloor q) m) as [Heq|]; [|lia].
    exfalso. rewrite Heq in E1. lra. }
  destruct (Qltb _ _); [lia|]. destruct (Z.even _); lia.
Qed.

Lemma time_read_round (checking : bool) (b : TimeDelay.TimeDelay) (t : Q) :
  TimeDelay.interp_method b = _INTERP_ROUND ->
  (TimeDelay._before_type b = _FUNC_BEFORE -> (TimeDelay.t0 b <= t)%Q) ->
  (t <= TimeDelay.current_time b)%Q ->
  (TimeDelay.current_time b - TimeDelay.delay_len b <= t)%Q ->
  (0 < TimeDelay.dt b)%Q ->
  let elapsed := (TimeDelay.delay_len b - (TimeDelay.current_time b - t))%Q in
  TimeDelay.__call__ checking b t =
    jnp.getitem (TimeDelay.data b)
      (TimeDelay.idx b + Qround_half_even (elapsed / TimeDelay.dt b)).
Proof.
  intros Hround Hbefore Hhi Hlo Hdt elapsed.
  assert (Hafter : TimeDelay._after_t0 b t =
            jnp.getitem (TimeDelay.data b)
              (TimeDelay.idx b + Qround_half_even (elapsed / TimeDelay.dt b))).
  { unfold TimeDelay._after_t0, TimeDelay._true_fn. rewrite Hround.
    rewrite bool_decide_false by discriminate.
    rewrite bool_decide_true by reflexivity. reflexivity. }
  unfold TimeDelay.__call__, check_error_in_jit.
  assert (H1 : Qltb (TimeDelay.current_time b + (1 # 1000000)) t = false)
    by (apply Qltb_ge; lra).
  assert (H2 : Qltb t (TimeDelay.current_time b - TimeDelay.delay_len b
                        - TimeDelay.dt b) = false)
    by (apply Qltb_ge; lra).
  rewrite H1, H2.
  assert (Hchk : (if checking then (Ok tt ≫= fun _ : unit => Ok tt) else Ok tt)
                 = (Ok tt : result unit)) by (destruct checking; reflexivity).
  rewrite Hchk. cbn [mbind result_bind].
  case_bool_decide as Hb; [|exact Hafter].
  assert (H3 : Qltb t (TimeDelay.t0 b) = false)
    by (apply Qltb_ge; apply Hbefore; exact Hb).
  rewrite H3. exact Hafter.
Qed.

(** X8: in rounding mode, after at least [num_delay_step] updates, a read
    inside the window takes the whole number of steps nearest to the
    elapsed time (within half a time step) and returns the sample pushed
    [C - 1 - steps] updates before the last one while the unwrapped index
    stays inside the ring; when it does not, the read returns the last
    physical slot of the ring. *)
Theorem time_read_round_after_updates (checking : bool)
    (b b' : TimeDelay.TimeDelay) (tvs : list (Q * Tensor)) (t : Q) :
  TimeDelay.wf b ->
  Forall (fun tv => tshape tv.2 = TimeDelay.shape b) tvs ->
  TimeDelay.updates b tvs = Ok b' ->
  TimeDelay.interp_method b = _INTERP_ROUND ->
  TimeDelay.num_delay_step b
    = (Qceiling (TimeDelay.delay_len b / TimeDelay.dt b) + 1)%Z ->
  (0 < TimeDelay.dt b)%Q ->
  (TimeDelay._before_type b = _FUNC_BEFORE -> (TimeDelay.t0 b <= t)%Q) ->
  (TimeDelay.current_time b' - TimeDelay.delay_len b <= t)%Q ->
  (t <= TimeDelay.current_time b')%Q ->
  let C := TimeDelay.num_delay_step b in
  let n := Z.of_nat (length tvs) in
  (C <= n)%Z ->
  let elapsed := (TimeDelay.delay_len b - (TimeDelay.current_time b' - t))%Q in
  let steps := Qround_half_even (elapsed / TimeDelay.dt b) in
  (0 <= steps <= C - 1)%Z /\
  (inject_Z steps * TimeDelay.dt b - TimeDelay.dt b * (1 # 2) <= elapsed)%Q /\
  (elapsed <= inject_Z steps * TimeDelay.dt b + TimeDelay.dt b * (1 # 2))%Q /\
  ((TimeDelay.idx b' + steps < C)%Z ->
     exists x, map snd tvs !! Z.to_nat (n - C + steps) = Some x /\
               TimeDelay.__call__ checking b' t = Ok x) /\
  ((C <= TimeDelay.idx b' + steps)%Z ->
     TimeDelay.__call__ checking b' t
     = jnp.getitem (TimeDelay.data b') (C - 1)).
Proof.
  intros Hwf Hsh Hup Hround HC Hdt Hbefore Hlo Hhi C n Hn elapsed steps.
  destruct (TimeDelay_updates_static _ _ _ Hup)
    as (Edt & Elen & Emeth & Ebt & _ & Et0 & Eshape & EC).
  destruct (TimeDelay_updates_logged_run tvs b [] 0%nat Hwf Hsh)
    as (b2 & _ & Hup2 & Hwf' & _).
  rewrite Hup in Hup2. injection Hup2 as <-.
  assert (Hel0 : (0 <= elapsed)%Q) by (unfold elapsed; lra).
  assert (Hel1 : (elapsed <= TimeDelay.delay_len b)%Q) by (unfold elapsed; lra).
  destruct (Qceiling_span (TimeDelay.delay_len b) (TimeDelay.dt b) Hdt)
    as [Hc0 _].
  assert (Hq0 : (0 <= elapsed / TimeDelay.dt b)%Q)
    by (apply Qle_shift_div_l; lra).
  assert (Hq1 : (elapsed / TimeDelay.dt b <= inject_Z (C - 1))%Q).
  { apply Qle_shift_div_r; [exact Hdt|]. unfold C. rewrite HC.
    replace (Qceiling (TimeDelay.delay_len b / TimeDelay.dt b) + 1 - 1)%Z
      with (Qceiling (TimeDelay.delay_len b / TimeDelay.dt b)) by lia.
    lra. }
  pose proof (Qround_half_even_range _ _ Hq0 Hq1) as Hsteps.
  fold steps in Hsteps.
  destruct (Qround_half_even_near (elapsed / TimeDelay.dt b)) as [Hn0 Hn1].
  fold steps in Hn0, Hn1.
  assert (He : (elapsed == (elapsed / TimeDelay.dt b) * TimeDelay.dt b)%Q)
    by (field; lra).
  set (q := (elapsed / TimeDelay.dt b)%Q) in *.
  assert (Hread := time_read_round checking b' t).
  rewrite Emeth, Ebt, Et0, Edt, Elen in Hread.
  specialize (Hread Hround Hbefore Hhi Hlo Hdt). cbn zeta in Hread.
  fold elapsed in Hread. fold q in Hread. fold steps in Hread.
  split; [exact Hsteps|]. split; [nra|]. split; [nra|]. split.
  - intros Hin.
    destruct (TimeDelay_ring_after_updates b b' tvs Hwf Hsh Hup Hn steps Hsteps)
      as (x & Hx & Hget).
    exists x. split; [exact Hx|]. rewrite Hread, <- Hget. f_equal.
    symmetry. apply Z.mod_small.
    destruct Hwf' as [_ _ Hidx']. fold C. lia.
  - intros Hout. rewrite Hread.
    destruct (time_read_exact_index b' steps Hwf' ltac:(lia)) as [_ Hclamp].
    cbn zeta in Hclamp. rewrite EC in Hclamp. apply Hclamp. exact Hout.
Qed.

Lemma time_read_round_after_updates_witness :
  exists b',
    TimeDelay.updates round_example
      [(1%Q, mkTensor [] [10%Q]); (2%Q, mkTensor [] [20%Q])] = Ok b' /\
    TimeDelay.__call__ true b' (5 # 4) = Ok (mkTensor [] [10%Q]) /\
    TimeDelay.__call__ true b' (7 # 4) = Ok (mkTensor [] [20%Q]).
Proof.
  destruct (TimeDelay.updates round_example
              [(1%Q, mkTensor [] [10%Q]); (2%Q, mkTensor [] [20%Q])])
    as [b'|e] eqn:E1; [|vm_compute in E1; discriminate E1].
  pose proof E1 as E2. vm_compute in E2. injection E2 as E2. subst b'.
  set (tvs := [(1%Q, mkTensor [] [10%Q]); (2%Q, mkTensor [] [20%Q])]) in *.
  match type of E1 with _ = Ok ?c => set (b' := c) in * end.
  assert (Hwf : TimeDelay.wf round_example) by (split; cbn; lia).
  assert (Hsh : Forall (fun tv => tshape tv.2 = TimeDelay.shape round_example) tvs)
    by (repeat constructor).
  assert (Hbf : forall t : Q, TimeDelay._before_type round_example = _FUNC_BEFORE ->
                  (TimeDelay.t0 round_example <= t)%Q)
    by (intros t K; discriminate K).
  exists b'. split; [reflexivity|]. split.
  - destruct (time_read_round_after_updates true round_example b' tvs (5 # 4)
                Hwf Hsh E1 eq_refl eq_refl eq_refl (Hbf _))
      as (_ & _ & _ & Hin & _);
      [vm_compute; discriminate|vm_compute; discriminate|cbn; lia|].
    destruct Hin as (x & Hx & Hcall); [vm_compute; reflexivity|].
    vm_compute in Hx. injection Hx as <-. exact Hcall.
  - destruct (time_read_round_after_updates true round_example b' tvs (7 # 4)
                Hwf Hsh E1 eq_refl eq_refl eq_refl (Hbf _))
      as (_ & _ & _ & Hin & _);
      [vm_compute; discriminate|vm_compute; discriminate|cbn; lia|].
    destruct Hin as (x & Hx & Hcall); [vm_compute; reflexivity|].
    vm_compute in Hx. injection Hx as <-. exact Hcall.
Defined.

(** ** Resetting a length-based buffer *)

(** X9: resetting a well-formed length-based buffer without a delay length
    and without initial data keeps its capacity and discards everything
    else: the write index is back at 0, delay 0 reads the new target and
    every other admissible delay reads zeros of the new target's shape,
    whatever the buffer held before. *)
Theorem length_reset_reads (checking : bool) (b : LengthDelay.LengthDelay)
    (target : Tensor) :
  LengthDelay.wf b ->
  exists b',
    LengthDelay.reset (Some b) target None None = Ok b' /\
    LengthDelay.num_delay_step b' = LengthDelay.num_delay_step b /\
    LengthDelay.idx b' = 0%Z /\
    LengthDelay.shape b' = tshape target /\
    LengthDelay.__call__ checking b' 0 = Ok target /\
    forall k : Z, (1 <= k < LengthDelay.num_delay_step b)%Z ->
      LengthDelay.__call__ checking b' k = Ok (jnp.zeros (tshape target)).
Proof.
  intros [HC _ _]. unfold LengthDelay.reset. cbn [mbind result_bind].
  set (C := LengthDelay.num_delay_step b) in *.
  replace (C - 1 + 1)%Z with C by lia.
  rewrite jnp_setitem_last by (try reflexivity; rewrite length_replicate; lia).
  cbn [mbind result_bind]. rewrite length_replicate.
  eexists. split; [reflexivity|]. cbn [LengthDelay.num_delay_step
    LengthDelay.idx LengthDelay.shape]. split_and!; try reflexivity.
  - unfold LengthDelay.__call__. cbn [LengthDelay.num_delay_step
      LengthDelay.idx LengthDelay.data].
    replace (if checking then _ else _) with (Ok tt : result unit).
    2:{ destruct checking; [|reflexivity]. unfold check_error_in_jit.
        destruct (C <=? 0)%Z eqn:E2; [lia|reflexivity]. }
    cbn [mbind result_bind].
    replace ((0 - 0 - 1) mod C)%Z with (C - 1)%Z.
    2:{ replace (0 - 0 - 1)%Z with ((C - 1) + (-1) * C)%Z by lia.
        rewrite Z.mod_add by lia. symmetry. apply Z.mod_small. lia. }
    destruct (jnp_getitem_in_range
                (<[(Z.to_nat C - 1)%nat := target]>
                   (replicate (Z.to_nat C) (jnp.zeros (tshape target))))
                (C - 1)) as (x & Hx & Hget).
    { rewrite length_insert, length_replicate. lia. }
    rewrite Hget. f_equal.
    replace (Z.to_nat (C - 1)) with (Z.to_nat C - 1)%nat in Hx by lia.
    rewrite list_lookup_insert_eq in Hx by (rewrite length_replicate; lia).
    congruence.
  - intros k Hk. unfold LengthDelay.__call__. cbn [LengthDelay.num_delay_step
      LengthDelay.idx LengthDelay.data].
    replace (if checking then _ else _) with (Ok tt : result unit).
    2:{ destruct checking; [|reflexivity]. unfold check_error_in_jit.
        destruct (C <=? k)%Z eqn:E2; [lia|reflexivity]. }
    cbn [mbind result_bind].
    replace ((0 - k - 1) mod C)%Z with (C - 1 - k)%Z.
    2:{ replace (0 - k - 1)%Z with ((C - 1 - k) + (-1) * C)%Z by lia.
        rewrite Z.mod_add by lia. symmetry. apply Z.mod_small. lia. }
    destruct (jnp_getitem_in_range
                (<[(Z.to_nat C - 1)%nat := target]>
                   (replicate (Z.to_nat C) (jnp.zeros (tshape target))))
                (C - 1 - k)) as (x & Hx & Hget).
    { rewrite length_insert, length_replicate. lia. }
    rewrite Hget. f_equal.
    rewrite list_lookup_insert_ne in Hx by lia.
    apply lookup_replicate in Hx as [-> _]. reflexivity.
Qed.

Lemma length_reset_reads_witness :
  exists b',
    LengthDelay.reset (Some ring_example) (mkTensor [] [7%Q]) None None = Ok b' /\
    LengthDelay.__call__ true b' 0 = Ok (mkTensor [] [7%Q]) /\
    LengthDelay.__call__ true b' 2 = Ok (jnp.zeros []).
Proof.
  destruct (length_reset_reads true ring_example (mkTensor [] [7%Q]))
    as (b' & Hb & _ & _ & _ & H0 & Hk).
  - split; cbn; lia.
  - exists b'. split; [exact Hb|]. split; [exact H0|].
    apply Hk. cbn. lia.
Defined.

(** ** Reads of a signal that is affine in time *)

Lemma interp1_affine (r dt a c tau : Q) :
  (0 <= r)%Q -> (r <= dt)%Q -> (0 < dt)%Q ->
  (jnp.interp1 r 0 dt (a * tau + c) (a * (tau + dt) + c)
   == a * (tau + r) + c)%Q.
Proof.
  intros H0 H1 Hdt. rewrite (interp1_weight r dt _ _ H0 H1 Hdt).
  field. lra.
Qed.

Lemma zip_interp_affine (r dt tau tau1 tau2 : Q) (coeffs : list (Q * Q)) :
  (0 <= r)%Q -> (r <= dt)%Q -> (0 < dt)%Q ->
  (tau1 == tau + dt)%Q -> (tau2 == tau + r)%Q ->
  Forall2 Qeq
    (zip_with (jnp.interp1 r 0 dt)
       (map (fun ac : Q * Q => (ac.1 * tau + ac.2)%Q) coeffs)
       (map (fun ac : Q * Q => (ac.1 * tau1 + ac.2)%Q) coeffs))
    (map (fun ac : Q * Q => (ac.1 * tau2 + ac.2)%Q) coeffs).
Proof.
  intros H0 H1 Hdt E1 E2.
  induction coeffs as [|[a c] coeffs IH]; cbn [map zip_with fst snd];
    constructor; [|exact IH].
  assert (K : (a * tau1 + c == a * (tau + dt) + c)%Q) by (rewrite E1; reflexivity).
  assert (Hi : (jnp.interp1 r 0 dt (a * tau + c) (a * tau1 + c)
                == jnp.interp1 r 0 dt (a * tau + c) (a * (tau + dt) + c))%Q).
  { rewrite !(interp1_weight r dt _ _ H0 H1 Hdt). rewrite K. reflexivity. }
  rewrite Hi, (interp1_affine r dt a c tau H0 H1 Hdt), E2. reflexivity.
Qed.

Lemma affine_sample_Qeq (s : list nat) (coeffs : list (Q * Q)) (tau1 tau2 : Q) :
  (tau1 == tau2)%Q ->
  tensor_Qeq (affine_sample s coeffs tau1) (affine_sample s coeffs tau2).
Proof.
  intros E. split; [reflexivity|]. cbn [affine_sample tvals].
  induction coeffs as [|[a c] coeffs IH]; cbn [map]; constructor; [|exact IH].
  cbn [fst snd]. rewrite E. reflexivity.
Qed.

(** X27: linear-interpolation reads are exact on signals that are affine
    in time, up to a fixed shift of the window.  If the last
    [num_delay_step] pushes sampled such a signal every [dt] up to the
    current time, a read at a time [t] inside the window returns the
    signal's value at [t - shift], where
    [shift = (num_delay_step - 1) * dt - delay_len] lies in [[0, dt)] and
    is zero exactly when [delay_len] is a whole number of steps.  (The read
    with zero remainder is covered while its unwrapped index stays inside
    the ring.) *)
Theorem time_read_affine_exact (checking : bool)
    (b b' : TimeDelay.TimeDelay) (tvs : list (Q * Tensor)) (t : Q)
    (coeffs : list (Q * Q)) :
  TimeDelay.wf b ->
  Forall (fun tv => tshape tv.2 = TimeDelay.shape b) tvs ->
  TimeDelay.updates b tvs = Ok b' ->
  TimeDelay.interp_method b = _INTERP_LINEAR ->
  TimeDelay.num_delay_step b
    = (Qceiling (TimeDelay.delay_len b / TimeDelay.dt b) + 1)%Z ->
  (0 < TimeDelay.dt b)%Q ->
  (TimeDelay._before_type b = _FUNC_BEFORE -> (TimeDelay.t0 b <= t)%Q) ->
  (TimeDelay.current_time b' - TimeDelay.delay_len b <= t)%Q ->
  (t <= TimeDelay.current_time b')%Q ->
  let C := TimeDelay.num_delay_step b in
  let n := Z.of_nat (length tvs) in
  (C <= n)%Z ->
  (forall j : Z, (0 <= j <= C - 1)%Z ->
     map snd tvs !! Z.to_nat (n - C + j)
     = Some (affine_sample (TimeDelay.shape b) coeffs
               (TimeDelay.current_time b'
                - inject_Z (C - 1 - j) * TimeDelay.dt b))) ->
  let elapsed := (TimeDelay.delay_len b - (TimeDelay.current_time b' - t))%Q in
  let steps := Qfloor (elapsed / TimeDelay.dt b) in
  let remainder := (elapsed - inject_Z steps * TimeDelay.dt b)%Q in
  let shift := (inject_Z (C - 1) * TimeDelay.dt b - TimeDelay.delay_len b)%Q in
  (~ (remainder == 0)%Q \/ (TimeDelay.idx b' + steps < C)%Z) ->
  (0 <= shift)%Q /\ (shift < TimeDelay.dt b)%Q /\
  exists r, TimeDelay.__call__ checking b' t = Ok r /\
            tensor_Qeq r (affine_sample (TimeDelay.shape b) coeffs (t - shift)).
Proof.
  intros Hwf Hsh Hup Hlin HC Hdt Hbefore Hlo Hhi C n Hn Hsig elapsed steps
         remainder shift Hcase.
  destruct (TimeDelay_updates_static _ _ _ Hup)
    as (Edt & Elen & Emeth & Ebt & _ & Et0 & Eshape & EC).
  destruct (TimeDelay_updates_logged_run tvs b [] 0%nat Hwf Hsh)
    as (b2 & _ & Hup2 & Hwf' & _).
  rewrite Hup in Hup2. injection Hup2 as <-.
  assert (Hel0 : (0 <= elapsed)%Q) by (unfold elapsed; lra).
  assert (Hel1 : (elapsed <= TimeDelay.delay_len b)%Q) by (unfold elapsed; lra).
  destruct (Qfloor_steps_range elapsed (TimeDelay.delay_len b) (TimeDelay.dt b)
              Hdt Hel0 Hel1) as [Hsteps Hstrict].
  cbn zeta in Hsteps, Hstrict. fold steps in Hsteps, Hstrict.
  fold remainder in Hstrict.
  destruct (Qfloor_remainder elapsed (TimeDelay.dt b) Hdt) as [Hr0 Hr1].
  fold steps in Hr0, Hr1. fold remainder in Hr0, Hr1.
  destruct (Qceiling_span (TimeDelay.delay_len b) (TimeDelay.dt b) Hdt)
    as [Hc0 Hc1].
  assert (HC1 : (C - 1 = Qceiling (TimeDelay.delay_len b / TimeDelay.dt b))%Z)
    by (unfold C; lia).
  assert (Hshift0 : (0 <= shift)%Q) by (unfold shift; rewrite HC1; lra).
  assert (Hshift1 : (shift < TimeDelay.dt b)%Q) by (unfold shift; rewrite HC1; lra).
  split; [exact Hshift0|]. split; [exact Hshift1|].
  assert (Hslot : forall j : Z, (0 <= j <= C - 1)%Z ->
            jnp.getitem (TimeDelay.data b') ((TimeDelay.idx b' + j) mod C)
            = Ok (affine_sample (TimeDelay.shape b) coeffs
                    (TimeDelay.current_time b'
                     - inject_Z (C - 1 - j) * TimeDelay.dt b))).
  { intros j Hj.
    destruct (TimeDelay_ring_after_updates b b' tvs Hwf Hsh Hup Hn j Hj)
      as (x & Hx & Hget).
    fold n C in Hx. rewrite (Hsig j Hj) in Hx. injection Hx as <-. exact Hget. }
  assert (Hread := time_read_linear checking b' t).
  rewrite Emeth, Ebt, Et0, Edt, Elen, EC, Eshape in Hread.
  specialize (Hread Hlin Hbefore Hhi Hlo Hdt). cbn zeta in Hread.
  fold elapsed in Hread. fold steps in Hread. fold remainder in Hread.
  fold C in Hread. fold C in HC.
  assert (Htime : forall j : Z,
            (TimeDelay.current_time b' - inject_Z (C - 1 - j) * TimeDelay.dt b
             == t - shift - elapsed + inject_Z j * TimeDelay.dt b)%Q).
  { intros j. unfold shift, elapsed, Z.sub.
    rewrite !inject_Z_plus, !inject_Z_opp. ring. }
  destruct (Qeq_bool remainder 0) eqn:E.
  - apply Qeq_bool_iff in E.
    destruct Hcase as [Hnz|Hin]; [contradiction|].
    eexists. split.
    + rewrite Hread, <- (Hslot steps ltac:(lia)). f_equal.
      symmetry. apply Z.mod_small. destruct Hwf' as [_ _ Hidx']. lia.
    + apply affine_sample_Qeq. rewrite (Htime steps).
      unfold remainder in E. lra.
  - assert (Hnz : ~ (remainder == 0)%Q).
    { intros K. apply Qeq_bool_iff in K. congruence. }
    specialize (Hstrict Hnz).
    eexists. split.
    + rewrite Hread, (Hslot steps ltac:(lia)).
      rewrite <- Z.add_assoc, (Hslot (steps + 1)%Z ltac:(lia)).
      cbn [mbind result_bind]. reflexivity.
    + split; [reflexivity|]. cbn [affine_sample tvals].
      apply zip_interp_affine; try assumption.
      * lra.
      * rewrite !Htime, inject_Z_plus. change (inject_Z 1) with 1%Q. ring.
      * rewrite (Htime steps). unfold remainder. ring.
Qed.

Lemma time_read_affine_exact_witness :
  exists b' r,
    TimeDelay.updates time_example
      [(1%Q, mkTensor [] [10%Q]); (2%Q, mkTensor [] [20%Q])] = Ok b' /\
    TimeDelay.__call__ true b' (3 # 2) = Ok r /\
    tensor_Qeq r (mkTensor [] [15%Q]).
Proof.
  destruct (TimeDelay.updates time_example
              [(1%Q, mkTensor [] [10%Q]); (2%Q, mkTensor [] [20%Q])])
    as [b'|e] eqn:E1; [|vm_compute in E1; discriminate E1].
  pose proof E1 as E2. vm_compute in E2. injection E2 as E2. subst b'.
  set (tvs := [(1%Q, mkTensor [] [10%Q]); (2%Q, mkTensor [] [20%Q])]) in *.
  match type of E1 with _ = Ok ?c => set (b' := c) in * end.
  assert (Hwf : TimeDelay.wf time_example) by (split; cbn; lia).
  assert (Hsh : Forall (fun tv => tshape tv.2 = TimeDelay.shape time_example) tvs)
    by (repeat constructor).
  destruct (time_read_affine_exact true time_example b' tvs (3 # 2) [(10%Q, 0%Q)]
              Hwf Hsh E1 eq_refl eq_refl eq_refl)
    as (_ & _ & r & Hcall & Hr).
  - intros K. discriminate K.
  - vm_compute. discriminate.
  - vm_compute. discriminate.
  - cbn. lia.
  - intros j Hj. assert (Hj' : j = 0%Z \/ j = 1%Z) by (cbn in Hj; lia).
    destruct Hj' as [-> | ->]; vm_compute; reflexivity.
  - left. intros K. vm_compute in K. discriminate K.
  - exists b', r. split; [reflexivity|]. split; [exact Hcall|].
    destruct Hr as [Hs Hv]. split; [exact Hs|].
    cbn [affine_sample tvals map fst snd] in Hv.
    destruct (tvals r) as [|v [|v' vs]];
      try (inversion Hv; match goal with H : Forall2 _ _ _ |- _ => inversion H end; fail).
    apply Forall2_cons in Hv as [Hv _]. constructor; [|constructor].
    rewrite Hv. vm_compute. reflexivity.
Defined.

(** ** The layout of a time-based buffer built with data *)

(** X29: a linear-interpolation buffer built with data for the time before
    [t0], of shape [(num_delay_step - 1,) + shape], holds row [j] of that
    data for the instant [t0 - delay_len + j * dt]: the rows are aligned to
    the start of the window, oldest first, and a read at such an instant
    returns the row itself. *)
Theorem time_init_before_data_layout (checking : bool) (get_dt : Q)
    (target d : Tensor) (len t0 : Q) (dt : option Q) (j : Z) :
  let step := default get_dt dt in
  let C := (Qceiling (len / step) + 1)%Z in
  (0 <= len)%Q -> (0 < step)%Q ->
  tshape d = Z.to_nat (C - 1) :: tshape target ->
  (0 <= j <= C - 2)%Z ->
  exists b,
    TimeDelay.__init__ get_dt target len (Some (BeforeData d)) t0 dt _INTERP_LINEAR
      = Ok b /\
    TimeDelay.num_delay_step b = C /\
    TimeDelay.__call__ checking b (t0 - len + inject_Z j * step)
    = Ok (tensor_row (tshape target) d (Z.to_nat j)).
Proof.
  intros step C Hlen Hstep Hd Hj.
  assert (HC : (1 <= C)%Z).
  { unfold C. pose proof (Qceiling_nonneg (len / step)) as K.
    assert (0 <= len / step)%Q by (apply Qle_shift_div_l; lra).
    specialize (K ltac:(assumption)). lia. }
  destruct (TimeDelay.__init__ get_dt target len (Some (BeforeData d)) t0 dt
              _INTERP_LINEAR) as [b|e] eqn:Einit.
  2:{ exfalso. revert Einit. unfold TimeDelay.__init__. fold step. fold C.
      rewrite (proj2 (Qltb_ge len 0) Hlen). cbn [mbind result_bind].
      destruct (Qeq_bool step 0) eqn:E0;
        [apply Qeq_bool_iff in E0; lra|]. cbn [mbind result_bind].
      rewrite bool_decide_true by reflexivity. cbn [orb mbind result_bind].
      destruct (C <? 0)%Z eqn:E1; [lia|]. cbn [mbind result_bind].
      unfold jnp.set_all_but_last. rewrite length_replicate.
      replace (Z.to_nat C - 1)%nat with (Z.to_nat (C - 1)) by lia.
      rewrite <- Hd, jnp_broadcast_same. cbn [mbind result_bind].
      rewrite jnp_setitem_last; [discriminate|reflexivity|].
      rewrite length_app, length_map, length_chunks, length_drop, length_replicate.
      lia. }
  exists b.
  assert (Hb : b = TimeDelay.mk (tshape target) t0 step len C _INTERP_LINEAR 0 t0
                 (map (mkTensor (tshape target))
                      (chunks (Z.to_nat (C - 1)) (prod_shape (tshape target)) (tvals d))
                  ++ [target])
                 _DATA_BEFORE (fun _ => Ok (jnp.zeros (tshape target)))).
  { revert Einit. unfold TimeDelay.__init__. fold step. fold C.
    rewrite (proj2 (Qltb_ge len 0) Hlen). cbn [mbind result_bind].
    destruct (Qeq_bool step 0) eqn:E0;
      [apply Qeq_bool_iff in E0; lra|]. cbn [mbind result_bind].
    rewrite bool_decide_true by reflexivity. cbn [orb mbind result_bind].
    destruct (C <? 0)%Z eqn:E1; [lia|]. cbn [mbind result_bind].
    unfold jnp.set_all_but_last. rewrite length_replicate.
    replace (Z.to_nat C - 1)%nat with (Z.to_nat (C - 1)) by lia.
    rewrite <- Hd, jnp_broadcast_same. cbn [mbind result_bind].
    rewrite jnp_setitem_last;
      [|reflexivity
       |rewrite length_app, length_map, length_chunks, length_drop,
          length_replicate; lia].
    cbn [mbind result_bind]. intros K. injection K as <-. f_equal.
    rewrite length_app, length_map, length_chunks, length_drop, length_replicate.
    rewrite drop_replicate.
    replace (Z.to_nat C - Z.to_nat (C - 1))%nat with 1%nat by lia.
    cbn [replicate].
    replace (Z.to_nat (C - 1) + 1 - 1)%nat
      with (length (map (mkTensor (tshape target))
                      (chunks (Z.to_nat (C - 1)) (prod_shape (tshape target))
                         (tvals d))) + 0)%nat
      by (rewrite length_map, length_chunks; lia).
    rewrite insert_app_r. reflexivity. }
  split; [reflexivity|]. split; [rewrite Hb; reflexivity|].
  destruct (Qceiling_span len step Hstep) as [Hc0 Hc1].
  assert (Hjq : (inject_Z j * step <= inject_Z (C - 2) * step)%Q).
  { apply Qmult_le_compat_r; [|lra]. rewrite <- Zle_Qle. lia. }
  assert (HC2 : (inject_Z (C - 2) * step
                 == inject_Z (Qceiling (len / step)) * step - step)%Q).
  { unfold C. replace (Qceiling (len / step) + 1 - 2)%Z
      with (Qceiling (len / step) + - 1)%Z by lia.
    rewrite inject_Z_plus. change (inject_Z (-1)) with (-1)%Q. ring. }
  assert (Hj0 : (0 <= inject_Z j * step)%Q).
  { apply Qmult_le_0_compat; [|lra]. change 0%Q with (inject_Z 0).
    rewrite <- Zle_Qle. lia. }
  set (t := (t0 - len + inject_Z j * step)%Q).
  pose proof (time_read_linear checking b t) as Hread.
  rewrite Hb in Hread. cbn [TimeDelay.interp_method TimeDelay._before_type
    TimeDelay.t0 TimeDelay.current_time TimeDelay.delay_len TimeDelay.dt
    TimeDelay.num_delay_step TimeDelay.data TimeDelay.idx TimeDelay.shape] in Hread.
  specialize (Hread eq_refl ltac:(discriminate)
                ltac:(unfold t; lra) ltac:(unfold t; lra) Hstep).
  cbn zeta in Hread.
  assert (Hel : (len - (t0 - t) == inject_Z j * step)%Q) by (unfold t; ring).
  assert (Hq : ((len - (t0 - t)) / step == inject_Z j)%Q).
  { rewrite Hel. field. lra. }
  assert (Hsteps : Qfloor ((len - (t0 - t)) / step) = j).
  { rewrite (Qfloor_comp _ _ Hq). apply Qfloor_Z. }
  rewrite Hsteps in Hread.
  assert (Hrem : Qeq_bool (len - (t0 - t) - inject_Z j * step) 0 = true).
  { apply Qeq_bool_iff. rewrite Hel. ring. }
  rewrite Hrem in Hread. rewrite Hb at 1. rewrite Hread.
  set (rows := map (mkTensor (tshape target)) _).
  assert (Hrows : length rows = Z.to_nat (C - 1))
    by (unfold rows; rewrite length_map, length_chunks; reflexivity).
  destruct (jnp_getitem_in_range (rows ++ [target]) (0 + j)) as (x & Hx & Hget).
  { rewrite length_app, Hrows. cbn [length]. lia. }
  rewrite Hget. f_equal.
  rewrite Z.add_0_l in Hx. rewrite lookup_app_l in Hx by lia.
  unfold rows in Hx. rewrite list_lookup_fmap, chunks_lookup in Hx by lia.
  cbn in Hx. injection Hx as <-. reflexivity.
Qed.

Lemma time_init_before_data_layout_witness :
  exists b,
    TimeDelay.__init__ 1 (mkTensor [] [9%Q]) 2
      (Some (BeforeData (mkTensor [2%nat] [5%Q; 6%Q]))) 0 None _INTERP_LINEAR
      = Ok b /\
    TimeDelay.__call__ true b (0 - 2 + inject_Z 1 * 1)
    = Ok (mkTensor [] [6%Q]).
Proof.
  destruct (time_init_before_data_layout true 1 (mkTensor [] [9%Q])
              (mkTensor [2%nat] [5%Q; 6%Q]) 2 0 None 1)
    as (b & Hb & _ & Hcall).
  - vm_compute. discriminate.
  - reflexivity.
  - reflexivity.
  - vm_compute. split; discriminate.
  - exists b. split; [exact Hb|exact Hcall].
Defined.

(** * Further properties of the network *)

(** ** Registration *)

Lemma st_for_app {S X} (xs ys : list X) (body : X -> StateErr S unit) (s : S) :
  st_for (xs ++ ys) body s = (st_for xs body ≫= fun _ => st_for ys body) s.
Proof.
  revert s. induction xs as [|x xs IH]; intros s; cbn [app st_for].
  - rewrite st_bind_eq. reflexivity.
  - rewrite !st_bind_eq. destruct (body x s) as [s1 [[]|e]]; [|reflexivity].
    rewrite IH, st_bind_eq. reflexivity.
Qed.

Lemma st_for_map {S X Y} (g : X -> Y) (xs : list X) (body : Y -> StateErr S unit)
    (s : S) :
  st_for (map g xs) body s = st_for xs (fun x => body (g x)) s.
Proof.
  revert s. induction xs as [|x xs IH]; intros s; cbn [map st_for]; [reflexivity|].
  rewrite !st_bind_eq. destruct (body (g x) s) as [s1 [[]|e]]; [|reflexivity].
  apply IH.
Qed.

Lemma add_as_items (h : Heap) (args : list ref) (kwargs : list (string * ref))
    (self : Network.Network) :
  Network.add h args kwargs self
  = st_for (add_items args kwargs) (fun it => Network._add_obj h it.1 it.2) self.
Proof.
  unfold Network.add, add_items. rewrite st_for_app, !st_bind_eq.
  rewrite st_for_map. cbn [fst snd].
  destruct (st_for args _ self) as [s1 [[]|e]]; [|reflexivity].
  rewrite st_for_map. reflexivity.
Qed.

(** The outcomes of one registration. *)
Lemma add_obj_cases (h : Heap) (obj : ref) (na : option string)
    (self : Network.Network) :
  let nm := default (name (h obj)) na in
  let r := Network._add_obj h obj na self in
  Network._all_objects r.1 = Network._all_objects self ++ [obj] /\
  Network.t_start r.1 = Network.t_start self /\
  Network.t_end r.1 = Network.t_end self /\
  Network.t_duration r.1 = Network.t_duration self /\
  Network.mode r.1 = Network.mode self /\
  Network._step_func r.1 = Network._step_func self /\
  ((registrable h obj = false /\
    r.2 = Raise (ValueError "Unknown object type") /\
    Network._all_neu_groups r.1 = Network._all_neu_groups self /\
    Network._all_syn_conns r.1 = Network._all_syn_conns self /\
    Network._objsets r.1 = Network._objsets self /\
    Network.attrs r.1 = Network.attrs self) \/
   (registrable h obj = true /\
    Network._all_neu_groups r.1
      = Network._all_neu_groups self ++ (if is_NeuGroup (h obj) then [obj] else []) /\
    Network._all_syn_conns r.1
      = Network._all_syn_conns self ++ (if is_NeuGroup (h obj) then [] else [obj]) /\
    ((is_Some (Network._objsets self !! nm) /\
      r.2 = Raise (KeyError "Name has been used in the network, please change another name.") /\
      Network._objsets r.1 = Network._objsets self /\
      Network.attrs r.1 = Network.attrs self) \/
     (Network._objsets self !! nm = None /\
      Network._objsets r.1 = <[nm := obj]> (Network._objsets self) /\
      (((nm ∈ Network.property_names) /\
        r.2 = Raise (AttributeError "can't set attribute") /\
        Network.attrs r.1 = Network.attrs self) \/
       ((nm ∉ Network.property_names) /\
        (name (h obj) ∈ Network.property_names) /\
        r.2 = Raise (AttributeError "can't set attribute") /\
        Network.attrs r.1 = <[nm := obj]> (Network.attrs self)) \/
       ((nm ∉ Network.property_names) /\
        (name (h obj) ∉ Network.property_names) /\
        r.2 = Ok tt /\
        Network.attrs r.1
          = <[name (h obj) := obj]> (<[nm := obj]> (Network.attrs self)))))))).
Proof.
  cbn zeta. unfold registrable.
  cbv [Network._add_obj Network.setattr mbind StateErr_bind st_get st_modify
       st_raise mret StateErr_ret].
  destruct (is_NeuGroup (h obj)) eqn:E1; [|destruct (is_SynConn (h obj)) eqn:E2];
    cbn [orb fst snd];
    try destruct (decide (is_Some (Network._objsets self !! default (name (h obj)) na)))
      as [Hin|Hout];
    try (case_bool_decide as Hp);
    try destruct (decide (name (h obj) <> default (name (h obj)) na)) as [Hne|Heq];
    try (case_bool_decide as Hq);
    cbn [fst snd Network._all_objects Network.t_start Network.t_end
         Network.t_duration Network.mode Network._step_func
         Network._all_neu_groups Network._all_syn_conns Network._objsets
         Network.attrs Network.set_all_objects Network.set_all_neu_groups
         Network.set_all_syn_conns Network.set_objsets Network.set_attr];
    rewrite ?app_nil_r;
    split_and!; try reflexivity.
  all: try (left; split_and!; reflexivity).
  all: right; split_and!; try reflexivity.
  all: try (left; split_and!; [assumption|reflexivity..]).
  all: right; split_and!; try reflexivity;
    try (apply eq_None_not_Some; assumption).
  all: try (left; split_and!; [assumption|reflexivity..]).
  all: right.
  all: try (left; split_and!; [assumption|assumption|reflexivity..]).
  all: right.
  all: try (split_and!; [assumption|assumption|reflexivity..]).
  all: apply dec_stable in Heq; split_and!;
    [assumption|rewrite Heq; assumption|reflexivity|].
  all: rewrite <- Heq, insert_insert_eq; reflexivity.
Qed.

Lemma add_list_success_iff (h : Heap) (items : list (ref * option string)) :
  forall self : Network.Network,
    (st_for items (fun it => Network._add_obj h it.1 it.2) self).2 = Ok tt <->
    Forall (fun it => registrable h it.1 = true) items /\
    NoDup (map (item_key h) items) /\
    Forall (fun k => Network._objsets self !! k = None) (map (item_key h) items) /\
    Forall (settable_item h) items.
Proof.
  induction items as [|it items IH]; intros self; cbn [st_for map].
  - split; [intros _|reflexivity]. split_and!; constructor.
  - rewrite st_bind_eq.
    pose proof (add_obj_cases h it.1 it.2 self) as Hc. cbn zeta in Hc.
    change (default (name (h it.1)) it.2) with (item_key h it) in Hc.
    destruct (Network._add_obj h it.1 it.2 self) as [s1 r1]. cbn [fst snd] in Hc.
    destruct Hc as (_ & _ & _ & _ & _ & _ & [Hbad|Hgood]).
    + destruct Hbad as (Hreg & -> & _). cbn [snd]. split; [discriminate|].
      intros (Hall & _ & _). apply Forall_cons in Hall as [Hit _]. congruence.
    + destruct Hgood as (Hreg & _ & _ & [Hused|Hnew]).
      * destruct Hused as (Hin & -> & _). cbn [snd]. split; [discriminate|].
        intros (_ & _ & Hfresh & _). apply Forall_cons in Hfresh as [Hk _].
        rewrite Hk in Hin. destruct Hin as [? K]. discriminate K.
      * destruct Hnew as (Hk & Hobj & [Hprop|[Hprop|Hset]]).
        { destruct Hprop as (Hp & -> & _). cbn [snd]. split; [discriminate|].
          intros (_ & _ & _ & Hs). apply Forall_cons in Hs as [[Hs _] _].
          contradiction. }
        { destruct Hprop as (_ & Hp & -> & _). cbn [snd]. split; [discriminate|].
          intros (_ & _ & _ & Hs). apply Forall_cons in Hs as [[_ Hs] _].
          contradiction. }
        destruct Hset as (Hp & Hq & -> & _). rewrite IH, Hobj.
        split.
        -- intros (Hall & Hnd & Hfresh & Hs). split_and!.
           ++ constructor; assumption.
           ++ constructor; [|exact Hnd]. intros Hin.
              apply (proj1 (Forall_forall _ _) Hfresh) in Hin.
              rewrite lookup_insert_eq in Hin. discriminate Hin.
           ++ constructor; [exact Hk|].
              apply Forall_forall. intros k Hin.
              pose proof (proj1 (Forall_forall _ _) Hfresh k Hin) as Hl.
              apply lookup_insert_None in Hl as [Hl _]. exact Hl.
           ++ constructor; [split; assumption|exact Hs].
        -- intros (Hall & Hnd & Hfresh & Hs).
           apply Forall_cons in Hall as [_ Hall].
           apply NoDup_cons in Hnd as [Hnotin Hnd].
           apply Forall_cons in Hfresh as [_ Hfresh].
           apply Forall_cons in Hs as [_ Hs].
           split_and!; [exact Hall|exact Hnd| |exact Hs].
           apply Forall_forall. intros k Hin.
           apply lookup_insert_None. split.
           ++ exact (proj1 (Forall_forall _ _) Hfresh k Hin).
           ++ intros <-. contradiction.
Qed.

(** X10: when no name involved is one the network uses itself, a call of
    [add] succeeds exactly when every object is a neuron group or a synapse
    connection, the registry keys (the keyword, else the object's own name)
    are pairwise distinct, none of them is registered yet, and neither a key
    nor an object's own name is one of the read-only properties [ts] and
    [dt]. *)
Theorem add_succeeds_iff (h : Heap) (args : list ref)
    (kwargs : list (string * ref)) (self : Network.Network) :
  let items := add_items args kwargs in
  Forall (free_item h) items ->
  ((Network.add h args kwargs self).2 = Ok tt <->
   Forall (fun it => registrable h it.1 = true) items /\
   NoDup (map (item_key h) items) /\
   Forall (fun k => Network._objsets self !! k = None) (map (item_key h) items) /\
   Forall (settable_item h) items).
Proof. cbn zeta. intros _. rewrite add_as_items. apply add_list_success_iff. Qed.

Lemma add_succeeds_iff_witness :
  (Network.add ex_heap [0%nat] [("s", 1%nat)] (Network.mk [] [] [] ∅ ∅
     (PFloat 0) (PFloat 0) 0 "once" None)).2 = Ok tt /\
  (Network.add ex_heap [0%nat] [("ts", 1%nat)] (Network.mk [] [] [] ∅ ∅
     (PFloat 0) (PFloat 0) 0 "once" None)).2 <> Ok tt.
Proof.
  split.
  - apply (proj2 (add_succeeds_iff ex_heap [0%nat] [("s", 1%nat)] _
                    ltac:(repeat constructor))).
    split_and!.
    + repeat constructor.
    + cbn. apply NoDup_cons. split; [|apply NoDup_singleton].
      intros K. apply list_elem_of_singleton in K. discriminate K.
    + repeat constructor.
    + repeat constructor; cbn; intros K;
        repeat (apply elem_of_cons in K as [K|K]; [discriminate K|]);
        inversion K.
  - intros K.
    apply (proj1 (add_succeeds_iff ex_heap [0%nat] [("ts", 1%nat)] _
                    ltac:(repeat constructor))) in K
      as (_ & _ & _ & Hs).
    apply Forall_cons in Hs as [_ Hs]. apply Forall_cons in Hs as [[Hs _] _].
    apply Hs. left.
Defined.

Lemma foldl_insert_other {X} (key : X -> string) (val : X -> ref)
    (xs : list X) :
  forall (m0 : gmap string ref) (k : string),
    k ∉ map key xs ->
    foldl (fun m x => <[key x := val x]> m) m0 xs !! k = m0 !! k.
Proof.
  induction xs as [|x xs IH]; intros m0 k Hk; cbn [foldl]; [reflexivity|].
  cbn [map] in Hk. apply not_elem_of_cons in Hk as [Hne Hk].
  rewrite IH by exact Hk. apply lookup_insert_ne. congruence.
Qed.

Lemma foldl_insert_lookup {X} (key : X -> string) (val : X -> ref)
    (xs : list X) :
  forall (m0 : gmap string ref) (x : X),
    NoDup (map key xs) -> x ∈ xs ->
    foldl (fun m x => <[key x := val x]> m) m0 xs !! key x = Some (val x).
Proof.
  induction xs as [|y xs IH]; intros m0 x Hnd Hin; [inversion Hin|].
  cbn [map] in Hnd. apply NoDup_cons in Hnd as [Hnotin Hnd]. cbn [foldl].
  apply elem_of_cons in Hin as [->|Hin].
  - rewrite foldl_insert_other by exact Hnotin. apply lookup_insert_eq.
  - apply IH; assumption.
Qed.

Lemma add_list_success_state (h : Heap) (items : list (ref * option string)) :
  forall self self' : Network.Network,
    st_for items (fun it => Network._add_obj h it.1 it.2) self = (self', Ok tt) ->
    Network._all_objects self' = Network._all_objects self ++ map fst items /\
    Network._all_neu_groups self'
      = Network._all_neu_groups self
        ++ List.filter (fun r => is_NeuGroup (h r)) (map fst items) /\
    Network._all_syn_conns self'
      = Network._all_syn_conns self
        ++ List.filter (fun r => negb (is_NeuGroup (h r))) (map fst items) /\
    Network._objsets self'
      = foldl (fun m it => <[item_key h it := it.1]> m)
              (Network._objsets self) items /\
    Network.attrs self'
      = foldl (fun m it => <[name (h it.1) := it.1]> (<[item_key h it := it.1]> m))
              (Network.attrs self) items.
Proof.
  induction items as [|it items IH]; intros self self' Hrun; cbn [st_for] in Hrun.
  - injection Hrun as <-. cbn. rewrite !app_nil_r. split_and!; reflexivity.
  - rewrite st_bind_eq in Hrun.
    pose proof (add_obj_cases h it.1 it.2 self) as Hc. cbn zeta in Hc.
    change (default (name (h it.1)) it.2) with (item_key h it) in Hc.
    destruct (Network._add_obj h it.1 it.2 self) as [s1 r1]. cbn [fst snd] in Hc.
    destruct Hc as (Hobjs & _ & _ & _ & _ & _ & [Hbad|Hgood]).
    { destruct Hbad as (_ & -> & _). discriminate Hrun. }
    destruct Hgood as (_ & Hneu & Hsyn & [Hused|Hnew]).
    { destruct Hused as (_ & -> & _). discriminate Hrun. }
    destruct Hnew as (_ & Hreg & [(_ & -> & _)|[(_ & _ & -> & _)|Hset]]);
      try discriminate Hrun.
    destruct Hset as (_ & _ & -> & Hattr).
    destruct (IH s1 self' Hrun) as (H1 & H2 & H3 & H4 & H5).
    rewrite Hobjs in H1. rewrite Hneu in H2. rewrite Hsyn in H3.
    rewrite Hreg in H4. rewrite Hattr in H5.
    cbn [map List.filter foldl fst].
    rewrite H1, H2, H3, H4, H5, <- !app_assoc.
    destruct (is_NeuGroup (h it.1)); cbn [negb app]; split_and!; reflexivity.
Qed.

(** X11: when no name involved is one the network uses itself, a
    successful call of [add] appends the objects to the ordered list of
    participants in call order, positional ones before keyword ones,
    appends the neuron groups and the other objects to their class lists in
    that same order, binds each registry key to its object and leaves every
    other registry key as it was. *)
Theorem add_registers_in_order (h : Heap) (args : list ref)
    (kwargs : list (string * ref)) (self self' : Network.Network) :
  Forall (free_item h) (add_items args kwargs) ->
  Network.add h args kwargs self = (self', Ok tt) ->
  let objs := args ++ map snd kwargs in
  Network._all_objects self' = Network._all_objects self ++ objs /\
  Network._all_neu_groups self'
    = Network._all_neu_groups self ++ List.filter (fun r => is_NeuGroup (h r)) objs /\
  Network._all_syn_conns self'
    = Network._all_syn_conns self
      ++ List.filter (fun r => negb (is_NeuGroup (h r))) objs /\
  (forall r, r ∈ args -> Network._objsets self' !! name (h r) = Some r) /\
  (forall k r, (k, r) ∈ kwargs -> Network._objsets self' !! k = Some r) /\
  (forall k, k ∉ map (item_key h) (add_items args kwargs) ->
     Network._objsets self' !! k = Network._objsets self !! k).
Proof.
  intros _ Hadd. cbn zeta.
  assert (Hok : (Network.add h args kwargs self).2 = Ok tt)
    by (rewrite Hadd; reflexivity).
  rewrite add_as_items in Hadd, Hok.
  apply add_list_success_iff in Hok as (_ & Hnd & _).
  apply add_list_success_state in Hadd as (H1 & H2 & H3 & H4 & _).
  assert (Hfst : map fst (add_items args kwargs) = args ++ map snd kwargs).
  { unfold add_items. rewrite map_app, !map_map. cbn [fst].
    rewrite map_id. reflexivity. }
  rewrite Hfst in H1, H2, H3.
  split_and!; try assumption.
  - intros r Hr. rewrite H4.
    apply (foldl_insert_lookup (item_key h) fst _ _ (r, None) Hnd).
    unfold add_items. apply elem_of_app. left.
    apply (list_elem_of_fmap_2 (fun r => (r, None))). exact Hr.
  - intros k r Hkr. rewrite H4.
    apply (foldl_insert_lookup (item_key h) fst _ _ (r, Some k) Hnd).
    unfold add_items. apply elem_of_app. right.
    apply (list_elem_of_fmap_2 (fun kv : string * ref => (kv.2, Some kv.1)) _ (k, r)).
    exact Hkr.
  - intros k Hk. rewrite H4. apply foldl_insert_other. exact Hk.
Qed.

Lemma add_registers_in_order_witness :
  exists self',
    Network.add ex_heap [1%nat] [("n", 0%nat)] (Network.mk [] [] [] ∅ ∅
      (PFloat 0) (PFloat 0) 0 "once" None) = (self', Ok tt) /\
    Network._all_objects self' = [1%nat; 0%nat] /\
    Network._all_neu_groups self' = [0%nat] /\
    Network._all_syn_conns self' = [1%nat] /\
    Network._objsets self' !! "syn" = Some 1%nat /\
    Network._objsets self' !! "n" = Some 0%nat /\
    Network._objsets self' !! "neu" = None.
Proof.
  destruct (Network.add ex_heap [1%nat] [("n", 0%nat)] (Network.mk [] [] [] ∅ ∅
              (PFloat 0) (PFloat 0) 0 "once" None)) as [self' r] eqn:E.
  assert (Hr : r = Ok tt).
  { pose proof (f_equal snd E) as K. vm_compute in K. congruence. }
  subst r. exists self'. split; [reflexivity|].
  assert (Hfree : Forall (free_item ex_heap) (add_items [1%nat] [("n", 0%nat)]))
    by (repeat constructor).
  destruct (add_registers_in_order ex_heap [1%nat] [("n", 0%nat)] _ self' Hfree E)
    as (H1 & H2 & H3 & H4 & H5 & H6).
  split_and!.
  - exact H1.
  - exact H2.
  - exact H3.
  - apply (H4 1%nat). left.
  - apply (H5 "n" 0%nat). left.
  - rewrite H6; [reflexivity|]. cbn. intros K.
    repeat (apply elem_of_cons in K as [K|K]; [discriminate K|]).
    inversion K.
Defined.

Lemma add_obj_any (h : Heap) (obj : ref) (na : option string)
    (self : Network.Network) :
  let r := Network._add_obj h obj na self in
  (forall k v, Network._objsets self !! k = Some v ->
               Network._objsets r.1 !! k = Some v) /\
  (registry_closed self -> registry_closed r.1).
Proof.
  cbn zeta.
  pose proof (add_obj_cases h obj na self) as Hc. cbn zeta in Hc.
  destruct (Network._add_obj h obj na self) as [s1 r1]. cbn [fst snd] in *.
  destruct Hc as (Hobjs & _ & _ & _ & _ & _ & Hc).
  assert (Hmono : forall r, r ∈ Network._all_objects self ->
                            r ∈ Network._all_objects s1)
    by (intros r Hr; rewrite Hobjs; apply elem_of_app; left; exact Hr).
  assert (Hobj : obj ∈ Network._all_objects s1)
    by (rewrite Hobjs; apply elem_of_app; right; left).
  assert (Hcls : forall l r,
             r ∈ l ++ (if is_NeuGroup (h obj) then [obj] else []) \/
             r ∈ l ++ (if is_NeuGroup (h obj) then [] else [obj]) ->
             (forall r, r ∈ l -> r ∈ Network._all_objects self) ->
             r ∈ Network._all_objects s1).
  { intros l r Hr Hl.
    destruct Hr as [Hr|Hr]; apply elem_of_app in Hr as [Hr|Hr]; eauto;
      destruct (is_NeuGroup (h obj)); try (inversion Hr; fail);
      apply list_elem_of_singleton in Hr as ->; exact Hobj. }
  destruct Hc as [(_ & _ & Hneu & Hsyn & Hreg & Hattr)
                 |(_ & Hneu & Hsyn & [(_ & _ & Hreg & Hattr)|(Hk & Hreg & Hattr)])].
  - split; [intros k v; rewrite Hreg; auto|].
    intros [C1 C2 C3 C4]. split; rewrite ?Hneu, ?Hsyn, ?Hreg, ?Hattr; eauto.
  - split; [intros k v; rewrite Hreg; auto|].
    intros [C1 C2 C3 C4].
    split; rewrite ?Hneu, ?Hsyn, ?Hreg, ?Hattr; eauto.
  - split.
    + intros k v Hkv. rewrite Hreg. rewrite lookup_insert_ne; [exact Hkv|].
      intros <-. congruence.
    + intros [C1 C2 C3 C4].
      split; rewrite ?Hneu, ?Hsyn, ?Hreg; eauto.
      * intros k r Hkr. apply lookup_insert_Some in Hkr as [[_ <-]|[_ Hkr]]; eauto.
      * intros k r Hkr.
        destruct Hattr as [(_ & _ & Hattr)|[(_ & _ & _ & Hattr)|(_ & _ & _ & Hattr)]];
          rewrite Hattr in Hkr; eauto.
        -- apply lookup_insert_Some in Hkr as [[_ <-]|[_ Hkr]]; eauto.
        -- apply lookup_insert_Some in Hkr as [[_ <-]|[_ Hkr]]; [exact Hobj|].
           apply lookup_insert_Some in Hkr as [[_ <-]|[_ Hkr]]; eauto.
Qed.

Lemma add_list_any (h : Heap) (items : list (ref * option string)) :
  forall self : Network.Network,
    let r := st_for items (fun it => Network._add_obj h it.1 it.2) self in
    ((r.2 = Ok tt /\
      Network._all_objects r.1 = Network._all_objects self ++ map fst items) \/
     (exists pre bad post e, items = pre ++ bad :: post /\
        r.2 = Raise e /\
        Network._all_objects r.1
          = Network._all_objects self ++ map fst pre ++ [bad.1])) /\
    (forall k v, Network._objsets self !! k = Some v ->
                 Network._objsets r.1 !! k = Some v) /\
    Network.t_start r.1 = Network.t_start self /\
    Network.t_end r.1 = Network.t_end self /\
    Network.t_duration r.1 = Network.t_duration self /\
    Network.mode r.1 = Network.mode self /\
    Network._step_func r.1 = Network._step_func self /\
    (registry_closed self -> registry_closed r.1).
Proof.
  induction items as [|it items IH]; intros self; cbn zeta; cbn [st_for].
  - cbn. split_and!; try reflexivity; try auto.
    left. rewrite app_nil_r. auto.
  - rewrite st_bind_eq.
    pose proof (add_obj_cases h it.1 it.2 self) as Hc.
    pose proof (add_obj_any h it.1 it.2 self) as Ha. cbn zeta in Hc, Ha.
    destruct (Network._add_obj h it.1 it.2 self) as [s1 [[]|e]]; cbn [fst snd] in *.
    + specialize (IH s1). cbn zeta in IH.
      destruct (st_for items _ s1) as [s2 r2]. cbn [fst snd] in *.
      destruct IH as (Hout & Hreg & E1 & E2 & E3 & E4 & E5 & Hclosed).
      destruct Hc as (Hobjs1 & F1 & F2 & F3 & F4 & F5 & _).
      destruct Ha as [Hreg1 Hclosed1].
      split_and!; try congruence; try auto.
      destruct Hout as [[Hok Hobjs]|(pre & bad & post & e & -> & He & Hobjs)].
      * left. split; [exact Hok|].
        rewrite Hobjs, Hobjs1, <- app_assoc. reflexivity.
      * right. exists (it :: pre), bad, post, e. cbn [map app].
        split; [reflexivity|]. split; [exact He|].
        rewrite Hobjs, Hobjs1, <- !app_assoc. reflexivity.
    + destruct Hc as (Hobjs1 & F1 & F2 & F3 & F4 & F5 & _).
      destruct Ha as [Hreg1 Hclosed1].
      split_and!; try assumption.
      right. exists [], it, items, e. cbn [map app].
      split; [reflexivity|]. split; [reflexivity|exact Hobjs1].
Qed.

(** X12: when no name involved is one the network uses itself, a call of
    [add], whatever its outcome, only appends to the ordered list of
    participants: all the objects if it succeeds, and if it fails the
    objects before the one it failed on followed by that object itself.
    It never rebinds or removes a registry key, never touches the run
    state, and keeps the registry closed: every object in a class list, in
    the registry or behind an attribute is a participant. *)
Theorem add_never_unregisters (h : Heap) (args : list ref)
    (kwargs : list (string * ref)) (self : Network.Network) :
  let items := add_items args kwargs in
  let r := Network.add h args kwargs self in
  Forall (free_item h) items ->
  ((r.2 = Ok tt /\
    Network._all_objects r.1 = Network._all_objects self ++ map fst items) \/
   (exists pre bad post e, items = pre ++ bad :: post /\
      r.2 = Raise e /\
      Network._all_objects r.1
        = Network._all_objects self ++ map fst pre ++ [bad.1])) /\
  (forall k v, Network._objsets self !! k = Some v ->
               Network._objsets r.1 !! k = Some v) /\
  Network.t_start r.1 = Network.t_start self /\
  Network.t_end r.1 = Network.t_end self /\
  Network.t_duration r.1 = Network.t_duration self /\
  Network.mode r.1 = Network.mode self /\
  Network._step_func r.1 = Network._step_func self /\
  (registry_closed self -> registry_closed r.1).
Proof.
  cbn zeta. intros _. rewrite add_as_items.
  apply (add_list_any h (add_items args kwargs) self).
Qed.

Lemma add_never_unregisters_witness :
  let r := Network.add ex_heap [0%nat; 2%nat; 1%nat] [] (Network.mk [] [] [] ∅ ∅
             (PFloat 0) (PFloat 0) 0 "once" None) in
  r.2 = Raise (ValueError "Unknown object type") /\
  Network._all_objects r.1 = [0%nat; 2%nat] /\
  registry_closed r.1.
Proof.
  cbn zeta. split; [vm_compute; reflexivity|]. split; [vm_compute; reflexivity|].
  apply (add_never_unregisters ex_heap [0%nat; 2%nat; 1%nat] []).
  - repeat constructor.
  - split; cbn; intros; try (inversion H; fail);
      try (rewrite lookup_empty in H; try discriminate H; destruct H; discriminate).
Defined.

(** X13: an object added under a keyword different from its own name,
    neither of them a name the network uses itself or a read-only property,
    is afterwards reachable as an attribute under both names but registered
    under the keyword only: its own name is neither checked against the
    registry nor entered in it, so the registry entry of that name is left
    as it was while the attribute of that name now is the new object. *)
Theorem add_keyword_alias (h : Heap) (obj : ref) (k : string)
    (self : Network.Network) :
  free_item h (obj, Some k) ->
  settable_item h (obj, Some k) ->
  registrable h obj = true ->
  Network._objsets self !! k = None ->
  k <> name (h obj) ->
  let r := Network._add_obj h obj (Some k) self in
  r.2 = Ok tt /\
  Network.getattr r.1 k = Ok obj /\
  Network.getattr r.1 (name (h obj)) = Ok obj /\
  Network._objsets r.1 !! k = Some obj /\
  Network._objsets r.1 !! name (h obj) = Network._objsets self !! name (h obj).
Proof.
  intros _ [Hs1 Hs2] Hreg Hfresh Hne. cbn zeta.
  unfold item_key in Hs1. cbn [fst snd from_option id] in Hs1, Hs2.
  pose proof (add_obj_cases h obj (Some k) self) as Hc. cbn zeta in Hc.
  change (default (name (h obj)) (Some k)) with k in Hc.
  destruct (Network._add_obj h obj (Some k) self) as [s1 r1]. cbn [fst snd] in *.
  destruct Hc as (_ & _ & _ & _ & _ & _ & [(Hbad & _)|(_ & _ & _ & [(Hin & _)|Hnew])]).
  - congruence.
  - rewrite Hfresh in Hin. destruct Hin as [? K]. discriminate K.
  - destruct Hnew as (_ & Hobjsets & [(Hp & _)|[(_ & Hp & _)|(_ & _ & -> & Hattrs)]]);
      try contradiction.
    unfold Network.getattr. rewrite Hattrs, Hobjsets.
    rewrite lookup_insert_eq.
    rewrite (lookup_insert_ne _ (name (h obj)) k) by congruence.
    rewrite !lookup_insert_eq.
    rewrite lookup_insert_ne by congruence.
    split_and!; reflexivity.
Qed.

Lemma add_keyword_alias_witness :
  let n0 := Network.mk [] [1%nat] [1%nat] (<["neu" := 1%nat]> ∅)
              (<["neu" := 1%nat]> ∅) (PFloat 0) (PFloat 0) 0 "once" None in
  let r := Network._add_obj ex_heap 0%nat (Some "syn2") n0 in
  r.2 = Ok tt /\
  Network.getattr r.1 "neu" = Ok 0%nat /\
  Network._objsets r.1 !! "neu" = Some 1%nat.
Proof.
  intros n0. cbn zeta.
  destruct (add_keyword_alias ex_heap 0%nat "syn2" n0)
    as (H1 & _ & H3 & _ & H5).
  - split; reflexivity.
  - split; cbn; intros K;
      repeat (apply elem_of_cons in K as [K|K]; [discriminate K|]);
      inversion K.
  - reflexivity.
  - vm_compute; reflexivity.
  - discriminate.
  - split; [exact H1|]. split; [exact H3|].
    etrans; [exact H5|]. vm_compute. reflexivity.
Defined.

(** ** Formatting of inputs *)

Lemma format_inp_acc (self : Network.Network) (h : Heap) (rl : nat)
    (acc fi : FormattedInputs) (inp : PyVal) :
  Network.format_inp self h rl acc inp = Ok fi ->
  exists T e, Network.format_inp self h rl [] inp = Ok [(T, [e])] /\
              fi = assoc_append T e acc.
Proof.
  unfold Network.format_inp. intros H.
  repeat match goal with
         | H : (_ ≫= _) = Ok _ |- _ =>
             let Hx := fresh "Hx" in
             apply result_bind_ok in H as (? & Hx & H);
             rewrite Hx; cbn [mbind result_bind]
         | H : (let '(_, _) := ?x in _) = Ok _ |- _ => destruct x
         end.
  injection H as <-. eexists _, _. split; reflexivity.
Qed.

Lemma for_each_format_inp (self : Network.Network) (h : Heap) (rl : nat)
    (inps : list PyVal) :
  forall acc fi : FormattedInputs,
    for_each (Network.format_inp self h rl) inps acc = Ok fi ->
    exists entries : list (string * FormatInp),
      Forall2 (fun inp te =>
                 Network.format_inp self h rl [] inp = Ok [(te.1, [te.2])])
              inps entries /\
      fi = foldl (fun d te => assoc_append te.1 te.2 d) acc entries.
Proof.
  induction inps as [|inp inps IH]; intros acc fi Hrun; cbn [for_each] in Hrun.
  - injection Hrun as <-. exists []. split; [constructor|reflexivity].
  - apply result_bind_ok in Hrun as (acc1 & Hone & Hrun).
    apply format_inp_acc in Hone as (T & e & Hone & ->).
    destruct (IH _ _ Hrun) as (entries & Hall & ->).
    exists ((T, e) :: entries). split; [constructor; assumption|reflexivity].
Qed.

Lemma assoc_get_append {V} (T k : string) (x : V) (d : list (string * list V)) :
  assoc_get T (assoc_append k x d)
  = if decide (T = k) then Some (default [] (assoc_get T d) ++ [x])
    else assoc_get T d.
Proof.
  induction d as [|[k' xs] d IH]; cbn [assoc_append assoc_get].
  - destruct (decide (T = k)); reflexivity.
  - destruct (decide (k = k')) as [->|Hne]; cbn [assoc_get].
    + destruct (decide (T = k')); reflexivity.
    + destruct (decide (T = k')) as [->|Hne'].
      * destruct (decide (k' = k)); [congruence|reflexivity].
      * exact IH.
Qed.

Lemma assoc_append_keys {V} (k : string) (x : V) (d : list (string * list V)) :
  map fst (assoc_append k x d)
  = if decide (k ∈ map fst d) then map fst d else map fst d ++ [k].
Proof.
  induction d as [|[k' xs] d IH]; cbn [assoc_append map fst app].
  - rewrite decide_False by (intros K; inversion K). reflexivity.
  - destruct (decide (k = k')) as [->|Hne]; cbn [map fst].
    + rewrite decide_True by left. reflexivity.
    + rewrite IH. destruct (decide (k ∈ map fst d)) as [Hin|Hout].
      * rewrite decide_True by (right; exact Hin). reflexivity.
      * rewrite decide_False; [reflexivity|].
        intros K. apply elem_of_cons in K as [K|K]; contradiction.
Qed.

Lemma foldl_assoc_append_get {V} (T : string) (entries : list (string * V)) :
  forall d : list (string * list V),
    assoc_get T (foldl (fun d te => assoc_append te.1 te.2 d) d entries)
    = match map snd (List.filter (fun te => bool_decide (te.1 = T)) entries) with
      | [] => assoc_get T d
      | g => Some (default [] (assoc_get T d) ++ g)
      end.
Proof.
  induction entries as [|[k x] entries IH]; intros d; cbn [foldl List.filter fst snd];
    [reflexivity|].
  rewrite IH, assoc_get_append.
  case_bool_decide as Hk; cbn [map snd].
  - subst k. rewrite decide_True by reflexivity. cbn [from_option id].
    destruct (map snd _) as [|y g]; [reflexivity|].
    rewrite <- app_assoc. reflexivity.
  - rewrite decide_False by congruence. reflexivity.
Qed.

Lemma first_occ_ext (l : list string) :
  forall s1 s2 : list string,
    (forall x, x ∈ s1 <-> x ∈ s2) -> first_occ s1 l = first_occ s2 l.
Proof.
  induction l as [|x l IH]; intros s1 s2 Hs; cbn [first_occ]; [reflexivity|].
  destruct (decide (x ∈ s1)) as [H1|H1].
  - rewrite decide_True by (apply Hs; exact H1). apply IH. exact Hs.
  - rewrite decide_False by (rewrite <- Hs; exact H1). f_equal.
    apply IH. intros y. rewrite !elem_of_cons, Hs. reflexivity.
Qed.

Lemma foldl_assoc_append_keys {V} (entries : list (string * V)) :
  forall d : list (string * list V),
    map fst (foldl (fun d te => assoc_append te.1 te.2 d) d entries)
    = map fst d ++ first_occ (map fst d) (map fst entries).
Proof.
  induction entries as [|[k x] entries IH]; intros d; cbn [foldl map fst first_occ snd].
  - rewrite app_nil_r. reflexivity.
  - rewrite IH, assoc_append_keys.
    destruct (decide (k ∈ map fst d)) as [Hin|Hout]; [reflexivity|].
    rewrite <- app_assoc. cbn [app]. f_equal. f_equal.
    apply first_occ_ext. intros y. split; intros K.
    + apply elem_of_app in K as [K|K]; [right; exact K|].
      apply list_elem_of_singleton in K. subst y. left.
    + apply elem_of_app. apply elem_of_cons in K as [K|K]; [right|left; exact K].
      apply list_elem_of_singleton. exact K.
Qed.

Lemma first_occ_NoDup (l : list string) :
  forall seen : list string,
    NoDup (first_occ seen l) /\ forall x, x ∈ first_occ seen l -> x ∉ seen.
Proof.
  induction l as [|x l IH]; intros seen; cbn [first_occ].
  - split; [constructor|]. intros x K. inversion K.
  - destruct (decide (x ∈ seen)) as [Hin|Hout]; [apply IH|].
    destruct (IH (x :: seen)) as [Hnd Hfresh]. split.
    + constructor; [|exact Hnd]. intros K. apply Hfresh in K. apply K. left.
    + intros y Hy. apply elem_of_cons in Hy as [->|Hy]; [exact Hout|].
      apply Hfresh in Hy. intros K. apply Hy. right. exact K.
Qed.

(** X14: a successful [_format_inputs] on a list of entries groups them by
    target like an insertion-ordered dict of lists: each input yields one
    entry for one target, the targets appear in order of first occurrence
    without repetition, and each target holds exactly the entries addressed
    to it, in the order given. *)
Theorem format_inputs_groups (env : Backend) (self : Network.Network)
    (h : Heap) (inps : list PyVal) (rl : nat) (fi : FormattedInputs) :
  (forall first, head inps = Some first -> py_is_seq first = true) ->
  Network._format_inputs env self h (PList inps) rl = Ok fi ->
  exists entries : list (string * FormatInp),
    Forall2 (fun inp te =>
               Network.format_inp self h rl [] inp = Ok [(te.1, [te.2])])
            inps entries /\
    map fst fi = first_occ [] (map fst entries) /\
    NoDup (map fst fi) /\
    forall T, assoc_get T fi
              = match group_of T entries with
                | [] => None
                | g => Some g
                end.
Proof.
  intros Hfirst. unfold Network._format_inputs.
  cbn [py_is_seq py_len mbind result_bind].
  assert (Hwrap : (if decide (0 < length inps)%nat then
                     first ← py_getitem (PList inps) 0;
                     if negb (py_is_seq first) then
                       match first with
                       | PObj r =>
                           if is_BrainEnsemble (h r) then Ok (PList [PList inps])
                           else Raise (ModelUseError "Unknown input structure.")
                       | _ => Raise (ModelUseError "Unknown input structure.")
                       end
                     else Ok (PList inps)
                   else Ok (PList inps)) = Ok (PList inps)).
  { destruct inps as [|first rest]; [reflexivity|].
    rewrite decide_True by (cbn; lia). cbn [py_getitem lookup list_lookup].
    cbn [mbind result_bind]. rewrite (Hfirst first eq_refl). reflexivity. }
  rewrite Hwrap. cbn [mbind result_bind].
  intros Hrun. apply result_bind_ok in Hrun as (_ & _ & Hrun).
  apply for_each_format_inp in Hrun as (entries & Hall & ->).
  exists entries. split; [exact Hall|].
  pose proof (foldl_assoc_append_keys entries ([] : FormattedInputs)) as Hkeys.
  cbn [map app] in Hkeys. split; [exact Hkeys|]. split.
  - rewrite Hkeys. apply first_occ_NoDup.
  - intros T. rewrite foldl_assoc_append_get. unfold group_of.
    destruct (map snd _); reflexivity.
Qed.

Lemma format_inputs_groups_witness :
  let inps := [PTuple [PStr "syn"; PStr "a"; PFloat 1];
               PTuple [PObj 0%nat; PStr "b"; PFloat 2; PStr "="];
               PTuple [PObj 1%nat; PStr "c"; PFloat 3]] in
  exists fi entries,
    Network._format_inputs ex_env (ex_net "once") ex_heap (PList inps) 5 = Ok fi /\
    map fst entries = ["syn"; "neu"; "syn"] /\
    map fst fi = ["syn"; "neu"] /\
    assoc_get "syn" fi = Some (group_of "syn" entries) /\
    group_of "syn" entries
    = [("a", PFloat 1, "+", "fix"); ("c", PFloat 3, "+", "fix")].
Proof.
  intros inps.
  destruct (Network._format_inputs ex_env (ex_net "once") ex_heap (PList inps) 5)
    as [fi|e] eqn:E; [|vm_compute in E; discriminate E].
  assert (Hfirst : forall first, head inps = Some first -> py_is_seq first = true)
    by (intros first K; injection K as <-; reflexivity).
  destruct (format_inputs_groups ex_env (ex_net "once") ex_heap inps 5 fi Hfirst E)
    as (entries & Hall & Hkeys & _ & Hget).
  exists fi, entries. split; [reflexivity|].
  assert (Hentries : entries = [("syn", ("a", PFloat 1, "+", "fix"));
                                ("neu", ("b", PFloat 2, "=", "fix"));
                                ("syn", ("c", PFloat 3, "+", "fix"))]).
  { unfold inps in Hall.
    repeat match goal with
           | H : Forall2 _ (_ :: _) _ |- _ =>
               apply Forall2_cons_inv_l in H as ([? ?] & ? & H1 & H & ->);
               vm_compute in H1; injection H1 as <- <-
           | H : Forall2 _ [] _ |- _ => apply Forall2_nil_inv_l in H as ->
           end.
    reflexivity. }
  subst entries. split; [reflexivity|]. split; [exact Hkeys|].
  split; [|reflexivity]. rewrite Hget. reflexivity.
Defined.

(** ** Building the step procedure *)

Lemma build_fold (env : Backend) (rl : nat) (fi : FormattedInputs)
    (B : ref -> Obj * list string) (objs : list ref) :
  forall (acc : list (string * ref) * list string) (w : Network.World),
    NoDup objs ->
    (forall obj, obj ∈ objs ->
       obj_build env (Network.heap w obj)
         (assoc_get (name (Network.heap w obj)) fi) rl = Ok (B obj)) ->
    exists w',
      st_fold (fun (acc : list (string * ref) * list string) (obj : ref) =>
                 w ← st_get;
                 built ←
                     st_lift (obj_build env (Network.heap w obj)
                                (assoc_get (name (Network.heap w obj)) fi) rl);
                 _ ← Network.modify_obj obj (fun _ => built.1);
                 mret (acc.1 ++ [(name (Network.heap w obj), obj)],
                       acc.2 ++ built.2))
              objs acc w
      = (w', Ok (acc.1 ++ map (fun o => (name (Network.heap w o), o)) objs,
                 acc.2 ++ concat (map (fun o => (B o).2) objs))) /\
      Network.net w' = Network.net w /\
      Network.trace w' = Network.trace w /\
      Network.builds w' = Network.builds w /\
      forall o, Network.heap w' o
                = if decide (o ∈ objs) then (B o).1 else Network.heap w o.
Proof.
  induction objs as [|obj objs IH]; intros acc w Hnd Hbuild; cbn [st_fold].
  - exists w. cbn [map concat]. rewrite !app_nil_r.
    split; [destruct acc; reflexivity|]. split_and!; reflexivity.
  - apply NoDup_cons in Hnd as [Hnotin Hnd].
    rewrite st_bind_eq.
    set (w1 := Network.mkWorld (Network.net w)
                 (heap_set (Network.heap w) obj (B obj).1)
                 (Network.trace w) (Network.builds w)).
    match goal with
    | |- context [let (s', r) := ?m w in _] =>
        assert (Hbody : m w
                  = (w1, Ok (acc.1 ++ [(name (Network.heap w obj), obj)],
                             acc.2 ++ (B obj).2)))
    end.
    { unfold mbind, StateErr_bind, st_get, st_lift, Network.modify_obj,
        st_modify, mret, StateErr_ret.
      rewrite (Hbuild obj ltac:(left)). reflexivity. }
    rewrite Hbody.
    assert (Hsame : forall o, o ∈ objs -> Network.heap w1 o = Network.heap w o).
    { intros o Ho. unfold w1, heap_set. cbn [Network.heap].
      rewrite decide_False; [reflexivity|]. intros ->. contradiction. }
    destruct (IH (acc.1 ++ [(name (Network.heap w obj), obj)], acc.2 ++ (B obj).2)
                 w1 Hnd) as (w' & Hrun & Hnet & Htr & Hb & Hheap).
    { intros o Ho. rewrite (Hsame o Ho). apply Hbuild. right. exact Ho. }
    exists w'. split_and!.
    + rewrite Hrun. cbn [fst snd map concat]. rewrite <- !app_assoc. cbn [app].
      assert (Hmap : map (fun o => (name (Network.heap w1 o), o)) objs
                     = map (fun o => (name (Network.heap w o), o)) objs).
      { apply map_ext_in. intros o Ho.
        rewrite (Hsame o); [reflexivity|]. apply list_elem_of_In. exact Ho. }
      rewrite Hmap. reflexivity.
    + exact Hnet.
    + exact Htr.
    + exact Hb.
    + intros o. rewrite Hheap.
      destruct (decide (o ∈ objs)) as [Ho|Ho].
      * rewrite decide_True by (right; exact Ho). reflexivity.
      * unfold w1, heap_set. cbn [Network.heap].
        destruct (decide (o = obj)) as [->|Hne].
        -- rewrite decide_True by left. reflexivity.
        -- rewrite decide_False; [reflexivity|].
           intros K. apply elem_of_cons in K as [K|K]; contradiction.
Qed.

(** X15: when the inputs format and every participant's own build succeeds,
    [build] builds each participant once, in registration order, with the
    inputs addressed to its name, replaces the participant by what its build
    left, and compiles the header followed by the participants' lines, in
    that order, in the scope that maps each name to its object; the network
    itself is not changed. *)
Theorem build_assembles (env : Backend) (rl : nat) (inputs : PyVal)
    (w : Network.World) (fi : FormattedInputs) (B : ref -> Obj * list string) :
  let objs := Network._all_objects (Network.net w) in
  Network._format_inputs env (Network.net w) (Network.heap w) inputs rl = Ok fi ->
  NoDup objs ->
  (forall obj, obj ∈ objs ->
     obj_build env (Network.heap w obj)
       (assoc_get (name (Network.heap w obj)) fi) rl = Ok (B obj)) ->
  let r := Network.build env rl inputs w in
  r.2 = exec_step_func env
          (["# network step function"; "def step_func(_t_, _i_, _dt_):"]
           ++ concat (map (fun o => (B o).2) objs))
          (map (fun o => (name (Network.heap w o), o)) objs) /\
  Network.net r.1 = Network.net w /\
  Network.trace r.1 = Network.trace w /\
  Network.builds r.1 = Network.builds w /\
  forall o, Network.heap r.1 o
            = if decide (o ∈ objs) then (B o).1 else Network.heap w o.
Proof.
  intros objs Hfi Hnd Hbuild.
  destruct (build_fold env rl fi B objs
              ([], ["# network step function"; "def step_func(_t_, _i_, _dt_):"])
              w Hnd Hbuild) as (w' & Hrun & Hnet & Htr & Hb & Hheap).
  assert (Hres : Network.build env rl inputs w
            = (w', exec_step_func env
                     (["# network step function"; "def step_func(_t_, _i_, _dt_):"]
                      ++ concat (map (fun o => (B o).2) objs))
                     (map (fun o => (name (Network.heap w o), o)) objs))).
  { unfold Network.build. rewrite st_bind_eq. unfold st_get at 1.
    rewrite st_bind_eq. unfold st_lift at 1. rewrite Hfi.
    rewrite st_bind_eq. cbn zeta. fold objs. rewrite Hrun. reflexivity. }
  cbn zeta. rewrite Hres. cbn [fst snd].
  split_and!; try assumption. reflexivity.
Qed.

Lemma build_assembles_witness :
  let r := Network.build ex_env 5 (PTuple []) (ex_world "once") in
  r.2 = Ok ex_step /\
  Network.net r.1 = ex_net "once" /\
  Network.heap r.1 0%nat = ex_neu.
Proof.
  cbn zeta.
  destruct (build_assembles ex_env 5 (PTuple []) (ex_world "once") []
              (fun r => (ex_heap r, [])))
    as (H1 & H2 & _ & _ & H5).
  - reflexivity.
  - cbn. apply NoDup_cons. split; [|apply NoDup_singleton].
    intros K. apply list_elem_of_singleton in K. discriminate K.
  - intros obj _. reflexivity.
  - split; [exact H1|]. split; [exact H2|]. rewrite H5. cbn.
    rewrite decide_True by left. reflexivity.
Defined.

(** ** Running with and without progress reports *)

Lemma st_for_ext {S X} (xs : list X) (body1 body2 : X -> StateErr S unit) :
  (forall x s, body1 x s = body2 x s) ->
  forall s, st_for xs body1 s = st_for xs body2 s.
Proof.
  intros Hb. induction xs as [|x xs IH]; intros s; cbn [st_for]; [reflexivity|].
  rewrite !st_bind_eq, Hb. destruct (body2 x s) as [s1 [[]|e]]; [apply IH|reflexivity].
Qed.

Lemma run_loop_report_same (env : Backend) (ts : list Q) (rp : Q)
    (w : Network.World) :
  ts <> [] ->
  Qtrunc (inject_Z (Z.of_nat (length ts)) * rp) <> 0%Z ->
  Network.run_loop env ts true rp w = Network.run_loop env ts false rp w.
Proof.
  intros Hne Hgap. unfold Network.run_loop.
  rewrite !st_bind_eq. unfold st_get. cbn match.
  destruct ts as [|t0 ts']; [contradiction|].
  cbn [length]. replace (S (length ts') - 1)%nat with (length ts') by lia.
  cbn [seq st_for].
  rewrite !st_bind_eq. unfold st_lift at 1 3. cbn [Network.ts_at lookup list_lookup].
  cbn match. rewrite !st_bind_eq.
  destruct (Network.call_step _ t0 0 _ w) as [w1 [[]|e]]; [|reflexivity].
  apply st_for_ext. intros i s. rewrite !st_bind_eq.
  unfold st_lift. destruct (Network.ts_at (t0 :: ts') i) as [t|e]; [|reflexivity].
  rewrite st_bind_eq.
  destruct (Network.call_step _ t i _ s) as [s1 [[]|e]]; [|reflexivity].
  destruct (_ =? 0)%Z eqn:E; [|reflexivity].
  apply Z.eqb_eq in E. cbn [length] in Hgap. contradiction.
Qed.

(** X16: when the run has at least one step and
    [int(run_length * report_percent)] is not zero, a run with progress
    reports does exactly what the run without reports does: same outcome,
    same final network and objects, same calls of the step procedure. *)
Theorem run_report_same (env : Backend) (duration inputs : PyVal) (rp : Q)
    (w : Network.World) (start end_ : PyVal) (ts : list Q) :
  Network.parse_duration duration = Ok (start, end_) ->
  np_arange start end_ (get_dt env) = Ok ts ->
  ts <> [] ->
  Qtrunc (inject_Z (Z.of_nat (length ts)) * rp) <> 0%Z ->
  Network.run env duration inputs true rp w
  = Network.run env duration inputs false rp w.
Proof.
  intros Hd Hts Hne Hgap. unfold Network.run.
  rewrite !st_bind_eq. unfold st_lift at 1 3. rewrite Hd. cbn match.
  rewrite !st_bind_eq.
  destruct (Network.modify_net _ w) as [w1 [[]|e]]; [|reflexivity].
  rewrite !st_bind_eq. unfold st_lift at 1 2. cbn [fst snd]. rewrite Hts.
  cbn match. rewrite !st_bind_eq.
  destruct (Network.run_build env start end_ (length ts) inputs w1)
    as [w2 [[]|e]]; [|reflexivity].
  rewrite !st_bind_eq. rewrite (run_loop_report_same env ts rp w2 Hne Hgap).
  reflexivity.
Qed.

Lemma run_report_same_witness :
  Network.run ex_env (PInt 20) (PTuple []) true (1 # 10) (ex_world "once")
  = Network.run ex_env (PInt 20) (PTuple []) false (1 # 10) (ex_world "once").
Proof.
  apply (run_report_same ex_env (PInt 20) (PTuple []) (1 # 10) (ex_world "once")
           (PInt 0) (PInt 20)
           (map (fun i : nat => (0 + inject_Z (Z.of_nat i) * 1)%Q) (seq 0 20))).
  - reflexivity.
  - reflexivity.
  - discriminate.
  - vm_compute. discriminate.
Defined.

(** X17: the edge cases of a run with progress reports.  On an empty
    schedule the first step cannot be taken and the loop raises
    [IndexError] without any call of the step procedure.  On a schedule of
    at least two steps for which [int(run_length * report_percent)] is
    zero, with a step procedure that does not raise, the loop raises
    [ZeroDivisionError] after exactly two steps. *)
Theorem run_report_edge_cases (env : Backend) (ts : list Q) (rp : Q)
    (w : Network.World) (f : StepFunc) :
  Network.run_loop env [] true rp w
    = (w, Raise (IndexError "index is out of bounds for axis 0")) /\
  (Network._step_func (Network.net w) = Some f ->
   (forall t i dt h, (f t i dt h).2 = Ok tt) ->
   (2 <= length ts)%nat ->
   Qtrunc (inject_Z (Z.of_nat (length ts)) * rp) = 0%Z ->
   let r := Network.run_loop env ts true rp w in
   r.2 = Raise ZeroDivisionError /\
   Network.trace r.1 = Network.trace w ++ take 2 ts).
Proof.
  split; [reflexivity|].
  intros Hf Htotal Hlen Hgap.
  destruct ts as [|t0 [|t1 ts']]; cbn [length] in Hlen; try lia.
  set (dt1 := Network.dt env (Network.net w)).
  set (h1 := (f t0 0%nat dt1 (Network.heap w)).1).
  set (h2 := (f t1 1%nat dt1 h1).1).
  assert (Hr : Network.run_loop env (t0 :: t1 :: ts') true rp w
            = (Network.mkWorld (Network.net w) h2
                 ((Network.trace w ++ [t0]) ++ [t1]) (Network.builds w),
               Raise ZeroDivisionError)).
  { unfold Network.run_loop. rewrite st_bind_eq. unfold st_get. cbn match.
    rewrite Hf, Hgap. fold dt1.
    rewrite st_bind_eq. unfold st_lift at 1.
    cbn [Network.ts_at lookup list_lookup]. cbn match.
    rewrite st_bind_eq. unfold Network.call_step at 1.
    pose proof (Htotal t0 0%nat dt1 (Network.heap w)) as H0.
    rewrite H0. fold h1.
    cbn [length]. replace (S (S (length ts')) - 1)%nat with (S (length ts')) by lia.
    cbn [seq st_for]. rewrite st_bind_eq. rewrite st_bind_eq.
    unfold st_lift at 1. cbn [Network.ts_at lookup list_lookup]. cbn match.
    rewrite st_bind_eq. unfold Network.call_step at 1. cbn [Network.heap Network.net
      Network.trace Network.builds].
    pose proof (Htotal t1 1%nat dt1 h1) as H1.
    rewrite H1. fold h2. reflexivity. }
  cbn zeta. rewrite Hr. cbn [fst snd Network.trace].
  split; [reflexivity|]. rewrite <- app_assoc. reflexivity.
Qed.

Lemma run_report_edge_cases_witness :
  let w := Network.mkWorld (Network.set_step_func (Some ex_step) (ex_net "once"))
             ex_heap [] 0 in
  let r := Network.run_loop ex_env [0; 1; 2; 3; 4]%Q true (1 # 10) w in
  r.2 = Raise ZeroDivisionError /\ Network.trace r.1 = [0; 1]%Q.
Proof.
  intros w.
  destruct (run_report_edge_cases ex_env [0; 1; 2; 3; 4]%Q (1 # 10) w ex_step)
    as [_ H].
  apply H.
  - reflexivity.
  - intros t i dt h. reflexivity.
  - cbn. lia.
  - reflexivity.
Defined.

(** ** What a run leaves in the network *)

(** X18: a run that completes outside the reuse path (the mode is not
    [repeat], or no step procedure is stored yet) has called [build] exactly
    once, on the number of timestamps of the run and the given inputs, in
    the network that already carries the new start and end times; it leaves
    the network with those times, the step procedure that this call of
    build returned and the duration [end - start]; nothing else of the
    network is changed. *)
Theorem run_builds_unless_reusing (env : Backend) (w w' : Network.World)
    (duration inputs : PyVal) (report : bool) (rp : Q) (start end_ : PyVal) :
  Network.mode (Network.net w) <> "repeat" \/
    Network._step_func (Network.net w) = None ->
  Network.parse_duration duration = Ok (start, end_) ->
  Network.run env duration inputs report rp w = (w', Ok tt) ->
  exists ts wb f,
    np_arange start end_ (get_dt env) = Ok ts /\
    Network.build env (length ts) inputs
      (Network.mkWorld (Network.set_times start end_ (Network.net w))
         (Network.heap w) (Network.trace w) (S (Network.builds w)))
    = (wb, Ok f) /\
    Network.net w'
    = Network.set_t_duration (Network.py_sub end_ start)
        (Network.set_step_func (Some f)
           (Network.set_times start end_ (Network.net w))) /\
    Network.builds w' = S (Network.builds w).
Proof.
  intros Hfirst Hparse Hrun. unfold Network.run in Hrun.
  apply st_bind_ok in Hrun as (times & w0 & Hp & Hrun).
  unfold st_lift in Hp. rewrite Hparse in Hp. injection Hp as <- <-.
  apply st_bind_ok in Hrun as ([] & w1 & Hset & Hrun).
  unfold Network.modify_net, st_modify in Hset. injection Hset as <-.
  cbn [fst snd] in Hrun. set (w1 := Network.mkWorld _ _ _ _) in Hrun.
  apply st_bind_ok in Hrun as (ts & w1' & Hts & Hrun).
  unfold st_lift in Hts. injection Hts as <- Hts.
  apply st_bind_ok in Hrun as ([] & w2 & Hbuild & Hrun).
  unfold Network.run_build in Hbuild.
  apply st_bind_ok in Hbuild as (w1a & w1b & Hget & Hbuild).
  injection Hget as <- <-.
  assert (Hcond : negb (bool_decide (Network.mode (Network.net w1) = "repeat"))
                  || bool_decide (Network._step_func (Network.net w1) = None) = true).
  { cbn [Network.net w1 Network.set_times Network.mode Network._step_func].
    destruct Hfirst as [Hm|Hn].
    - rewrite bool_decide_false by exact Hm. reflexivity.
    - rewrite (bool_decide_true _ Hn). apply orb_true_r. }
  rewrite Hcond in Hbuild.
  apply st_bind_ok in Hbuild as (f & wb & Hb1 & Hbuild).
  unfold Network.build_counted in Hb1.
  apply st_bind_ok in Hb1 as ([] & wc & Hcount & Hb1).
  unfold Network.count_build, st_modify in Hcount. injection Hcount as <-.
  set (wc := Network.mkWorld _ _ _ _) in Hb1.
  destruct (build_net_is env (Network.net w1) (S (Network.builds w1))
              (length ts) inputs wc) as [[Hnb Hbb] _]; [split; reflexivity|].
  rewrite Hb1 in Hnb, Hbb. cbn [fst] in Hnb, Hbb.
  apply st_bind_ok in Hbuild as ([] & wd & Hm1 & Hm2).
  unfold Network.modify_net, st_modify in Hm1, Hm2.
  injection Hm1 as <-. injection Hm2 as <-.
  set (w2 := Network.mkWorld _ _ _ _) in Hrun.
  assert (Hrest : st_safe (net_is (Network.net w2) (Network.builds w2)) any_exn
                    (Network.run_loop env ts report rp ≫= fun _ =>
                     Network.run_monitor env)).
  { apply st_safe_bind; [apply run_loop_net_is|intros _; apply run_monitor_net_is]. }
  destruct (Hrest w2) as [[Hn Hbd] _]; [split; reflexivity|].
  rewrite Hrun in Hn, Hbd. cbn [fst] in Hn, Hbd.
  exists ts, wb, f. split; [exact Hts|]. split; [exact Hb1|].
  rewrite Hn, Hbd. cbn [Network.net w2 Network.builds].
  rewrite Hnb, Hbb. split; reflexivity.
Qed.

Lemma run_builds_unless_reusing_witness :
  exists w' f,
    Network.run ex_env (PInt 5) (PTuple []) false (1 # 10) (ex_world "once")
      = (w', Ok tt) /\
    Network._step_func (Network.net w') = Some f /\
    Network.t_duration (Network.net w') = (5 - 0)%Q /\
    Network.t_end (Network.net w') = PInt 5 /\
    Network.builds w' = 1%nat.
Proof.
  destruct (Network.run ex_env (PInt 5) (PTuple []) false (1 # 10) (ex_world "once"))
    as [w' r] eqn:E.
  assert (Hr : r = Ok tt)
    by (pose proof (f_equal snd E) as K; vm_compute in K; congruence).
  subst r.
  destruct (run_builds_unless_reusing ex_env (ex_world "once") w' (PInt 5)
              (PTuple []) false (1 # 10) (PInt 0) (PInt 5))
    as (ts & wb & f & _ & _ & Hnet & Hb).
  - left. discriminate.
  - reflexivity.
  - exact E.
  - exists w', f. rewrite Hnet, Hb. split_and!; reflexivity.
Defined.

(** ** Reusing the step procedure in repeat mode *)

Lemma zero_mon_idem (o : Obj) : zero_mon (zero_mon o) = zero_mon o.
Proof.
  unfold zero_mon, Network.set_mon. cbn [mon is_NeuGroup is_SynConn
    is_BrainEnsemble name runner_inputs runner_attrs].
  f_equal. rewrite <- map_fmap_compose. apply map_fmap_ext.
  intros k v _. reflexivity.
Qed.

Lemma reset_monitors_loop (objs : list ref) :
  forall w : Network.World,
    exists w',
      st_for objs (fun obj =>
        Network.modify_obj obj
          (fun o => Network.set_mon ((fun v => jnp.zeros (tshape v)) <$> mon o) o))
        w = (w', Ok tt) /\
      Network.net w' = Network.net w /\
      Network.trace w' = Network.trace w /\
      Network.builds w' = Network.builds w /\
      forall o, Network.heap w' o
                = if decide (o ∈ objs) then zero_mon (Network.heap w o)
                  else Network.heap w o.
Proof.
  induction objs as [|obj objs IH]; intros w; cbn [st_for].
  - exists w. split_and!; reflexivity.
  - rewrite st_bind_eq. unfold Network.modify_obj at 1, st_modify at 1.
    set (w1 := Network.mkWorld _ _ _ _).
    destruct (IH w1) as (w' & Hrun & Hnet & Htr & Hb & Hheap).
    exists w'. split_and!; try assumption.
    intros o. rewrite Hheap. unfold w1, heap_set. cbn [Network.heap].
    fold (zero_mon (Network.heap w obj)).
    destruct (decide (o = obj)) as [->|Hne].
    + rewrite (decide_True (P := obj ∈ obj :: objs)) by left.
      destruct (decide (obj ∈ objs)); [apply zero_mon_idem|reflexivity].
    + destruct (decide (o ∈ objs)) as [Ho|Ho].
      * rewrite decide_True by (right; exact Ho). reflexivity.
      * rewrite decide_False; [reflexivity|].
        intros K. apply elem_of_cons in K as [K|K]; contradiction.
Qed.

(** X19: in repeat mode with a stored step procedure, a run of the stored
    duration without inputs does not build: before stepping it zeroes every
    monitor entry of every participant in place, keeping the keys and the
    shapes, and changes nothing else, whatever inputs the participants were
    built with. *)
Theorem run_reuse_zeroes_monitors (env : Backend) (w : Network.World)
    (start end_ : PyVal) (rl : nat) (f : StepFunc) :
  Network.mode (Network.net w) = "repeat" ->
  Network._step_func (Network.net w) = Some f ->
  (Network.t_duration (Network.net w) == Network.py_sub end_ start)%Q ->
  let r := Network.run_build env start end_ rl (PTuple []) w in
  r.2 = Ok tt /\
  Network.net r.1 = Network.net w /\
  Network.trace r.1 = Network.trace w /\
  Network.builds r.1 = Network.builds w /\
  (forall o, Network.heap r.1 o
             = if decide (o ∈ Network._all_objects (Network.net w))
               then zero_mon (Network.heap w o) else Network.heap w o) /\
  (forall o k, o ∈ Network._all_objects (Network.net w) ->
     mon (Network.heap r.1 o) !! k
     = (fun v => jnp.zeros (tshape v)) <$> mon (Network.heap w o) !! k).
Proof.
  intros Hmode Hf Hdur.
  destruct (reset_monitors_loop (Network._all_objects (Network.net w)) w)
    as (w' & Hrun & Hnet & Htr & Hb & Hheap).
  assert (Hr : Network.run_build env start end_ rl (PTuple []) w = (w', Ok tt)).
  { unfold Network.run_build. rewrite st_bind_eq. unfold st_get at 1. cbn match.
    rewrite Hmode, Hf. rewrite bool_decide_true by reflexivity.
    rewrite bool_decide_false by discriminate. cbn [negb orb].
    unfold Network.run_reuse. rewrite st_bind_eq. unfold st_get at 1. cbn match.
    apply Qeq_bool_iff in Hdur. rewrite Hdur. cbn [negb].
    rewrite st_bind_eq. unfold mret at 1, StateErr_ret at 1. cbn match.
    unfold Network.run_reset. rewrite st_bind_eq. unfold st_lift at 1.
    cbn [Network._format_inputs py_is_seq py_len length mbind result_bind
         for_each]. rewrite decide_False by lia. cbn [mbind result_bind for_each].
    cbn match. rewrite st_bind_eq. cbn [st_for].
    unfold mret at 1, StateErr_ret at 1. cbn match. exact Hrun. }
  cbn zeta. rewrite Hr. cbn [fst snd]. split_and!; try assumption; try reflexivity.
  intros o k Ho. rewrite Hheap, decide_True by exact Ho.
  unfold zero_mon, Network.set_mon. cbn [mon]. apply lookup_fmap.
Qed.

Lemma run_reuse_zeroes_monitors_witness :
  let r := Network.run_build ex_env (PInt 0) (PInt 5) 5 (PTuple []) ex_world_built in
  mon (Network.heap ex_world_built 0%nat) !! "v" = Some (mkTensor [] [4%Q]) /\
  r.2 = Ok tt /\
  Network.builds r.1 = 1%nat /\
  mon (Network.heap r.1 0%nat) !! "v" = Some (jnp.zeros []).
Proof.
  cbn zeta.
  destruct (run_reuse_zeroes_monitors ex_env ex_world_built (PInt 0) (PInt 5) 5 ex_step)
    as (H1 & _ & _ & H4 & _ & H6).
  - vm_compute. reflexivity.
  - vm_compute. reflexivity.
  - vm_compute. reflexivity.
  - split; [vm_compute; reflexivity|]. split; [exact H1|].
    split; [rewrite H4; vm_compute; reflexivity|].
    rewrite H6.
    + assert (K : mon (Network.heap ex_world_built 0%nat) !! "v"
                  = Some (mkTensor [] [4%Q])) by (vm_compute; reflexivity).
      rewrite K. reflexivity.
    + vm_compute. left.
Defined.

Lemma list_remove_perm (x : string) (l l' : list string) :
  list_remove x l = Ok l' -> l ≡ₚ x :: l'.
Proof.
  revert l'. induction l as [|y l IH]; intros l'; cbn [list_remove]; [discriminate|].
  destruct (decide (x = y)) as [->|Hne].
  - intros K. injection K as <-. reflexivity.
  - intros K. apply result_bind_ok in K as (l2 & Hl2 & K). injection K as <-.
    rewrite (IH l2 Hl2). apply Permutation_swap.
Qed.

Lemma reset_input_keys (obj : ref) (keys keys' : list string) (inp : FormatInp)
    (w w' : Network.World) :
  Network.reset_input obj keys inp w = (w', Ok keys') ->
  keys ≡ₚ inp_key inp :: keys' /\
  Network.net w' = Network.net w /\
  (forall o, runner_inputs (Network.heap w' o) = runner_inputs (Network.heap w o)).
Proof.
  destruct inp as [[[key val] ops] data_type]. unfold Network.reset_input, inp_key.
  cbn [fst]. intros H.
  apply st_bind_ok in H as (w0 & w1 & H0 & H). injection H0 as <- <-.
  apply st_bind_ok in H as (last & w1 & H1 & H).
  unfold st_lift in H1. injection H1 as <- H1.
  apply st_bind_ok in H as ([] & w1 & H2 & H).
  assert (E2 : w1 = w).
  { destruct (decide _); [discriminate H2|]. injection H2 as <-. reflexivity. }
  subst w1. clear H2.
  apply st_bind_ok in H as ([] & w1 & H3 & H).
  assert (E3 : w1 = w).
  { destruct (decide _); [discriminate H3|]. injection H3 as <-. reflexivity. }
  subst w1. clear H3.
  apply st_bind_ok in H as ([] & w2 & H4 & H).
  unfold st_lift in H. injection H as <- H. apply list_remove_perm in H.
  split; [exact H|].
  assert (Hmod : forall v, Network.modify_obj obj
                             (Network.set_runner_attr (inp_attr key) v) w
                           = (w2, Ok tt) ->
            Network.net w2 = Network.net w /\
            forall o, runner_inputs (Network.heap w2 o)
                      = runner_inputs (Network.heap w o)).
  { intros v K. unfold Network.modify_obj, st_modify in K. injection K as <-.
    cbn [Network.net Network.heap]. split; [reflexivity|].
    intros o. unfold heap_set. destruct (decide (o = obj)) as [->|]; reflexivity. }
  destruct (np_isscalar val); [eapply Hmod; exact H4|].
  destruct (runner_attrs (Network.heap w obj) !! inp_attr key) as [[]|];
    try discriminate H4; destruct val; try discriminate H4.
  apply st_bind_ok in H4 as (v & w3 & H5 & H4).
  unfold st_lift in H5. injection H5 as <- H5.
  eapply Hmod. exact H4.
Qed.

Lemma reset_inputs_keys (obj : ref) (inps : list FormatInp) :
  forall (keys keys' : list string) (w w' : Network.World),
    st_fold (Network.reset_input obj) inps keys w = (w', Ok keys') ->
    keys ≡ₚ map inp_key inps ++ keys' /\
    Network.net w' = Network.net w /\
    (forall o, runner_inputs (Network.heap w' o) = runner_inputs (Network.heap w o)).
Proof.
  induction inps as [|inp inps IH]; intros keys keys' w w' H; cbn [st_fold] in H.
  - injection H as <- <-. split_and!; reflexivity.
  - apply st_bind_ok in H as (keys1 & w1 & H1 & H).
    apply reset_input_keys in H1 as (Hp1 & Hn1 & Hr1).
    apply IH in H as (Hp & Hn & Hr).
    split_and!.
    + rewrite Hp1, Hp. cbn [map app]. reflexivity.
    + congruence.
    + intros o. rewrite Hr, Hr1. reflexivity.
Qed.

Lemma reset_targets_keys (n0 : Network.Network) (fi : FormattedInputs) :
  forall w w' : Network.World,
    st_for fi (fun target =>
         obj ← st_lift (Network.getattr n0 target.1);
         w' ← st_get;
         let all_keys := map fst (runner_inputs (Network.heap w' obj)) in
         all_keys ← st_fold (Network.reset_input obj) target.2 all_keys;
         if decide (0 < length all_keys)%nat then
           st_raise (ModelUseError "The inputs are not provided.")
         else mret tt) w = (w', Ok tt) ->
    (forall o, runner_inputs (Network.heap w' o) = runner_inputs (Network.heap w o)) /\
    Forall (fun target =>
              exists obj, Network.getattr n0 target.1 = Ok obj /\
                map inp_key target.2 ≡ₚ map fst (runner_inputs (Network.heap w obj)))
           fi.
Proof.
  induction fi as [|target fi IH]; intros w w' H; cbn [st_for] in H.
  - injection H as <-. split; [reflexivity|constructor].
  - apply st_bind_ok in H as ([] & w1 & H1 & H).
    apply st_bind_ok in H1 as (obj & w0 & Hobj & H1).
    unfold st_lift in Hobj. injection Hobj as <- Hobj.
    apply st_bind_ok in H1 as (w0 & w0' & Hget & H1). injection Hget as <- <-.
    cbn zeta in H1.
    apply st_bind_ok in H1 as (keys' & w2 & Hfold & H1).
    apply reset_inputs_keys in Hfold as (Hp & Hn & Hr).
    destruct (decide (0 < length keys')%nat) as [Hpos|Hzero]; [discriminate H1|].
    injection H1 as <-.
    assert (keys' = []) by (destruct keys'; [reflexivity|cbn in Hzero; lia]).
    subst keys'. rewrite app_nil_r in Hp.
    apply IH in H as (Hr' & Hall). split.
    + intros o. rewrite Hr', Hr. reflexivity.
    + constructor.
      * exists obj. split; [exact Hobj|]. symmetry. exact Hp.
      * eapply Forall_impl; [exact Hall|].
        intros t (o & Ho & Hperm). exists o. split; [exact Ho|].
        rewrite Hperm, Hr. reflexivity.
Qed.

(** X20: in repeat mode, a reset of the inputs that goes through has been
    given, for every target it mentions, each input key the target was
    built with exactly once and no other key: the keys given for a target
    are a permutation of the keys of its stored inputs.  (Targets that are
    not mentioned are not looked at.) *)
Theorem run_reset_inputs_cover (env : Backend) (w w' : Network.World)
    (rl : nat) (inputs : PyVal) :
  Network.run_reset env w rl inputs w = (w', Ok tt) ->
  exists fi,
    Network._format_inputs env (Network.net w) (Network.heap w) inputs rl = Ok fi /\
    Forall (fun target =>
              exists obj, Network.getattr (Network.net w) target.1 = Ok obj /\
                map inp_key target.2
                ≡ₚ map fst (runner_inputs (Network.heap w obj)))
           fi.
Proof.
  unfold Network.run_reset. intros H.
  apply st_bind_ok in H as (fi & w0 & Hfi & H).
  unfold st_lift in Hfi. injection Hfi as <- Hfi.
  apply st_bind_ok in H as ([] & w1 & H & _).
  apply reset_targets_keys in H as [_ Hall].
  exists fi. split; [exact Hfi|exact Hall].
Qed.

Lemma run_reset_inputs_cover_witness :
  let inputs := PList [PTuple [PStr "neu"; PStr "inp"; PFloat 2]] in
  exists w' fi,
    Network.run_reset ex_env ex_world_inputs 5 inputs ex_world_inputs = (w', Ok tt) /\
    Network._format_inputs ex_env (Network.net ex_world_inputs)
      (Network.heap ex_world_inputs) inputs 5 = Ok fi /\
    Forall (fun target =>
              exists obj,
                Network.getattr (Network.net ex_world_inputs) target.1 = Ok obj /\
                map inp_key target.2
                ≡ₚ map fst (runner_inputs (Network.heap ex_world_inputs obj)))
           fi.
Proof.
  intros inputs.
  destruct (Network.run_reset ex_env ex_world_inputs 5 inputs ex_world_inputs)
    as [w' r] eqn:E.
  assert (Hr : r = Ok tt)
    by (pose proof (f_equal snd E) as K; vm_compute in K; congruence).
  subst r.
  destruct (run_reset_inputs_cover ex_env ex_world_inputs w' 5 inputs E)
    as (fi & Hfi & Hall).
  exists w', fi. split; [reflexivity|]. split; assumption.
Defined.

(** ** Constructing a network *)

Lemma registry_closed_empty (mode : string) : registry_closed (empty_network mode).
Proof.
  split; cbn.
  - intros r K. inversion K.
  - intros r K. inversion K.
  - intros k r K. rewrite lookup_empty in K. discriminate K.
  - intros k r K. rewrite lookup_empty in K. discriminate K.
Qed.

Lemma add_list_errors (h : Heap) (items : list (ref * option string)) :
  forall (s s' : Network.Network) (e : exn),
    st_for items (fun it => Network._add_obj h it.1 it.2) s = (s', Raise e) ->
    e = ValueError "Unknown object type" \/
    e = KeyError "Name has been used in the network, please change another name." \/
    e = AttributeError "can't set attribute".
Proof.
  induction items as [|it items IH]; intros s s' e E;
    cbn [st_for] in E; [discriminate E|].
  rewrite st_bind_eq in E.
  pose proof (add_obj_cases h it.1 it.2 s) as Hc. cbn zeta in Hc.
  destruct (Network._add_obj h it.1 it.2 s) as [s1 [[]|e1]]; cbn [fst snd] in *.
  - exact (IH s1 s' e E).
  - injection E as _ <-.
    destruct Hc as (_ & _ & _ & _ & _ & _ &
      [(_ & K & _)|(_ & _ & _ &
         [(_ & K & _)|(_ & _ & [(_ & K & _)|[(_ & _ & K & _)|(_ & _ & K & _)]])])]).
    + injection K as ->. left. reflexivity.
    + injection K as ->. right. left. reflexivity.
    + injection K as ->. right. right. reflexivity.
    + injection K as ->. right. right. reflexivity.
    + discriminate K.
Qed.

(** X21: when no name involved is one the network uses itself, the
    constructor succeeds exactly when all objects are neuron groups or
    synapse connections, their registry keys are pairwise distinct, neither
    a key nor an object's own name is one of the read-only properties [ts]
    and [dt], and the mode is [once] or [repeat]; the objects are checked
    before the mode, so a failure with a bad mode and bad objects is the
    objects' error; and the new network lists the objects in call order,
    has the given mode, no step procedure, zero times, and a closed
    registry. *)
Theorem network_init (h : Heap) (args : list ref) (mode : string)
    (kwargs : list (string * ref)) :
  let items := add_items args kwargs in
  let objects_ok := Forall (fun it => registrable h it.1 = true) items /\
                    NoDup (map (item_key h) items) /\
                    Forall (settable_item h) items in
  Forall (free_item h) items ->
  (succeeds (Network.__init__ h args mode kwargs) <->
   objects_ok /\ (mode = "once" \/ mode = "repeat")) /\
  (~ objects_ok ->
   Network.__init__ h args mode kwargs
     = Raise (ValueError "Unknown object type") \/
   Network.__init__ h args mode kwargs
     = Raise (KeyError "Name has been used in the network, please change another name.") \/
   exists msg, Network.__init__ h args mode kwargs = Raise (AttributeError msg)) /\
  (forall n, Network.__init__ h args mode kwargs = Ok n ->
     Network._all_objects n = args ++ map snd kwargs /\
     Network.mode n = mode /\
     Network._step_func n = None /\
     Network.t_start n = PFloat 0 /\
     Network.t_end n = PFloat 0 /\
     Network.t_duration n = 0%Q /\
     registry_closed n).
Proof.
  cbn zeta. intros _. unfold Network.__init__. fold (empty_network mode).
  pose proof (add_list_success_iff h (add_items args kwargs) (empty_network mode))
    as Hiff.
  pose proof (add_list_success_state h (add_items args kwargs) (empty_network mode))
    as Hstate.
  pose proof (add_list_any h (add_items args kwargs) (empty_network mode)) as Hany.
  pose proof (add_list_errors h (add_items args kwargs) (empty_network mode)) as Herr.
  cbn zeta in Hany. rewrite <- add_as_items in Hiff, Hstate, Hany, Herr.
  assert (Hfresh : Forall (fun k => Network._objsets (empty_network mode) !! k = None)
                          (map (item_key h) (add_items args kwargs))).
  { apply Forall_forall. intros k _. apply lookup_empty. }
  assert (Hmode : bool_decide (mode = "once") || bool_decide (mode = "repeat") = true
                  <-> mode = "once" \/ mode = "repeat").
  { rewrite orb_true_iff, !bool_decide_eq_true. reflexivity. }
  destruct (Network.add h args kwargs (empty_network mode)) as [self r] eqn:E.
  cbn [fst snd] in *.
  destruct r as [[]|e].
  - assert (Hok : Forall (fun it => registrable h it.1 = true) (add_items args kwargs)
                  /\ NoDup (map (item_key h) (add_items args kwargs))
                  /\ Forall (settable_item h) (add_items args kwargs)).
    { destruct (proj1 Hiff eq_refl) as (H1 & H2 & _ & H4). split_and!; assumption. }
    split_and!.
    + split.
      * intros [n Hn]. split; [exact Hok|]. apply Hmode.
        destruct (_ || _); [reflexivity|discriminate Hn].
      * intros [_ Hm]. apply Hmode in Hm. rewrite Hm. eexists. reflexivity.
    + intros Hbad. contradiction.
    + intros n Hn. destruct (_ || _); [|discriminate Hn]. injection Hn as <-.
      destruct (Hstate self eq_refl) as (H1 & _).
      destruct Hany as (_ & _ & E1 & E2 & E3 & _ & _ & Hclosed).
      cbn [Network._all_objects Network.mode Network._step_func Network.t_duration
           Network.t_start Network.t_end
           Network.set_step_func Network.set_mode].
      split_and!; try reflexivity.
      * rewrite H1. cbn [empty_network Network._all_objects app].
        unfold add_items. rewrite map_app, !map_map. cbn [fst].
        rewrite map_id. reflexivity.
      * exact E1.
      * exact E2.
      * exact E3.
      * specialize (Hclosed (registry_closed_empty mode)).
        destruct Hclosed as [C1 C2 C3 C4]. split; assumption.
  - split_and!.
    + split.
      * intros [n Hn]. discriminate Hn.
      * intros [(H1 & H2 & H3) _].
        assert (K : Raise e = Ok tt) by (apply Hiff; split_and!; assumption).
        discriminate K.
    + intros _.
      destruct (Herr self e eq_refl) as [->|[->| ->]];
        [left|right; left|right; right; eexists]; reflexivity.
    + intros n Hn. discriminate Hn.
Qed.

Lemma network_init_witness :
  exists n,
    Network.__init__ ex_heap [0%nat] "repeat" [("s", 1%nat)] = Ok n /\
    Network._all_objects n = [0%nat; 1%nat] /\
    Network.mode n = "repeat" /\
    registry_closed n.
Proof.
  destruct (network_init ex_heap [0%nat] "repeat" [("s", 1%nat)])
    as (Hiff & _ & Hstate).
  { repeat constructor. }
  destruct (proj2 Hiff) as [n Hn].
  - split; [split_and!|right; reflexivity].
    + repeat constructor.
    + cbn. apply NoDup_cons. split; [|apply NoDup_singleton].
      intros K. apply list_elem_of_singleton in K. discriminate K.
    + repeat constructor; cbn; intros K;
        repeat (apply elem_of_cons in K as [K|K]; [discriminate K|]);
        inversion K.
  - exists n. destruct (Hstate n Hn) as (H1 & H2 & _ & _ & _ & _ & H5).
    split; [exact Hn|]. split; [exact H1|]. split; [exact H2|exact H5].
Defined.

(** ** What a rejected run leaves behind *)

(** X28: a run that repeat mode rejects for its duration has already stored
    the new start and end times: the network keeps its step procedure and
    its duration, no object is touched and no step is taken, but
    [t_start] and [t_end], and with them the property [ts], are those of
    the rejected run. *)
Theorem run_rejected_keeps_new_times (env : Backend) (w : Network.World)
    (duration inputs : PyVal) (report : bool) (rp : Q)
    (f : StepFunc) (start end_ : PyVal) (ts : list Q) :
  Network.mode (Network.net w) = "repeat" ->
  Network._step_func (Network.net w) = Some f ->
  Network.parse_duration duration = Ok (start, end_) ->
  np_arange start end_ (get_dt env) = Ok ts ->
  ~ (Network.t_duration (Network.net w) == Network.py_sub end_ start)%Q ->
  Network.run env duration inputs report rp w
  = (Network.mkWorld (Network.set_times start end_ (Network.net w))
       (Network.heap w) (Network.trace w) (Network.builds w),
     Raise Network.duration_mismatch) /\
  Network.ts env (Network.set_times start end_ (Network.net w))
  = Ok (np_array1 ts).
Proof.
  intros Hmode Hf Hd Hts Hdur. split.
  - unfold Network.run. rewrite st_bind_eq. unfold st_lift at 1. rewrite Hd.
    cbn match. rewrite st_bind_eq.
    unfold Network.modify_net at 1, st_modify at 1. cbn match. cbn [fst snd].
    rewrite st_bind_eq. unfold st_lift at 1. rewrite Hts. cbn match.
    rewrite st_bind_eq.
    set (w1 := Network.mkWorld _ _ _ _).
    assert (Hb : Network.run_build env start end_ (length ts) inputs w1
                 = (w1, Raise Network.duration_mismatch)).
    { unfold Network.run_build. rewrite st_bind_eq. unfold st_get at 1. cbn match.
      cbn [Network.net w1 Network.set_times Network.mode Network._step_func].
      rewrite Hmode, Hf. rewrite bool_decide_true by reflexivity.
      rewrite bool_decide_false by discriminate. cbn [negb orb].
      unfold Network.run_reuse. rewrite st_bind_eq. unfold st_get at 1. cbn match.
      cbn [Network.net w1 Network.set_times Network.t_duration].
      destruct (Qeq_bool _ _) eqn:E; [apply Qeq_bool_iff in E; contradiction|].
      cbn [negb]. rewrite st_bind_eq. reflexivity. }
    rewrite Hb. reflexivity.
  - unfold Network.ts, Network.dt. cbn [Network.set_times Network.t_start
      Network.t_end]. rewrite Hts. reflexivity.
Qed.

Lemma run_rejected_keeps_new_times_witness :
  let r := Network.run ex_env (PInt 6) (PTuple []) false (1 # 10) ex_world_built in
  r.2 = Raise Network.duration_mismatch /\
  Network.t_end (Network.net ex_world_built) = PInt 5 /\
  Network.t_end (Network.net r.1) = PInt 6 /\
  Network.t_duration (Network.net r.1) = 5%Q.
Proof.
  cbn zeta.
  destruct (run_rejected_keeps_new_times ex_env ex_world_built (PInt 6) (PTuple [])
              false (1 # 10) ex_step (PInt 0) (PInt 6)
              (map (fun i : nat => (0 + inject_Z (Z.of_nat i) * 1)%Q) (seq 0 6)))
    as [Hrun _].
  - vm_compute. reflexivity.
  - vm_compute. reflexivity.
  - reflexivity.
  - reflexivity.
  - intros K. vm_compute in K. discriminate K.
  - rewrite Hrun. cbn [fst snd Network.net Network.set_times Network.t_end
      Network.t_duration]. split_and!; try reflexivity; vm_compute; reflexivity.
Defined.

(** * Further properties of the integrator runner *)

Lemma monitor_append (vars : list (string * Tensor)) (ms : list string) :
  forall acc out : list (string * list Tensor),
    for_each (fun acc k =>
                match assoc_get k vars with
                | Some v => Ok (assoc_append k v acc)
                | None => Raise (KeyError "self.variables[k]")
                end) ms acc = Ok out ->
    NoDup ms ->
    (forall k, k ∈ ms ->
       exists v, assoc_get k vars = Some v /\
                 assoc_get k out = Some (default [] (assoc_get k acc) ++ [v])) /\
    (forall k, k ∉ ms -> assoc_get k out = assoc_get k acc).
Proof.
  induction ms as [|m ms IH]; intros acc out Hrun Hnd; cbn [for_each] in Hrun.
  - injection Hrun as <-. split; [intros k K; inversion K|reflexivity].
  - apply NoDup_cons in Hnd as [Hnotin Hnd].
    apply result_bind_ok in Hrun as (acc1 & H1 & Hrun).
    destruct (assoc_get m vars) as [v|] eqn:Ev; [|discriminate H1].
    injection H1 as <-.
    destruct (IH _ _ Hrun Hnd) as [Hin Hout]. split.
    + intros k Hk. apply elem_of_cons in Hk as [->|Hk].
      * exists v. split; [exact Ev|]. rewrite (Hout m Hnotin), assoc_get_append.
        rewrite decide_True by reflexivity. reflexivity.
      * destruct (Hin k Hk) as (v' & Hv' & Hk'). exists v'. split; [exact Hv'|].
        rewrite Hk', assoc_get_append.
        rewrite decide_False; [reflexivity|]. intros ->. contradiction.
    + intros k Hk. apply not_elem_of_cons in Hk as [Hne Hk].
      rewrite (Hout k Hk), assoc_get_append.
      rewrite decide_False by exact Hne. reflexivity.
Qed.

Lemma runner_step_ok (t : Q) (r r' : IntegratorRunner.IntegratorRunner) :
  IntegratorRunner._step t r = (r', Ok tt) ->
  exists vars', IntegratorRunner.target r (IntegratorRunner.variables r) t
                  (IntegratorRunner.dt r) = Ok vars' /\
    IntegratorRunner.variables r' = vars' /\
    runner_static r r' /\
    IntegratorRunner._start_t r' = IntegratorRunner._start_t r /\
    IntegratorRunner.mon_ts r' = IntegratorRunner.mon_ts r /\
    IntegratorRunner.mon_item_contents r' = IntegratorRunner.mon_item_contents r /\
    IntegratorRunner.trace r' = IntegratorRunner.trace r ++ [t].
Proof.
  unfold IntegratorRunner._step.
  destruct (IntegratorRunner.target r _ t _) as [vars'|e]; [|discriminate].
  intros K. injection K as <-. exists vars'. cbn.
  unfold runner_static. cbn. split_and!; reflexivity.
Qed.

Lemma runner_fold_states (times : list Q) :
  forall (acc out : list (string * list Tensor))
         (r r' : IntegratorRunner.IntegratorRunner),
    st_fold (fun out_vars _t =>
               _ ← IntegratorRunner._step _t;
               self ← st_get;
               st_lift (for_each (fun acc k =>
                                    match assoc_get k (IntegratorRunner.variables self) with
                                    | Some v => Ok (assoc_append k v acc)
                                    | None => Raise (KeyError "self.variables[k]")
                                    end)
                                 (IntegratorRunner.monitors self) out_vars))
            times acc r = (r', Ok out) ->
    NoDup (IntegratorRunner.monitors r) ->
    exists states,
      target_states (IntegratorRunner.target r) (IntegratorRunner.dt r)
        (IntegratorRunner.variables r) times = Ok states /\
      IntegratorRunner.variables r'
        = default (IntegratorRunner.variables r) (last states) /\
      runner_static r r' /\
      IntegratorRunner._start_t r' = IntegratorRunner._start_t r /\
      IntegratorRunner.mon_ts r' = IntegratorRunner.mon_ts r /\
      IntegratorRunner.mon_item_contents r' = IntegratorRunner.mon_item_contents r /\
      IntegratorRunner.trace r' = IntegratorRunner.trace r ++ times /\
      (forall k h0, k ∈ IntegratorRunner.monitors r ->
         assoc_get k acc = Some h0 ->
         exists hist,
           assoc_get k out = Some (h0 ++ hist) /\
           Forall2 (fun vars v => assoc_get k vars = Some v) states hist) /\
      (forall k, k ∉ IntegratorRunner.monitors r ->
         assoc_get k out = assoc_get k acc).
Proof.
  induction times as [|t times IH]; intros acc out r r' Hrun Hnd;
    cbn [st_fold] in Hrun.
  - injection Hrun as <- <-. exists []. cbn [target_states last].
    unfold runner_static. split_and!; try reflexivity.
    + rewrite app_nil_r. reflexivity.
    + intros k h0 _ Hk. exists []. rewrite app_nil_r. split; [exact Hk|constructor].
  - apply st_bind_ok in Hrun as (acc1 & r1 & Hbody & Hrun).
    apply st_bind_ok in Hbody as ([] & r0 & Hstep & Hbody).
    apply st_bind_ok in Hbody as (self & r0' & Hget & Hbody).
    injection Hget as <- <-. unfold st_lift in Hbody. injection Hbody as <- Hmon.
    apply runner_step_ok in Hstep
      as (vars' & Htarget & Hvars & (Hdt & Htg & Hms) & Hst & Hts & Hic & Htr).
    rewrite Hms in Hmon. rewrite Hvars in Hmon.
    destruct (monitor_append _ _ _ _ Hmon Hnd) as [Hin Hout].
    rewrite <- Hms in Hnd.
    destruct (IH _ _ _ _ Hrun Hnd)
      as (states & Hstates & Hlast & (Hdt' & Htg' & Hms') & Hst' & Hts' & Hic' & Htr'
          & Hin' & Hout').
    rewrite Htg, Hdt, Hvars in Hstates.
    exists (vars' :: states). cbn [target_states].
    rewrite Htarget. cbn [mbind result_bind]. rewrite Hstates.
    cbn [mbind result_bind]. unfold runner_static. split_and!; try congruence.
    + rewrite Hlast, Hvars. destruct states as [|s0 states']; [reflexivity|].
      change (last (vars' :: s0 :: states')) with (last (s0 :: states')).
      destruct (last (s0 :: states')) eqn:El; [reflexivity|].
      apply last_None in El. discriminate El.
    + rewrite Htr', Htr, <- app_assoc. reflexivity.
    + intros k h0 Hk Hacc.
      destruct (Hin k Hk) as (v & Hv & Hacc1). rewrite Hacc in Hacc1.
      cbn [from_option id] in Hacc1.
      destruct (Hin' k (h0 ++ [v]) ltac:(rewrite Hms; exact Hk) Hacc1)
        as (hist & Hout1 & Hall).
      exists (v :: hist). rewrite Hout1, <- app_assoc. split; [reflexivity|].
      constructor; assumption.
    + intros k Hk. rewrite Hout' by (rewrite Hms; exact Hk). apply Hout. exact Hk.
Qed.

Lemma dict_set_get {V} (k k' : string) (v : V) (d : list (string * V)) :
  assoc_get k (dict_set k' v d)
  = if decide (k = k') then Some v else assoc_get k d.
Proof.
  induction d as [|[k2 v2] d IH]; cbn [dict_set assoc_get].
  - destruct (decide (k = k')); reflexivity.
  - destruct (decide (k' = k2)) as [->|Hne]; cbn [assoc_get].
    + destruct (decide (k = k2)); reflexivity.
    + destruct (decide (k = k2)) as [->|Hne2].
      * rewrite decide_False by congruence. reflexivity.
      * exact IH.
Qed.

Lemma assoc_get_None {V} (k : string) (d : list (string * V)) :
  k ∉ map fst d -> assoc_get k d = None.
Proof.
  induction d as [|[k2 v2] d IH]; cbn [assoc_get map fst]; [reflexivity|].
  intros Hk. apply not_elem_of_cons in Hk as [Hne Hk].
  rewrite decide_False by exact Hne. apply IH. exact Hk.
Qed.

Lemma foldl_dict_set_get {V} (k : string) (l : list (string * V)) :
  forall c0 : list (string * V),
    NoDup (map fst l) ->
    assoc_get k (foldl (fun c kv => dict_set kv.1 kv.2 c) c0 l)
    = match assoc_get k l with
      | Some h => Some h
      | None => assoc_get k c0
      end.
Proof.
  induction l as [|[k2 v2] l IH]; intros c0 Hnd; cbn [foldl assoc_get fst snd];
    [reflexivity|].
  cbn [map fst] in Hnd. apply NoDup_cons in Hnd as [Hnotin Hnd].
  rewrite IH by exact Hnd. rewrite dict_set_get.
  destruct (decide (k = k2)) as [->|Hne]; [|reflexivity].
  rewrite (assoc_get_None k2 l Hnotin). reflexivity.
Qed.

Lemma monitor_append_keys (vars : list (string * Tensor)) (ms : list string) :
  forall acc out : list (string * list Tensor),
    for_each (fun acc k =>
                match assoc_get k vars with
                | Some v => Ok (assoc_append k v acc)
                | None => Raise (KeyError "self.variables[k]")
                end) ms acc = Ok out ->
    (forall k, k ∈ ms -> k ∈ map fst acc) ->
    map fst out = map fst acc.
Proof.
  induction ms as [|m ms IH]; intros acc out Hrun Hin; cbn [for_each] in Hrun.
  - injection Hrun as <-. reflexivity.
  - apply result_bind_ok in Hrun as (acc1 & H1 & Hrun).
    destruct (assoc_get m vars) as [v|]; [|discriminate H1]. injection H1 as <-.
    assert (Hk : map fst (assoc_append m v acc) = map fst acc).
    { rewrite assoc_append_keys. rewrite decide_True; [reflexivity|].
      apply Hin. left. }
    rewrite (IH _ _ Hrun); [exact Hk|].
    intros k Hkin. rewrite Hk. apply Hin. right. exact Hkin.
Qed.

Lemma runner_fold_keys (times : list Q) :
  forall (acc out : list (string * list Tensor))
         (r r' : IntegratorRunner.IntegratorRunner),
    st_fold (fun out_vars _t =>
               _ ← IntegratorRunner._step _t;
               self ← st_get;
               st_lift (for_each (fun acc k =>
                                    match assoc_get k (IntegratorRunner.variables self) with
                                    | Some v => Ok (assoc_append k v acc)
                                    | None => Raise (KeyError "self.variables[k]")
                                    end)
                                 (IntegratorRunner.monitors self) out_vars))
            times acc r = (r', Ok out) ->
    (forall k, k ∈ IntegratorRunner.monitors r -> k ∈ map fst acc) ->
    map fst out = map fst acc.
Proof.
  induction times as [|t times IH]; intros acc out r r' Hrun Hin;
    cbn [st_fold] in Hrun.
  - injection Hrun as <- <-. reflexivity.
  - apply st_bind_ok in Hrun as (acc1 & r1 & Hbody & Hrun).
    apply st_bind_ok in Hbody as ([] & r0 & Hstep & Hbody).
    apply st_bind_ok in Hbody as (self & r0' & Hget & Hbody).
    injection Hget as <- <-. unfold st_lift in Hbody. injection Hbody as <- Hmon.
    apply runner_step_ok in Hstep as (vars' & _ & _ & (_ & _ & Hms) & _).
    rewrite Hms in Hmon.
    pose proof (monitor_append_keys _ _ _ _ Hmon Hin) as Hk.
    rewrite (IH _ _ _ _ Hrun); [exact Hk|].
    intros k Hkin. rewrite Hk. apply Hin. rewrite <- Hms. exact Hkin.
Qed.

Lemma assoc_get_init (ms : list string) (k : string) :
  k ∈ ms -> assoc_get k (map (fun k => (k, @nil Tensor)) ms) = Some [].
Proof.
  induction ms as [|m ms IH]; intros Hk; [inversion Hk|].
  cbn [map assoc_get]. destruct (decide (k = m)) as [|Hne]; [reflexivity|].
  apply IH. apply elem_of_cons in Hk as [Hk|Hk]; [contradiction|exact Hk].
Qed.

(** X22: a run of the runner that completes, with pairwise distinct
    monitored names, integrates the variables step by step over the
    schedule [arange(start, start + duration, dt)] and stores, for every
    monitored variable, one row per step: row [i] is the variable's value
    after the step at time [times[i]], which is the instant
    [times[i] + dt] stored at position [i] of the monitor's timestamps. *)
Theorem runner_history (duration : Q) (start_t : option Q)
    (r r' : IntegratorRunner.IntegratorRunner) :
  IntegratorRunner.__call__ duration start_t r = (r', Ok tt) ->
  NoDup (IntegratorRunner.monitors r) ->
  let start := match start_t with
               | Some t => t
               | None => default 0%Q (IntegratorRunner._start_t r)
               end in
  exists times states,
    np_arange (PFloat start) (PFloat (start + duration)) (IntegratorRunner.dt r)
      = Ok times /\
    target_states (IntegratorRunner.target r) (IntegratorRunner.dt r)
      (IntegratorRunner.variables r) times = Ok states /\
    length states = length times /\
    IntegratorRunner.variables r'
      = default (IntegratorRunner.variables r) (last states) /\
    IntegratorRunner.mon_ts r'
      = Some (map (fun t => (t + IntegratorRunner.dt r)%Q) times) /\
    forall k, k ∈ IntegratorRunner.monitors r ->
      exists hist,
        assoc_get k (IntegratorRunner.mon_item_contents r') = Some hist /\
        Forall2 (fun vars v => assoc_get k vars = Some v) states hist.
Proof.
  intros Hrun Hnd start. unfold IntegratorRunner.__call__ in Hrun.
  apply st_bind_ok in Hrun as (self & r0 & Hget & Hrun). injection Hget as <- <-.
  cbn zeta in Hrun. fold start in Hrun.
  apply st_bind_ok in Hrun as (times & r0 & Hts & Hrun).
  unfold st_lift in Hts. injection Hts as <- Hts.
  apply st_bind_ok in Hrun as (hists & r1 & Hstep & Hrun).
  unfold IntegratorRunner.step_func in Hstep.
  apply st_bind_ok in Hstep as (self0 & r0 & Hget & Hstep). injection Hget as <- <-.
  pose proof (runner_fold_keys _ _ _ _ _ Hstep) as Hkeys.
  rewrite map_map, map_id in Hkeys. specialize (Hkeys (fun k H => H)).
  apply runner_fold_states in Hstep
    as (states & Hstates & Hlast & (Hdt & Htg & Hms) & Hst & Hmts & Hic & Htr
        & Hin & Hout); [|exact Hnd].
  apply st_bind_ok in Hrun as ([] & r2 & Hpost & Hrun).
  unfold IntegratorRunner._post, st_modify in Hpost. injection Hpost as <-.
  unfold st_modify in Hrun. injection Hrun as <-.
  cbn [IntegratorRunner.variables IntegratorRunner.mon_ts
       IntegratorRunner.mon_item_contents IntegratorRunner.dt].
  exists times, states. split_and!; try assumption.
  - clear -Hstates. revert states Hstates.
    generalize (IntegratorRunner.variables r).
    induction times as [|t times IH]; intros vars states H; cbn [target_states] in H.
    + injection H as <-. reflexivity.
    + apply result_bind_ok in H as (vars' & _ & H).
      apply result_bind_ok in H as (rest & Hrest & H). injection H as <-.
      cbn [length]. f_equal. exact (IH _ _ Hrest).
  - rewrite Hdt. reflexivity.
  - intros k Hk.
    destruct (Hin k [] Hk (assoc_get_init _ k Hk)) as (hist & Hget & Hall).
    exists hist. split; [|exact Hall].
    rewrite foldl_dict_set_get by (rewrite Hkeys; exact Hnd).
    rewrite Hget. reflexivity.
Qed.

Lemma runner_history_witness :
  exists r',
    IntegratorRunner.__call__ 3 None ex_runner_x = (r', Ok tt) /\
    IntegratorRunner.mon_ts r' = Some [1; 2; 3]%Q /\
    exists hist,
      assoc_get "x" (IntegratorRunner.mon_item_contents r') = Some hist /\
      length hist = 3%nat.
Proof.
  destruct (IntegratorRunner.__call__ 3 None ex_runner_x) as [r' res] eqn:E.
  assert (Hr : res = Ok tt)
    by (pose proof (f_equal snd E) as K; vm_compute in K; congruence).
  subst res.
  destruct (runner_history 3 None ex_runner_x r' E) as
    (times & states & Hts & Hstates & Hlen & _ & Hmon & Hhist).
  - cbn. apply NoDup_singleton.
  - exists r'. split; [reflexivity|].
    vm_compute in Hts. injection Hts as <-.
    split; [rewrite Hmon; vm_compute; reflexivity|].
    destruct (Hhist "x" ltac:(left)) as (hist & Hget & Hall).
    exists hist. split; [exact Hget|].
    apply Forall2_length in Hall. rewrite <- Hall, Hlen. reflexivity.
Defined.

Lemma runner_call_ok (duration : Q) (start_t : option Q)
    (r r' : IntegratorRunner.IntegratorRunner) :
  IntegratorRunner.__call__ duration start_t r = (r', Ok tt) ->
  let start := match start_t with
               | Some t => t
               | None => default 0%Q (IntegratorRunner._start_t r)
               end in
  exists times,
    np_arange (PFloat start) (PFloat (start + duration)) (IntegratorRunner.dt r)
      = Ok times /\
    IntegratorRunner.trace r' = IntegratorRunner.trace r ++ times /\
    IntegratorRunner.mon_ts r'
      = Some (map (fun t => (t + IntegratorRunner.dt r)%Q) times) /\
    IntegratorRunner._start_t r' = Some (start + duration)%Q /\
    IntegratorRunner.dt r' = IntegratorRunner.dt r.
Proof.
  intros Hrun start. unfold IntegratorRunner.__call__ in Hrun.
  apply st_bind_ok in Hrun as (self & r0 & Hget & Hrun). injection Hget as <- <-.
  cbn zeta in Hrun. fold start in Hrun.
  apply st_bind_ok in Hrun as (times & r0 & Hts & Hrun).
  unfold st_lift in Hts. injection Hts as <- Hts.
  apply st_bind_ok in Hrun as (hists & r1 & Hstep & Hrun).
  unfold IntegratorRunner.step_func in Hstep.
  apply st_bind_ok in Hstep as (self0 & r0 & Hget & Hstep). injection Hget as <- <-.
  apply runner_step_func_ok in Hstep as [Htr Hdt].
  apply st_bind_ok in Hrun as ([] & r2 & Hpost & Hrun).
  unfold IntegratorRunner._post, st_modify in Hpost. injection Hpost as <-.
  unfold st_modify in Hrun. injection Hrun as <-.
  cbn [IntegratorRunner.trace IntegratorRunner.mon_ts IntegratorRunner._start_t
       IntegratorRunner.dt].
  exists times. rewrite Hdt. split_and!; try reflexivity; assumption.
Qed.

(** X23: a second run without a start time continues where the first run
    ended: its schedule starts at the first run's start plus duration, the
    steps of both runs are taken in order, the stored start time advances
    by both durations, and the monitor's timestamps are those of the second
    run only (each run overwrites them). *)
Theorem runner_resumes (d1 d2 : Q) (start_t : option Q)
    (r r1 r2 : IntegratorRunner.IntegratorRunner) :
  IntegratorRunner.__call__ d1 start_t r = (r1, Ok tt) ->
  IntegratorRunner.__call__ d2 None r1 = (r2, Ok tt) ->
  let start := match start_t with
               | Some t => t
               | None => default 0%Q (IntegratorRunner._start_t r)
               end in
  exists times1 times2,
    np_arange (PFloat start) (PFloat (start + d1)) (IntegratorRunner.dt r)
      = Ok times1 /\
    np_arange (PFloat (start + d1)) (PFloat (start + d1 + d2)) (IntegratorRunner.dt r)
      = Ok times2 /\
    IntegratorRunner.trace r2 = IntegratorRunner.trace r ++ times1 ++ times2 /\
    IntegratorRunner.mon_ts r2
      = Some (map (fun t => (t + IntegratorRunner.dt r)%Q) times2) /\
    IntegratorRunner._start_t r2 = Some (start + d1 + d2)%Q.
Proof.
  intros H1 H2 start.
  apply runner_call_ok in H1 as (times1 & Hts1 & Htr1 & _ & Hst1 & Hdt1).
  apply runner_call_ok in H2 as (times2 & Hts2 & Htr2 & Hmon2 & Hst2 & Hdt2).
  rewrite Hst1, Hdt1 in *. cbn [from_option id] in *. fold start in Hts1.
  exists times1, times2. split_and!; try assumption.
  rewrite Htr2, Htr1, <- app_assoc. reflexivity.
Qed.

Lemma runner_resumes_witness :
  exists r1 r2,
    IntegratorRunner.__call__ 2 None ex_runner_x = (r1, Ok tt) /\
    IntegratorRunner.__call__ 2 None r1 = (r2, Ok tt) /\
    IntegratorRunner.trace r2 = [0; 1; 2; 3]%Q /\
    IntegratorRunner.mon_ts r2 = Some [3; 4]%Q.
Proof.
  destruct (IntegratorRunner.__call__ 2 None ex_runner_x) as [r1 res1] eqn:E1.
  assert (Hr1 : res1 = Ok tt)
    by (pose proof (f_equal snd E1) as K; vm_compute in K; congruence).
  subst res1.
  destruct (IntegratorRunner.__call__ 2 None r1) as [r2 res2] eqn:E2.
  assert (Hr2 : res2 = Ok tt).
  { pose proof (f_equal snd E2) as K. pose proof (f_equal fst E1) as K1.
    cbn [fst snd] in K, K1. rewrite <- K1 in K. vm_compute in K. congruence. }
  subst res2.
  destruct (runner_resumes 2 2 None ex_runner_x r1 r2 E1 E2)
    as (times1 & times2 & Hts1 & Hts2 & Htr & Hmon & _).
  exists r1, r2. split; [reflexivity|]. split; [exact E2|].
  vm_compute in Hts1. injection Hts1 as <-.
  vm_compute in Hts2. injection Hts2 as <-.
  split; [exact Htr|]. rewrite Hmon. vm_compute. reflexivity.
Defined.

(** * Further properties of [NeuGroup.__call__] *)

Lemma for_each_keys_only {S A B} (body : S -> A -> result S)
    (l l' : list (A * B)) (s : S) :
  map fst l = map fst l' ->
  for_each (fun st (item : A * B) => body st item.1) l s
  = for_each (fun st (item : A * B) => body st item.1) l' s.
Proof.
  revert l' s. induction l as [|[a b] l IH]; intros [|[a' b'] l'] s H;
    try discriminate H; [reflexivity|].
  cbn [map fst] in H. injection H as -> H. cbn [for_each fst].
  destruct (body s a') as [s1|e]; cbn [mbind result_bind]; [|reflexivity].
  apply IH. exact H.
Qed.

(** X24: the two override loops iterate the dicts themselves, that is,
    their keys: the outcome of the call does not depend on the values of
    [vars_init] and [pars_update] at all, only on their keys.  The values a
    caller passes to override a variable or a parameter never reach the
    state or the parameters. *)
Theorem neugroup_override_values_ignored (self : NeuGroup.NeuGroup)
    (geometry : PyVal) (vars_init vars_init' pars_update pars_update'
      : list (PyVal * PyVal)) :
  map fst vars_init = map fst vars_init' ->
  map fst pars_update = map fst pars_update' ->
  NeuGroup.__call__ self geometry (Some vars_init) (Some pars_update)
  = NeuGroup.__call__ self geometry (Some vars_init') (Some pars_update').
Proof.
  intros Hv Hp. unfold NeuGroup.__call__.
  destruct (NeuGroup.parse_geometry geometry) as [[g n]|e];
    cbn [mbind result_bind]; [|reflexivity].
  assert (Ev : NeuGroup.override_vars self vars_init
               = NeuGroup.override_vars self vars_init').
  { unfold NeuGroup.override_vars.
    apply (for_each_keys_only
             (fun variables key =>
                '(k, v) ← py_unpack2 key;
                match k with
                | PStr k =>
                    if decide (is_Some (assoc_get k (NeuGroup.variables self)))
                    then Ok (dict_set k v variables)
                    else Raise (KeyError "variable is not defined in the group")
                | _ => Raise (KeyError "variable is not defined in the group")
                end)). exact Hv. }
  assert (Ep : NeuGroup.override_pars self n pars_update
               = NeuGroup.override_pars self n pars_update').
  { unfold NeuGroup.override_pars.
    apply (for_each_keys_only
             (fun parameters key =>
                '(k, v) ← py_unpack2 key;
                let val_size := np_size v in
                if decide (val_size <> 1%nat /\ Z.of_nat val_size <> n) then
                  Raise (ValueError "The size of parameter is wrong")
                else Ok (pydict_set k v parameters))). exact Hp. }
  rewrite Ev, Ep. reflexivity.
Qed.

Lemma neugroup_override_values_ignored_witness :
  NeuGroup.__call__ ex_group (PInt 3) (Some []) (Some [(PStr "ab", PFloat 20)])
  = NeuGroup.__call__ ex_group (PInt 3) (Some []) (Some [(PStr "ab", PFloat 99)]) /\
  NeuGroup.__call__ ex_group (PInt 3) (Some []) (Some [(PStr "ab", PFloat 20)])
  = Ok (NeuGroup.mkCalled 3 (PInt 1, PInt 3)
          [("V", mkTensor [3%nat] [0; 0; 0]%Q)]
          [(PStr "tau", PFloat 10); (PStr "a", PStr "b")]).
Proof.
  split.
  - apply (neugroup_override_values_ignored ex_group (PInt 3) [] []
             [(PStr "ab", PFloat 20)] [(PStr "ab", PFloat 99)]); reflexivity.
  - vm_compute. reflexivity.
Defined.

Lemma assoc_get_elem {V} (k : string) (v : V) (d : list (string * V)) :
  assoc_get k d = Some v -> (k, v) ∈ d.
Proof.
  induction d as [|[k2 v2] d IH]; cbn [assoc_get]; [discriminate|].
  destruct (decide (k = k2)) as [->|Hne].
  - intros K. injection K as ->. left.
  - intros K. right. apply IH. exact K.
Qed.

Lemma py_unpack2_str (s : string) (k v : PyVal) :
  py_unpack2 (PStr s) = Ok (k, v) -> exists a b, k = PStr a /\ v = PStr b.
Proof.
  cbn [py_unpack2]. destruct s as [|a [|b [|c s']]]; try discriminate.
  intros K. injection K as <- <-. eauto.
Qed.

Lemma override_vars_holds_string (self : NeuGroup.NeuGroup)
    (items : list (PyVal * PyVal)) :
  forall vars vars' : list (string * PyVal),
    Forall (fun item => py_is_str item.1 = true) items ->
    (items <> [] \/ holds_string vars) ->
    for_each (fun variables (item : PyVal * PyVal) =>
                '(k, v) ← py_unpack2 item.1;
                match k with
                | PStr k =>
                    if decide (is_Some (assoc_get k (NeuGroup.variables self)))
                    then Ok (dict_set k v variables)
                    else Raise (KeyError "variable is not defined in the group")
                | _ => Raise (KeyError "variable is not defined in the group")
                end) items vars = Ok vars' ->
    holds_string vars'.
Proof.
  induction items as [|[key val] items IH]; intros vars vars' Hstr Hne Hrun;
    cbn [for_each] in Hrun.
  - injection Hrun as <-. destruct Hne as [Hne|Hs]; [contradiction|exact Hs].
  - apply Forall_cons in Hstr as [Hkey Hstr]. cbn [fst] in Hkey, Hrun.
    destruct key; try discriminate Hkey.
    apply result_bind_ok in Hrun as (vars1 & H1 & Hrun).
    apply result_bind_ok in H1 as ([k v] & Hun & H1).
    apply py_unpack2_str in Hun as (a & b & -> & ->).
    destruct (decide _); [|discriminate H1]. injection H1 as <-.
    apply (IH _ _ Hstr) in Hrun; [exact Hrun|].
    right. exists a, b. rewrite dict_set_get. rewrite decide_True by reflexivity.
    reflexivity.
Qed.

Lemma state_loop_all (f : PyVal -> result Tensor) (vars : list (string * PyVal)) :
  forall st st' : list (string * Tensor),
    for_each (fun st (kv : string * PyVal) => x ← f kv.2; Ok (st ++ [(kv.1, x)]))
             vars st = Ok st' ->
    Forall (fun kv => succeeds (f kv.2)) vars /\
    exists xs, Forall2 (fun kv x => f kv.2 = Ok x) vars xs /\
               st' = st ++ zip (map fst vars) xs.
Proof.
  induction vars as [|[k v] vars IH]; intros st st' Hrun; cbn [for_each] in Hrun.
  - injection Hrun as <-. split; [constructor|]. exists []. split; [constructor|].
    cbn. rewrite app_nil_r. reflexivity.
  - apply result_bind_ok in Hrun as (st1 & H1 & Hrun).
    apply result_bind_ok in H1 as (x & Hx & H1). injection H1 as <-.
    cbn [snd fst] in *.
    destruct (IH _ _ Hrun) as (Hall & xs & Hxs & ->). split.
    + constructor; [exists x; exact Hx|exact Hall].
    + exists (x :: xs). split; [constructor; assumption|].
      cbn [map fst zip zip_with]. rewrite <- app_assoc. reflexivity.
Qed.

(** X25: on the NumPy backend no override of a variable can go through: a
    call with a non-empty [vars_init] whose keys are strings never
    succeeds.  A key that is not two characters long fails in the
    unpacking; a two-character key either names no variable by its first
    character or sets that variable to its second character, a string,
    which the construction of the state then rejects. *)
Theorem neugroup_numpy_vars_init_rejected (self : NeuGroup.NeuGroup)
    (geometry : PyVal) (vars_init : list (PyVal * PyVal))
    (pars_update : option (list (PyVal * PyVal))) :
  NeuGroup.is_numba_bk self = false ->
  vars_init <> [] ->
  Forall (fun item => py_is_str item.1 = true) vars_init ->
  ~ succeeds (NeuGroup.__call__ self geometry (Some vars_init) pars_update).
Proof.
  intros Hbk Hne Hstr [c Hcall]. unfold NeuGroup.__call__ in Hcall.
  apply result_bind_ok in Hcall as ([g n] & _ & Hcall).
  cbn [mbind result_bind] in Hcall.
  apply result_bind_ok in Hcall as (vars & Hvars & Hcall).
  apply result_bind_ok in Hcall as (st & Hstate & _).
  rewrite Hbk in Hstate.
  apply (state_loop_all (NeuGroup.ones_mul n)) in Hstate as [Hall _].
  unfold NeuGroup.override_vars in Hvars.
  apply override_vars_holds_string in Hvars as (k & s & Hks);
    [|exact Hstr|left; exact Hne].
  apply assoc_get_elem in Hks.
  apply (proj1 (Forall_forall _ _) Hall) in Hks as [x Hx].
  cbn [snd] in Hx. unfold NeuGroup.ones_mul in Hx.
  destruct (n <? 0)%Z; discriminate Hx.
Qed.

Lemma neugroup_numpy_vars_init_rejected_witness :
  ~ succeeds (NeuGroup.__call__ ex_group (PInt 3)
                (Some [(PStr "V1", PFloat 1)]) (Some [])).
Proof.
  apply (neugroup_numpy_vars_init_rejected ex_group (PInt 3)
           [(PStr "V1", PFloat 1)] (Some [])).
  - reflexivity.
  - discriminate.
  - repeat constructor.
Defined.

Lemma result_bind_Ok {A B} (a : A) (f : A -> result B) : Ok a ≫= f = f a.
Proof. reflexivity. Qed.

(** X26: what a call without overrides constructs on the NumPy backend
    when the variables are numbers and [num] is not negative: the state
    holds, for each variable in declaration order, [num] copies of its
    value, and [P] is the group's parameters; and both dicts are required,
    the default [None] of either is rejected with an [AssertionError]. *)
Theorem neugroup_default_call (self : NeuGroup.NeuGroup) (geometry : PyVal)
    (g : PyVal * PyVal) (n : Z) :
  NeuGroup.is_numba_bk self = false ->
  NeuGroup.parse_geometry geometry = Ok (g, n) ->
  (0 <= n)%Z ->
  Forall (fun kv => is_number kv.2) (NeuGroup.variables self) ->
  NeuGroup.__call__ self geometry (Some []) (Some [])
  = Ok (NeuGroup.mkCalled n g
          (map (fun kv : string * PyVal =>
                  (kv.1, mkTensor [Z.to_nat n]
                           (replicate (Z.to_nat n) (default 0%Q (py_number kv.2)))))
               (NeuGroup.variables self))
          (map (fun kv : string * PyVal => (PStr kv.1, kv.2))
               (NeuGroup.parameters self))) /\
  (forall pu, NeuGroup.__call__ self geometry None pu
              = Raise (AssertionError "vars_init must be a dict.")) /\
  NeuGroup.__call__ self geometry (Some []) None
  = Raise (AssertionError "pars_update must be a dict.").
Proof.
  intros Hbk Hg Hn Hnum. unfold NeuGroup.__call__. rewrite Hg, Hbk.
  cbn [mbind result_bind NeuGroup.override_vars NeuGroup.override_pars for_each].
  assert (Hstate : forall st,
            for_each (fun st (kv : string * PyVal) =>
                        x ← NeuGroup.ones_mul n kv.2; Ok (st ++ [(kv.1, x)]))
                     (NeuGroup.variables self) st
            = Ok (st ++ map (fun kv : string * PyVal =>
                               (kv.1, mkTensor [Z.to_nat n]
                                        (replicate (Z.to_nat n)
                                           (default 0%Q (py_number kv.2)))))
                            (NeuGroup.variables self))).
  { induction Hnum as [|[k v] vars [q Hq] Hvars IH]; intros st; cbn [for_each map].
    - rewrite app_nil_r. reflexivity.
    - cbn [fst snd] in *.
      assert (Hom : NeuGroup.ones_mul n v
                    = Ok (mkTensor [Z.to_nat n]
                            (replicate (Z.to_nat n) (default 0%Q (py_number v))))).
      { unfold NeuGroup.ones_mul. destruct (n <? 0)%Z eqn:E; [lia|].
        destruct v; try discriminate Hq; reflexivity. }
      rewrite Hom, !result_bind_Ok, IH, <- app_assoc. reflexivity. }
  rewrite Hstate. cbn [mbind result_bind app].
  split_and!; reflexivity.
Qed.

Lemma neugroup_default_call_witness :
  NeuGroup.__call__ ex_group (PTuple [PInt 2; PInt 2]) (Some []) (Some [])
  = Ok (NeuGroup.mkCalled 4 (PInt 2, PInt 2)
          [("V", mkTensor [4%nat] [0; 0; 0; 0]%Q)]
          [(PStr "tau", PFloat 10)]) /\
  NeuGroup.__call__ ex_group (PTuple [PInt 2; PInt 2]) None None
  = Raise (AssertionError "vars_init must be a dict.").
Proof.
  destruct (neugroup_default_call ex_group (PTuple [PInt 2; PInt 2])
              (PInt 2, PInt 2) 4) as (H1 & H2 & _).
  - reflexivity.
  - vm_compute. reflexivity.
  - lia.
  - repeat constructor. eexists. reflexivity.
  - split; [etrans; [exact H1|vm_compute; reflexivity]|apply H2].
Defined.
